(** * Abaqus input-file editing: the [grains.abaqus] module

    A shallow embedding of [src/grains/abaqus.py] (classes [Material] and
    [Geometry], functions [validate_file]) together with the properties of
    its keyword-block locator, record extractor, serializer and splicer.

    Conventions of the embedding.
    - Text is [string]; a character is an [ascii] code.  The regular
      expressions of the source are interpreted on ASCII text, where
      Python's [\w] is [[A-Za-z0-9_]] and [\s] is the set of codes
      9-13, 28-31 and 32.
    - A file is the sequence of its bytes, one character each.  The source
      opens every file in text mode: iterating a file, and [readlines],
      deliver its lines under universal newlines, where a carriage return
      with a line feed behind it, and a carriage return alone, end a line as
      a line feed does and arrive as one line feed.  Writing stores the
      characters as they are, a line feed as a line feed (the POSIX
      convention).
    - A Python [dict] is an association list in insertion order with unique
      keys; assigning to an existing key keeps the key's position.
    - A local variable that may be unbound is an [option]; reading it while
      unbound raises [UnboundLocalError].
    - A method is a function from the instance and the outside world to an
      outcome, the instance and the world afterwards, so that what a call has
      already assigned when it raises stays visible. *)

From Stdlib Require Import String Ascii List ZArith Lia Bool.
From Stdlib Require Import PrimFloat.
From Stdlib Require Floats Uint63.
Import ListNotations.

Open Scope string_scope.
Open Scope list_scope.

(* ================================================================== *)
(** ** Python strings *)

Module PyStr.

(** The newline character and the one-character string holding it. *)
Definition newline : ascii := ascii_of_nat 10.
Definition nl : string := String newline EmptyString.
Definition comma : ascii := ascii_of_nat 44.
Definition star : ascii := ascii_of_nat 42.

Definition in_range (lo hi : nat) (c : ascii) : bool :=
  (lo <=? nat_of_ascii c)%nat && (nat_of_ascii c <=? hi)%nat.

(** [\w] on ASCII text. *)
Definition is_word (c : ascii) : bool :=
  in_range 48 57 c || in_range 65 90 c || in_range 97 122 c
  || Ascii.eqb c (ascii_of_nat 95).

(** [\s] on ASCII text. *)
Definition is_space (c : ascii) : bool :=
  in_range 9 13 c || in_range 28 32 c.

(** Case folding used by [re.IGNORECASE] on ASCII letters. *)
Definition lower (c : ascii) : ascii :=
  if in_range 65 90 c then ascii_of_nat (nat_of_ascii c + 32) else c.

(** [s[0:-1]]: every character but the last; the empty string stays. *)
Fixpoint drop_last (s : string) : string :=
  match s with
  | EmptyString => EmptyString
  | String c rest =>
      match rest with
      | EmptyString => EmptyString
      | String _ _ => String c (drop_last rest)
      end
  end.

(** [s.split(',')]: at least one field, fields used verbatim. *)
Fixpoint split (sep : ascii) (s : string) : list string :=
  match s with
  | EmptyString => [EmptyString]
  | String c rest =>
      if Ascii.eqb c sep then EmptyString :: split sep rest
      else match split sep rest with
           | [] => [String c EmptyString]
           | f :: fs => String c f :: fs
           end
  end.

(** [sep.join(fields)]. *)
Fixpoint join (sep : string) (fields : list string) : string :=
  match fields with
  | [] => EmptyString
  | [f] => f
  | f :: fs => f ++ sep ++ join sep fs
  end.

(** [''.join(lines)]. *)
Definition concat_lines (lines : list string) : string :=
  fold_right String.append EmptyString lines.

(** The carriage return. *)
Definition cr : ascii := ascii_of_nat 13.

(** Universal newlines, the translation Python's text layer applies to what
    it reads: a carriage return followed by a line feed becomes the line
    feed, any other carriage return becomes a line feed. *)
Fixpoint universal (s : string) : string :=
  match s with
  | EmptyString => EmptyString
  | String c rest =>
      if Ascii.eqb c cr then
        match rest with
        | EmptyString => nl
        | String d _ =>
            if Ascii.eqb d newline then universal rest
            else String newline (universal rest)
        end
      else String c (universal rest)
  end.

(** A text cut after every line feed: each line ends after its line feed,
    the last one possibly without one; the empty text has no line. *)
Fixpoint cut_lines (s : string) : list string :=
  match s with
  | EmptyString => []
  | String c rest =>
      if Ascii.eqb c newline then nl :: cut_lines rest
      else match cut_lines rest with
           | [] => [String c EmptyString]
           | l :: ls => String c l :: ls
           end
  end.

(** [file.readlines()], and the lines iterating a file gives, for a file
    opened in text mode with the content [s]. *)
Definition readlines (s : string) : list string := cut_lines (universal s).

(** The longest prefix whose characters satisfy [p]. *)
Fixpoint take_while (p : ascii -> bool) (s : string) : string :=
  match s with
  | EmptyString => EmptyString
  | String c rest => if p c then String c (take_while p rest) else EmptyString
  end.

Fixpoint forallb_str (p : ascii -> bool) (s : string) : bool :=
  match s with
  | EmptyString => true
  | String c rest => p c && forallb_str p rest
  end.

(** [s.rfind(c)], -1 when [c] does not occur. *)
Fixpoint rfind_from (c : ascii) (s : string) (i : Z) (found : Z) : Z :=
  match s with
  | EmptyString => found
  | String d rest => rfind_from c rest (i + 1) (if Ascii.eqb d c then i else found)
  end.
Definition rfind (c : ascii) (s : string) : Z := rfind_from c s 0 (-1).

(** [s[i:j]] and [s[i:]] for non-negative [i <= j]. *)
Definition slice (s : string) (i j : Z) : string :=
  substring (Z.to_nat i) (Z.to_nat (j - i)) s.
Definition slice_from (s : string) (i : Z) : string :=
  substring (Z.to_nat i) (String.length s - Z.to_nat i) s.

(** [str(n)] for a natural number. *)
Fixpoint digits_fuel (fuel n : nat) (acc : string) : string :=
  match fuel with
  | O => acc
  | S fuel' =>
      let d := String (ascii_of_nat (48 + Nat.modulo n 10)) acc in
      if (n <? 10)%nat then d else digits_fuel fuel' (Nat.div n 10) d
  end.
Definition str_of_nat (n : nat) : string := digits_fuel (S n) n EmptyString.

End PyStr.

(* ================================================================== *)
(** ** The regular expressions of [read] *)

Module Re.
Import PyStr.

(** A literal pattern matched at the start of the text under
    [re.IGNORECASE]; the result is the text after the match. *)
Fixpoint match_nocase (pat s : string) : option string :=
  match pat with
  | EmptyString => Some s
  | String p pat' =>
      match s with
      | EmptyString => None
      | String c s' =>
          if Ascii.eqb (lower c) (lower p) then match_nocase pat' s' else None
      end
  end.

(** [re.compile('^\*\s?\w').match(line)]: any Abaqus keyword. *)
Definition generalkeyword (line : string) : bool :=
  match line with
  | String c0 (String c1 rest) =>
      Ascii.eqb c0 star
      && (is_word c1
          || (is_space c1
              && match rest with
                 | String c2 _ => is_word c2
                 | EmptyString => false
                 end))
  | _ => false
  end.

(** [re.compile('^[\s]?\*\*').match(line)]. *)
Definition comment (line : string) : bool :=
  match line with
  | String c0 (String c1 rest) =>
      (Ascii.eqb c0 star && Ascii.eqb c1 star)
      || (is_space c0 && Ascii.eqb c1 star
          && match rest with
             | String c2 _ => Ascii.eqb c2 star
             | EmptyString => false
             end)
  | _ => false
  end.

Definition name_char (c : ascii) : bool :=
  is_word c || Ascii.eqb c (ascii_of_nat 45).

(** [re.compile('\*material, name=([\w-]+)', re.IGNORECASE).match(line)];
    the result is [group(1)]. *)
Definition material (line : string) : option string :=
  match match_nocase "*material, name=" line with
  | Some rest =>
      match take_while name_char rest with
      | EmptyString => None
      | name => Some name
      end
  | None => None
  end.

(** [re.compile('\*(plastic|elastic)', re.IGNORECASE).match(line)];
    the result is [group(1)], the seven characters as they stand in
    the line. *)
Definition behavior (line : string) : option string :=
  match line with
  | String c0 rest =>
      if Ascii.eqb c0 star then
        match match_nocase "plastic" rest with
        | Some _ => Some (substring 0 7 rest)
        | None =>
            match match_nocase "elastic" rest with
            | Some _ => Some (substring 0 7 rest)
            | None => None
            end
        end
      else None
  | EmptyString => None
  end.

(** [re.compile('\*node', re.IGNORECASE).match(line)]. *)
Definition node (line : string) : bool :=
  match match_nocase "*node" line with
  | Some _ => true
  | None => false
  end.

End Re.

(* ================================================================== *)
(** ** Python dictionaries, in insertion order *)

Module Dict.

Definition t (V : Type) : Type := list (string * V).

(** [d[k]], [None] standing for [KeyError]. *)
Fixpoint get {V : Type} (k : string) (d : t V) : option V :=
  match d with
  | [] => None
  | (k', v) :: d' => if String.eqb k' k then Some v else get k d'
  end.

(** [d[k] = v]: an existing key keeps its place, a new one goes last. *)
Fixpoint set {V : Type} (k : string) (v : V) (d : t V) : t V :=
  match d with
  | [] => [(k, v)]
  | (k', v') :: d' =>
      if String.eqb k' k then (k, v) :: d' else (k', v') :: set k v d'
  end.

(** [k in d]. *)
Definition mem {V : Type} (k : string) (d : t V) : bool :=
  match get k d with
  | Some _ => true
  | None => false
  end.

Definition keys {V : Type} (d : t V) : list string := map fst d.

End Dict.

(** The materials hierarchy: material name -> behavior name -> rows of
    fields. *)
Definition Row : Type := list string.
Definition Behaviors : Type := Dict.t (list Row).
Definition Hierarchy : Type := Dict.t Behaviors.

(* ================================================================== *)
(** ** Exceptions, the outside world, and methods *)

Inductive exn : Type :=
| Exception (msg : string)
| UnboundLocalError (name : string)
| KeyError (key : string)
| FileNotFoundError (path : string)
| ValueError (text : string)
| TypeError (msg : string).

Inductive res (A : Type) : Type :=
| Ok (a : A)
| Raise (e : exn).
Arguments Ok {A} a.
Arguments Raise {A} e.

(** What the module sees of its environment: the text of each existing
    file, the names [os.listdir()] returns, and what has been printed. *)
Record World : Type := mkWorld {
  files : string -> option string;
  listdir : list string;
  stdout : list string
}.

(** A method on an instance of type [S]. *)
Definition M (S A : Type) : Type := S -> World -> res A * S * World.

Definition ret {S A : Type} (a : A) : M S A := fun self w => (Ok a, self, w).

Definition raise {S A : Type} (e : exn) : M S A := fun self w => (Raise e, self, w).

Definition bind {S A B : Type} (m : M S A) (k : A -> M S B) : M S B :=
  fun self w =>
    match m self w with
    | (Ok a, self', w') => k a self' w'
    | (Raise e, self', w') => (Raise e, self', w')
    end.

Notation "x <- m ;; k" := (bind m (fun x => k))
  (at level 61, m at next level, right associativity).
Notation "m ;; k" := (bind m (fun _ => k))
  (at level 61, right associativity).

Definition get_self {S : Type} : M S S := fun self w => (Ok self, self, w).
Definition put_self {S : Type} (s : S) : M S unit := fun _ w => (Ok tt, s, w).
Definition lift {S A : Type} (r : res A) : M S A := fun self w => (r, self, w).

(** [print(msg)]. *)
Definition print {S : Type} (msg : string) : M S unit :=
  fun self w => (Ok tt, self, mkWorld (files w) (listdir w) (stdout w ++ [msg])).

(** [os.path.isfile(path)]. *)
Definition isfile {S : Type} (path : string) : M S bool :=
  fun self w =>
    (Ok match files w path with Some _ => true | None => false end, self, w).

(** [open(path, 'r')]: the content of the file, which [PyStr.readlines]
    delivers line by line. *)
Definition read_text {S : Type} (path : string) : M S string :=
  fun self w =>
    match files w path with
    | Some text => (Ok text, self, w)
    | None => (Raise (FileNotFoundError path), self, w)
    end.

(** [open(path, 'w')] followed by [write(text)]: the file holds the
    characters of [text] afterwards, as they are.  Opening for writing is
    taken to succeed.  The names [os.listdir()] returns are those listed
    before the call. *)
Definition write_text {S : Type} (path text : string) : M S unit :=
  fun self w =>
    (Ok tt, self,
     mkWorld (fun p => if String.eqb p path then Some text else files w p)
             (listdir w) (stdout w)).

(** [os.listdir()]. *)
Definition os_listdir {S : Type} : M S (list string) :=
  fun self w => (Ok (listdir w), self, w).

(** [os.path.splitext(p)] on a POSIX path: the extension starts at the last
    dot of the last component, leading dots of that component apart. *)
Definition splitext (p : string) : string * string :=
  let sepIndex := PyStr.rfind (ascii_of_nat 47) p in
  let dotIndex := PyStr.rfind (ascii_of_nat 46) p in
  if (sepIndex <? dotIndex)%Z
     && negb (PyStr.forallb_str (fun c => Ascii.eqb c (ascii_of_nat 46))
                (PyStr.slice p (sepIndex + 1) dotIndex))
  then (PyStr.slice p 0 dotIndex, PyStr.slice_from p dotIndex)
  else (p, EmptyString).

Definition dq : string := String (ascii_of_nat 34) EmptyString.

(** [validate_file(file, caller)]; [file] is a string by its type. *)
Definition validate_file {S : Type} (file caller : string) : M S unit :=
  let file_extension := snd (splitext file) in
  (if String.eqb file_extension ".inp" then ret tt
   else print ("File extension `" ++ file_extension
               ++ "` is not the conventional `.inp` used by Abaqus.")) ;;
  existing_file <- isfile file ;;
  if String.eqb caller "read" then
    if negb existing_file then raise (Exception "File does not exist.")
    else
      text <- read_text file ;;
      if String.eqb text EmptyString then raise (Exception "Input file is empty.")
      else ret tt
  else if String.eqb caller "write" || String.eqb caller "create" then
    if existing_file
    then print ("File `" ++ file ++ "` already exists. It will be overwritten!")
    else ret tt
  else
    raise (Exception ("Only the following methods are allowed to call "
                      ++ "this function: " ++ dq ++ "read" ++ dq ++ dq ++ ", "
                      ++ dq ++ "write" ++ dq ++ " " ++ dq ++ "create" ++ dq ++ ".")).

(** Python list slices [l[0:b]] and [l[e+1:]] at integer bounds: a negative
    bound counts from the end, and bounds are clipped to the list. *)
Definition clip (len i : Z) : Z :=
  if (i <? 0)%Z then Z.max 0 (len + i) else Z.min i len.

Definition lslice_to {A : Type} (l : list A) (b : Z) : list A :=
  firstn (Z.to_nat (clip (Z.of_nat (length l)) b)) l.

Definition lslice_from {A : Type} (l : list A) (i : Z) : list A :=
  skipn (Z.to_nat (clip (Z.of_nat (length l)) i)) l.

(* ================================================================== *)
(** ** class [Material] *)

Module Material.
Import PyStr.

(** [self.state]: the keys ['begin'], ['end'] ([None] until a read) and
    ['read']. *)
Record State : Type := mkState {
  st_begin : option Z;
  st_end : option Z;
  st_read : bool
}.

Record t : Type := mk {
  inp_file : string;
  state : State;
  materials : Hierarchy;
  is_greedy : bool
}.

(** [Material(from_Abaqus)]. *)
Definition init (from_Abaqus : bool) : t :=
  mk EmptyString (mkState None None false) [] from_Abaqus.

Definition set_inp_file (f : string) : M t unit :=
  fun self w => (Ok tt, mk f (state self) (materials self) (is_greedy self), w).
Definition set_materials (m : Hierarchy) : M t unit :=
  fun self w => (Ok tt, mk (inp_file self) (state self) m (is_greedy self), w).
Definition set_state (s : State) : M t unit :=
  fun self w => (Ok tt, mk (inp_file self) s (materials self) (is_greedy self), w).
Definition set_state_begin (b : Z) : M t unit :=
  fun self w =>
    set_state (mkState (Some b) (st_end (state self)) (st_read (state self))) self w.
Definition set_state_end (e : Z) : M t unit :=
  fun self w =>
    set_state (mkState (st_begin (state self)) (Some e) (st_read (state self))) self w.
Definition set_state_read (r : bool) : M t unit :=
  fun self w =>
    set_state (mkState (st_begin (state self)) (st_end (state self)) r) self w.

(** [add_material(material)]. *)
Definition add_material (material : string) : M t unit :=
  self <- get_self ;;
  if Dict.mem material (materials self)
  then print ("Material " ++ material ++ " already exists.")
  else set_materials (Dict.set material [] (materials self)).

(** The local variables of [read] that live across loop iterations. *)
Record Locals : Type := mkLocals {
  in_material : bool;
  l_materials : Hierarchy;
  l_begin : option Z;
  material_name : option string;
  behavior_name : option string;
  l_end : option Z;
  line_number : option Z
}.

Definition locals0 : Locals := mkLocals false [] None None None None None.

Inductive Flow : Type :=
| Next (l : Locals)
| Break (l : Locals)
| Crash (e : exn).

(** [local[name]] for a local that may be unbound. *)
Definition local {A : Type} (name : string) (v : option A) : res A :=
  match v with
  | Some a => Ok a
  | None => Raise (UnboundLocalError name)
  end.

(** [d[k]] with its [KeyError]. *)
Definition subscript {V : Type} (d : Dict.t V) (k : string) : res V :=
  match Dict.get k d with
  | Some v => Ok v
  | None => Raise (KeyError k)
  end.

(** One pass through the body of the [for] loop of [read], at line
    [n] holding [line]. *)
Definition body (greedy : bool) (n : Z) (line : string) (l : Locals) : Flow :=
  let is_generalkeyword := Re.generalkeyword line in
  let is_material := Re.material line in
  let is_behavior := Re.behavior line in
  let is_comment := Re.comment line in
  let is_parameter := negb is_generalkeyword && negb is_comment in
  let is_material_param := is_parameter && in_material l in
  match is_material with
  | Some name =>
      let begin := if in_material l then l_begin l else Some n in
      Next (mkLocals true (Dict.set name [] (l_materials l)) begin
              (Some name) (behavior_name l) (l_end l) (Some n))
  | None =>
      match is_behavior with
      | Some bname =>
          match local "material_name" (material_name l) with
          | Raise e => Crash e
          | Ok mname =>
              match subscript (l_materials l) mname with
              | Raise e => Crash e
              | Ok behaviors =>
                  Next (mkLocals (in_material l)
                          (Dict.set mname (Dict.set bname [] behaviors) (l_materials l))
                          (l_begin l) (material_name l) (Some bname)
                          (l_end l) (Some n))
              end
          end
      | None =>
          if is_material_param then
            let params := split comma (drop_last line) in
            match local "material_name" (material_name l) with
            | Raise e => Crash e
            | Ok mname =>
                match subscript (l_materials l) mname with
                | Raise e => Crash e
                | Ok behaviors =>
                    match local "behavior_name" (behavior_name l) with
                    | Raise e => Crash e
                    | Ok bname =>
                        match subscript behaviors bname with
                        | Raise e => Crash e
                        | Ok rows =>
                            Next (mkLocals (in_material l)
                                    (Dict.set mname
                                       (Dict.set bname (rows ++ [params]) behaviors)
                                       (l_materials l))
                                    (l_begin l) (material_name l) (behavior_name l)
                                    (l_end l) (Some n))
                        end
                    end
                end
            end
          else if (is_generalkeyword || is_comment) && in_material l && greedy then
            Break (mkLocals (in_material l) (l_materials l) (l_begin l)
                     (material_name l) (behavior_name l) (Some (n - 1)%Z) (Some n))
          else
            Next (mkLocals (in_material l) (l_materials l) (l_begin l)
                    (material_name l) (behavior_name l) (l_end l) (Some n))
      end
  end.

(** [for line_number, line in enumerate(file, 0)]. *)
Fixpoint loop (greedy : bool) (n : Z) (lines : list string) (l : Locals)
  : res Locals :=
  match lines with
  | [] => Ok l
  | line :: rest =>
      match body greedy n line l with
      | Next l' => loop greedy (n + 1)%Z rest l'
      | Break l' => Ok l'
      | Crash e => Raise e
      end
  end.

(** [read(inp_file)]. *)
Definition read (inp_file : string) : M t unit :=
  self <- get_self ;;
  if st_read (state self) then
    raise (Exception ("Material database already exists. Instantiate a "
                      ++ "new Material object for another database."))
  else
    validate_file inp_file "read" ;;
    text <- read_text inp_file ;;
    l <- lift (loop (is_greedy self) 0%Z (readlines text) locals0) ;;
    end_ <- match l_end l with
            | Some e => ret e
            | None => lift (local "line_number" (line_number l))
            end ;;
    set_inp_file inp_file ;;
    set_materials (l_materials l) ;;
    begin <- lift (local "begin" (l_begin l)) ;;
    set_state_begin begin ;;
    set_state_end end_ ;;
    set_state_read true.

(** [__format()]: the lines of the materials, each with its newline.
    The three nested [for] loops append to [abaqus_format]. *)
Definition format_rows (acc : list string) (parameters : list Row) : list string :=
  fold_left (fun acc parameter => acc ++ [(join "," parameter ++ nl)%string]) parameters acc.

Definition format_behaviors (acc : list string) (behaviors : Behaviors)
  : list string :=
  fold_left (fun acc item =>
               format_rows (acc ++ [("*" ++ fst item ++ nl)%string]) (snd item))
            behaviors acc.

Definition format_materials (materials : Hierarchy) : list string :=
  fold_left (fun acc item =>
               format_behaviors (acc ++ [("*Material, name=" ++ fst item ++ nl)%string])
                                (snd item))
            materials [].

Definition __format : M t (list string) :=
  self <- get_self ;;
  ret (format_materials (materials self)).

(** ['materials.inp'], or ['materials-<i>.inp'] for the first [i >= 1]
    that is no name of [files]. *)
Definition candidate (i : nat) : string :=
  match i with
  | O => "materials.inp"
  | S _ => ("materials-" ++ str_of_nat i ++ ".inp")%string
  end.

(** The [while filename in files] loop; [fuel] bounds the number of tests,
    and [write] gives it one more than there are names in [files]. *)
Fixpoint first_free (fuel i : nat) (files : list string) : string :=
  match fuel with
  | O => candidate i
  | S fuel' =>
      if existsb (String.eqb (candidate i)) files
      then first_free fuel' (S i) files
      else candidate i
  end.

(** [not output_file]. *)
Definition not_given (output_file : option string) : bool :=
  match output_file with
  | None => true
  | Some f => String.eqb f EmptyString
  end.

(** [output_file] when given, the default name otherwise. *)
Definition given_or (default : string) (output_file : option string) : string :=
  match output_file with
  | None => default
  | Some f => if String.eqb f EmptyString then default else f
  end.

Definition mod_name (inp_file : string) : string :=
  let (name, extension) := splitext inp_file in
  (name ++ "_mod" ++ extension)%string.

(** [write(output_file)]. *)
Definition write (output_file : option string) : M t unit :=
  self <- get_self ;;
  match materials self with
  | [] => raise (Exception "Material does not exist. Nothing to write.")
  | _ :: _ =>
      output_file <-
        (if st_read (state self) then
           text <- read_text (inp_file self) ;;
           let old := readlines text in
           let before := match st_begin (state self) with
                         | Some begin => lslice_to old begin
                         | None => old
                         end in
           end_ <- match st_end (state self) with
                   | Some e => ret e
                   | None => raise (TypeError "unsupported operand type(s) for +")
                   end ;;
           let after := lslice_from old (end_ + 1)%Z in
           lines <- __format ;;
           let new := before ++ lines ++ after in
           let output_file := given_or (mod_name (inp_file self)) output_file in
           validate_file output_file "write" ;;
           write_text output_file (concat_lines new) ;;
           ret output_file
         else
           files <- (if not_given output_file then os_listdir else ret []) ;;
           let output_file :=
             given_or (first_free (S (length files)) 0 files) output_file in
           validate_file output_file "write" ;;
           lines <- __format ;;
           write_text output_file (concat_lines lines) ;;
           ret output_file) ;;
      print ("Material database saved as `" ++ output_file ++ "`.")
  end.

(** The static method [remove(inp_file, output_file)]: it works on an
    instance of its own, [Material()]. *)
Definition remove (inp_file : string) (output_file : option string)
  : World -> res unit * World :=
  fun w =>
    let a := init false in
    match files w inp_file with
    | None => (Raise (FileNotFoundError inp_file), w)
    | Some text =>
        match read inp_file a w with
        | (Raise e, _, w') => (Raise e, w')
        | (Ok _, a, w') =>
            let old := readlines text in
            let before := match st_begin (state a) with
                          | Some begin => lslice_to old begin
                          | None => old
                          end in
            match st_end (state a) with
            | Some end_ =>
                let after := lslice_from old (end_ + 1)%Z in
                let new := before ++ after in
                let output_file := given_or (mod_name inp_file) output_file in
                match (validate_file output_file "write" ;;
                       write_text output_file (concat_lines new)) a w' with
                | (r, _, w'') => (r, w'')
                end
            | None => (Raise (TypeError "unsupported operand type(s) for +"), w')
            end
        end
    end.

(** [add_linearelastic(material, E, nu)] and [add_plastic(material,
    sigma_y, epsilon_p)].  The arguments are Python numbers and [str] is
    Python's; both are parameters here. *)
Section Behaviors.
Variable Number : Type.
Variable pystr : Number -> string.

Definition add_linearelastic (material : string) (E nu : Number) : M t unit :=
  self <- get_self ;;
  match Dict.get material (materials self) with
  | Some behaviors =>
      if Dict.mem "Elastic" behaviors then
        print ("Elastic behavior already exists for material " ++ material ++ ". "
               ++ "Remove it first to add the new one.")
      else
        set_materials
          (Dict.set material
             (Dict.set "Elastic" [[pystr E; (" " ++ pystr nu)%string]] behaviors)
             (materials self))
  | None =>
      print ("Material " ++ material ++ " does not exist. Behavior not added.")
  end.

Definition add_plastic (material : string) (sigma_y epsilon_p : Number) : M t unit :=
  self <- get_self ;;
  match Dict.get material (materials self) with
  | Some behaviors =>
      if Dict.mem "Plastic" behaviors then
        print ("Plastic behavior already exists for material " ++ material ++ ". "
               ++ "Remove it first to add the new one.")
      else
        set_materials
          (Dict.set material
             (Dict.set "Plastic" [[pystr sigma_y; (" " ++ pystr epsilon_p)%string]]
                behaviors)
             (materials self))
  | None =>
      print ("Material " ++ material ++ " does not exist. Behavior not added.")
  end.
End Behaviors.

(** [show()]. *)
Definition show : M t unit :=
  lines <- __format ;;
  print (concat_lines lines).

(** [__str__()]. *)
Definition __str__ : M t string :=
  self <- get_self ;;
  let n_material := length (materials self) in
  let display :=
    if (n_material =? 0)%nat || (n_material =? 1)%nat
    then [(str_of_nat n_material ++ " material." ++ nl)%string]
    else [(str_of_nat n_material ++ " materials." ++ nl)%string] in
  let display :=
    fold_left (fun display material_name =>
                 display ++ [("    " ++ material_name ++ nl)%string])
              (Dict.keys (materials self)) display in
  ret (concat_lines display).

End Material.

(* ================================================================== *)
(** ** class [Geometry] *)

Module Geometry.
Import PyStr.

Record State : Type := mkState {
  st_begin : option Z;
  st_end : option Z;
  st_read : bool
}.

(** [self.nodes] is a list of rows once read; the empty dictionary it
    starts as is the empty list here (only its truth value is used). *)
Record t : Type := mk {
  inp_file : string;
  state : State;
  nodes : list Row
}.

(** [Geometry()]: the constructor takes no argument. *)
Definition init : t := mk EmptyString (mkState None None false) [].

Definition set_inp_file (f : string) : M t unit :=
  fun self w => (Ok tt, mk f (state self) (nodes self), w).
Definition set_nodes (ns : list Row) : M t unit :=
  fun self w => (Ok tt, mk (inp_file self) (state self) ns, w).
Definition set_state (s : State) : M t unit :=
  fun self w => (Ok tt, mk (inp_file self) s (nodes self), w).
Definition set_state_begin (b : Z) : M t unit :=
  fun self w =>
    set_state (mkState (Some b) (st_end (state self)) (st_read (state self))) self w.
Definition set_state_end (e : Z) : M t unit :=
  fun self w =>
    set_state (mkState (st_begin (state self)) (Some e) (st_read (state self))) self w.
Definition set_state_read (r : bool) : M t unit :=
  fun self w =>
    set_state (mkState (st_begin (state self)) (st_end (state self)) r) self w.

Record Locals : Type := mkLocals {
  in_node : bool;
  l_nodes : list Row;
  l_begin : option Z;
  l_end : option Z;
  line_number : option Z
}.

Definition locals0 : Locals := mkLocals false [] None None None.

Inductive Flow : Type :=
| Next (l : Locals)
| Break (l : Locals).

(** One pass through the body of the [for] loop of [read]. *)
Definition body (n : Z) (line : string) (l : Locals) : Flow :=
  let is_generalkeyword := Re.generalkeyword line in
  let is_node := Re.node line in
  let is_comment := Re.comment line in
  let is_parameter := negb is_generalkeyword && negb is_comment in
  let is_node_param := is_parameter && in_node l in
  if is_node then
    Next (mkLocals true (l_nodes l) (Some n) (l_end l) (Some n))
  else if is_node_param then
    let params := split comma (drop_last line) in
    Next (mkLocals (in_node l) (l_nodes l ++ [params]) (l_begin l) (l_end l) (Some n))
  else if (is_generalkeyword || is_comment) && in_node l then
    Break (mkLocals (in_node l) (l_nodes l) (l_begin l) (Some (n - 1)%Z) (Some n))
  else
    Next (mkLocals (in_node l) (l_nodes l) (l_begin l) (l_end l) (Some n)).

Fixpoint loop (n : Z) (lines : list string) (l : Locals) : Locals :=
  match lines with
  | [] => l
  | line :: rest =>
      match body n line l with
      | Next l' => loop (n + 1)%Z rest l'
      | Break l' => l'
      end
  end.

(** [read(inp_file)]. *)
Definition read (inp_file : string) : M t unit :=
  self <- get_self ;;
  if st_read (state self) then
    raise (Exception ("Material database already exists. Instantiate a "
                      ++ "new Material object for another database."))
  else
    validate_file inp_file "read" ;;
    text <- read_text inp_file ;;
    let l := loop 0%Z (readlines text) locals0 in
    end_ <- match l_end l with
            | Some e => ret e
            | None => lift (Material.local "line_number" (line_number l))
            end ;;
    set_inp_file inp_file ;;
    set_nodes (l_nodes l) ;;
    begin <- lift (Material.local "begin" (l_begin l)) ;;
    set_state_begin begin ;;
    set_state_end end_ ;;
    set_state_read true.

(** [scale(factor)].  [float(text)] and [str(x)] are Python's own; they
    are parameters here: [pyfloat] is [None] where [float] raises
    [ValueError], and the product is the IEEE 754 binary64 one. *)
Section Scale.
Variable pyfloat : string -> option float.
Variable pystr : float -> string.
Variable factor : float.

(** The inner [for] over [enumerate(node[1:], 1)]: the fields already
    replaced stay replaced when a later one raises. *)
Fixpoint scale_coordinates (coordinates : list string) : list string * option exn :=
  match coordinates with
  | [] => ([], None)
  | coordinate :: rest =>
      match pyfloat coordinate with
      | None => (coordinate :: rest, Some (ValueError coordinate))
      | Some x =>
          let (rest', e) := scale_coordinates rest in
          ((" " ++ pystr (PrimFloat.mul x factor))%string :: rest', e)
      end
  end.

Definition scale_node (node : Row) : Row * option exn :=
  match node with
  | [] => ([], None)
  | ident :: coordinates =>
      let (coordinates', e) := scale_coordinates coordinates in
      (ident :: coordinates', e)
  end.

(** The outer [for node in self.nodes]. *)
Fixpoint scale_nodes (ns : list Row) : list Row * option exn :=
  match ns with
  | [] => ([], None)
  | node :: rest =>
      match scale_node node with
      | (node', Some e) => (node' :: rest, Some e)
      | (node', None) =>
          let (rest', e) := scale_nodes rest in
          (node' :: rest', e)
      end
  end.

Definition scale : M t unit :=
  self <- get_self ;;
  match nodes self with
  | [] =>
      raise (Exception
               "Geometry does not exist. Load it first with the `read` method.")
  | _ :: _ =>
      let (ns, e) := scale_nodes (nodes self) in
      set_nodes ns ;;
      match e with
      | Some e => raise e
      | None => ret tt
      end
  end.
End Scale.

(** [__format()]: the line [*NODE] and one line per node. *)
Definition format_nodes (nodes : list Row) : list string :=
  fold_left (fun acc node => acc ++ [(join "," node ++ nl)%string]) nodes
            [("*NODE" ++ nl)%string].

Definition __format : M t (list string) :=
  self <- get_self ;;
  ret (format_nodes (nodes self)).

(** [write(output_file)]. *)
Definition write (output_file : option string) : M t unit :=
  self <- get_self ;;
  match nodes self with
  | [] => raise (Exception "Material does not exist. Nothing to write.")
  | _ :: _ =>
      text <- read_text (inp_file self) ;;
      let old := readlines text in
      let before := match st_begin (state self) with
                    | Some begin => lslice_to old begin
                    | None => old
                    end in
      end_ <- match st_end (state self) with
              | Some e => ret e
              | None => raise (TypeError "unsupported operand type(s) for +")
              end ;;
      let after := lslice_from old (end_ + 1)%Z in
      lines <- __format ;;
      let new := before ++ lines ++ after in
      let output_file :=
        Material.given_or (Material.mod_name (inp_file self)) output_file in
      validate_file output_file "write" ;;
      write_text output_file (concat_lines new) ;;
      print ("Material database saved as `" ++ output_file ++ "`.")
  end.

End Geometry.

(* ================================================================== *)
(** ** [extract] *)

Module Keyword.
Import PyStr.

(** [s.lstrip()], [s.rstrip()] and [s.strip()]. *)
Fixpoint lstrip (s : string) : string :=
  match s with
  | EmptyString => EmptyString
  | String c rest => if is_space c then lstrip rest else s
  end.

Fixpoint rstrip (s : string) : string :=
  match s with
  | EmptyString => EmptyString
  | String c rest =>
      match rstrip rest with
      | EmptyString => if is_space c then EmptyString else String c EmptyString
      | rest' => String c rest'
      end
  end.

Definition strip (s : string) : string := rstrip (lstrip s).

(** [s[1:]]. *)
Definition tail (s : string) : string :=
  match s with
  | EmptyString => EmptyString
  | String _ rest => rest
  end.

(** [extract(keyword)]. *)
Definition extract (keyword : string) : list (list string) :=
  let split := PyStr.split comma (tail keyword) in
  let stripped := map strip split in
  let separated := map (PyStr.split (ascii_of_nat 61)) stripped in
  separated.

End Keyword.

(* ================================================================== *)
(** ** The vocabulary of the specification *)

Module Spec.
Import PyStr.

(** The line classes of the specification.  A material-start and a
    behavior-start line are classes of their own; they also satisfy the
    generic keyword test. *)
Definition is_material_start (line : string) : bool :=
  match Re.material line with Some _ => true | None => false end.

Definition is_behavior_start (line : string) : bool :=
  match Re.behavior line with Some _ => true | None => false end.

(** A keyword-line or comment-line that opens neither a material nor a
    behavior: the lines that can close a materials block. *)
Definition closes_materials (line : string) : bool :=
  (Re.generalkeyword line || Re.comment line)
  && negb (is_material_start line) && negb (is_behavior_start line).

(** A keyword-line or comment-line that is no node-start line: the lines
    that close a node block. *)
Definition closes_nodes (line : string) : bool :=
  (Re.generalkeyword line || Re.comment line) && negb (Re.node line).

(** The serializer in the words of the specification: one line per
    material, per behavior under it and per row, in insertion order. *)
Definition serialize_row (row : Row) : string := (join "," row ++ nl)%string.

Definition serialize_behavior (item : string * list Row) : list string :=
  ("*" ++ fst item ++ nl)%string :: map serialize_row (snd item).

Definition serialize_material (item : string * Behaviors) : list string :=
  ("*Material, name=" ++ fst item ++ nl)%string
  :: flat_map serialize_behavior (snd item).

Definition serialize (h : Hierarchy) : list string :=
  flat_map serialize_material h.

(** The serializer once more, spelled out from the specification without
    any function of the code: the fields of a row with a comma between any
    two of them and a newline behind; under a behavior its line and the
    lines of its rows; under a material its line and what its behaviors
    give; the materials one after the other. *)
Fixpoint fields_text (row : Row) : string :=
  match row with
  | [] => EmptyString
  | field :: rest =>
      match rest with
      | [] => field
      | _ :: _ => (field ++ String comma (fields_text rest))%string
      end
  end.

Fixpoint rows_lines (rows : list Row) : list string :=
  match rows with
  | [] => []
  | row :: rest => (fields_text row ++ nl)%string :: rows_lines rest
  end.

Fixpoint behaviors_lines (bs : Behaviors) : list string :=
  match bs with
  | [] => []
  | (bname, rows) :: rest =>
      ("*" ++ bname ++ nl)%string :: rows_lines rows ++ behaviors_lines rest
  end.

Fixpoint emitted (h : Hierarchy) : list string :=
  match h with
  | [] => []
  | (name, bs) :: rest =>
      ("*Material, name=" ++ name ++ nl)%string :: behaviors_lines bs ++ emitted rest
  end.

(** Node scaling in the words of the specification: field 0 stays, every
    later field becomes a blank followed by the text of its value times
    the factor. *)
Definition scaled_field (pyfloat : string -> option float) (pystr : float -> string)
           (factor : float) (field : string) : string :=
  match pyfloat field with
  | Some x => (" " ++ pystr (PrimFloat.mul x factor))%string
  | None => field
  end.

Definition scaled_row (pyfloat : string -> option float) (pystr : float -> string)
           (factor : float) (row : Row) : Row :=
  match row with
  | [] => []
  | ident :: coordinates =>
      ident :: map (scaled_field pyfloat pystr factor) coordinates
  end.

(** A row whose fields after the identifier are texts [float] accepts. *)
Definition numeric (pyfloat : string -> option float) (node : Row) : Prop :=
  Forall (fun coordinate => pyfloat coordinate <> None) (tl node).

End Spec.

(* ================================================================== *)
(** ** Well-formedness of what [read] extracts *)

Module Wf.
Import PyStr.

(** No newline inside. *)
Definition no_nl (s : string) : bool :=
  forallb_str (fun c => negb (Ascii.eqb c newline)) s.

(** No carriage return inside. *)
Definition no_cr (s : string) : bool :=
  forallb_str (fun c => negb (Ascii.eqb c cr)) s.

(** A material name as [read] captures it: written back it is captured
    again. *)
Definition name_ok (name : string) : Prop :=
  Re.material ("*Material, name=" ++ name ++ nl) = Some name
  /\ no_nl name = true.

(** A behavior name as [read] captures it. *)
Definition behavior_ok (bname : string) : Prop :=
  Re.behavior ("*" ++ bname ++ nl) = Some bname
  /\ Re.material ("*" ++ bname ++ nl) = None
  /\ no_nl bname = true.

(** A row as [read] splits it off a data line. *)
Definition row_ok (row : Row) : Prop :=
  exists s : string,
    row = split comma s /\ no_nl s = true
    /\ Re.generalkeyword (s ++ nl) = false /\ Re.comment (s ++ nl) = false.

Definition behaviors_ok (bs : Behaviors) : Prop :=
  NoDup (Dict.keys bs)
  /\ Forall (fun item => behavior_ok (fst item) /\ Forall row_ok (snd item)) bs.

Definition hierarchy_ok (h : Hierarchy) : Prop :=
  NoDup (Dict.keys h)
  /\ Forall (fun item => name_ok (fst item) /\ behaviors_ok (snd item)) h.

(** A complete line: text without newline, then the newline. *)
Definition complete (line : string) : Prop :=
  exists s : string, line = (s ++ nl)%string /\ no_nl s = true.

(** The lines of a text: all complete, the last one possibly cut short
    but not empty. *)
Fixpoint lines_ok (lines : list string) : Prop :=
  match lines with
  | [] => True
  | line :: rest =>
      match rest with
      | [] => line <> EmptyString /\ no_nl (drop_last line) = true
      | _ :: _ => complete line /\ lines_ok rest
      end
  end.

(** Once [begin] is bound the hierarchy holds a material. *)
Definition populated (l : Material.Locals) : Prop :=
  Material.l_begin l <> None -> Material.l_materials l <> [].

End Wf.

(* ================================================================== *)
(** ** The loops of [read], with the way they ended *)

Module Scan.

(** The [for] loop of [Material.read] over [lines], telling a loop that
    ran to the end of [lines] from one left by [break]. *)
Fixpoint materials (greedy : bool) (n : Z) (lines : list string)
         (l : Material.Locals) : Material.Flow :=
  match lines with
  | [] => Material.Next l
  | line :: rest =>
      match Material.body greedy n line l with
      | Material.Next l' => materials greedy (n + 1)%Z rest l'
      | other => other
      end
  end.

(** The same for [Geometry.read]. *)
Fixpoint nodes (n : Z) (lines : list string) (l : Geometry.Locals)
  : Geometry.Flow :=
  match lines with
  | [] => Geometry.Next l
  | line :: rest =>
      match Geometry.body n line l with
      | Geometry.Next l' => nodes (n + 1)%Z rest l'
      | other => other
      end
  end.

(** The value [read] stores as ['end']: the local [end] when the loop
    was left by [break], the last [line_number] otherwise. *)
Definition material_end (l : Material.Locals) : option Z :=
  match Material.l_end l with
  | Some e => Some e
  | None => Material.line_number l
  end.

Definition node_end (l : Geometry.Locals) : option Z :=
  match Geometry.l_end l with
  | Some e => Some e
  | None => Geometry.line_number l
  end.

(** The world after [validate_file(file, 'read')] let the file pass:
    a remark is printed unless the extension is [.inp]. *)
Definition remarked (file : string) (w : World) : World :=
  if String.eqb (snd (splitext file)) ".inp" then w
  else mkWorld (files w) (listdir w)
         (stdout w ++ [("File extension `" ++ snd (splitext file)
                        ++ "` is not the conventional `.inp` used by Abaqus.")%string]).

(** The world after [validate_file(file, 'write')]. *)
Definition announced (file : string) (w : World) : World :=
  let w1 := remarked file w in
  match files w file with
  | Some _ =>
      mkWorld (files w1) (listdir w1)
        (stdout w1 ++ [("File `" ++ file
                        ++ "` already exists. It will be overwritten!")%string])
  | None => w1
  end.

(** The world after [text] was written to [path]. *)
Definition written (path text : string) (w : World) : World :=
  mkWorld (fun p => if String.eqb p path then Some text else files w p)
          (listdir w) (stdout w).

(** The world after [write] printed where the database went. *)
Definition reported (path : string) (w : World) : World :=
  mkWorld (files w) (listdir w)
          (stdout w ++ [("Material database saved as `" ++ path ++ "`.")%string]).

End Scan.

(* ================================================================== *)
(** ** Statements about the block range, and the running example *)

Module Range.
Import PyStr.

(** The block range of the specification in strict mode, for the lines
    of a file: [begin] is the index of the first material-start line;
    [end_] is the index before the first closing line after it, the lines
    after which do not matter, or the index of the last line. *)
Definition strict (lines : list string) (begin end_ : Z) : Prop :=
  exists pre m rest,
    lines = pre ++ m :: rest
    /\ Forall (fun x => Spec.is_material_start x = false) pre
    /\ Spec.is_material_start m = true
    /\ begin = Z.of_nat (length pre)
    /\ ((exists blk s post,
           rest = blk ++ s :: post
           /\ Forall (fun x => Spec.closes_materials x = false) blk
           /\ Spec.closes_materials s = true
           /\ end_ = (Z.of_nat (length pre + 1 + length blk) - 1)%Z
           /\ forall post',
               Material.loop true 0 (pre ++ m :: blk ++ s :: post') Material.locals0
               = Material.loop true 0 lines Material.locals0)
        \/ (Forall (fun x => Spec.closes_materials x = false) rest
            /\ end_ = (Z.of_nat (length lines) - 1)%Z)).

(** The sentence that permissive mode ends the block as strict mode
    does: whenever a closing line [s] is met inside the block, ['end'] is
    the index before it. *)
Definition permissive_like_strict : Prop :=
  forall inp self self' w w' text pre m blk s post,
    Material.is_greedy self = false ->
    Material.read inp self w = (Ok tt, self', w') ->
    files w inp = Some text ->
    readlines text = pre ++ m :: blk ++ s :: post ->
    Forall (fun x => Spec.is_material_start x = false) pre ->
    Spec.is_material_start m = true ->
    Forall (fun x => Spec.closes_materials x = false) blk ->
    Spec.closes_materials s = true ->
    Material.st_end (Material.state self')
    = Some (Z.of_nat (length pre + 1 + length blk) - 1)%Z.


End Range.

(* ================================================================== *)
(** ** Statements about the round trip *)

Module Trip.
Import PyStr.

(** No material is named twice in the lines, and no behavior twice under
    one material; [seen_m] and [seen_b] are the names met so far. *)
Fixpoint names_once (seen_m seen_b : list string) (lines : list string) : Prop :=
  match lines with
  | [] => True
  | line :: rest =>
      match Re.material line with
      | Some name => ~ In name seen_m /\ names_once (seen_m ++ [name]) [] rest
      | None =>
          match Re.behavior line with
          | Some bname => ~ In bname seen_b /\ names_once seen_m (seen_b ++ [bname]) rest
          | None => names_once seen_m seen_b rest
          end
      end
  end.

(** What a line of a materials block says, in the serializer's spelling: a
    material-start line gives its name, a behavior-start line its name, a
    data line stands as it is, any other keyword-line or comment-line says
    nothing. *)
Definition canon (line : string) : list string :=
  match Re.material line with
  | Some name => [("*Material, name=" ++ name ++ nl)%string]
  | None =>
      match Re.behavior line with
      | Some bname => [("*" ++ bname ++ nl)%string]
      | None => if Re.generalkeyword line || Re.comment line then [] else [line]
      end
  end.

Definition meaning (blk : list string) : list string := flat_map canon blk.

(** The loop stands inside the block with [mname] the material at hand,
    the last of the hierarchy, and, once a behavior was opened under it,
    that behavior the last under it. *)
Definition open_at (l : Material.Locals) (acc : Hierarchy) (mname : string)
           (bs : Behaviors) : Prop :=
  Material.in_material l = true
  /\ Material.l_materials l = acc ++ [(mname, bs)]
  /\ Material.material_name l = Some mname
  /\ ~ In mname (Dict.keys acc)
  /\ (bs = []
      \/ exists bacc bname rows,
          bs = bacc ++ [(bname, rows)]
          /\ Material.behavior_name l = Some bname
          /\ ~ In bname (Dict.keys bacc)).

(** The sentence of the round trip as it stands.  [pre], [blk] and [post]
    are the lines before the block, of the block and after it; the lines of
    a file byte for byte are its content cut after every line feed. *)
Definition byte_identical : Prop :=
  forall inp output_file self self1 w w1 text pre blk post,
    files w inp = Some text ->
    Material.read inp self w = (Ok tt, self1, w1) ->
    Material.st_begin (Material.state self1) = Some (Z.of_nat (length pre)) ->
    Material.st_end (Material.state self1)
    = Some (Z.of_nat (length pre + length blk) - 1)%Z ->
    readlines text = pre ++ blk ++ post ->
    Forall Wf.complete blk ->
    names_once [] [] blk ->
    exists w2 newtext,
      Material.write output_file self1 w1 = (Ok tt, self1, w2)
      /\ files w2 (Material.given_or (Material.mod_name inp) output_file)
         = Some newtext
      /\ Spec.serialize (Material.materials self1) = meaning blk
      /\ firstn (length pre) (cut_lines newtext)
         = firstn (length pre) (cut_lines text)
      /\ skipn (length pre + length (meaning blk)) (cut_lines newtext)
         = skipn (length pre + length blk) (cut_lines text).

End Trip.

Module Example.
Import PyStr.

(** The five lines of the specification's example. *)
Definition lines : list string :=
  [ ("*Material, name=A" ++ nl)%string;
    ("*Elastic" ++ nl)%string;
    ("1,0.3" ++ nl)%string;
    ("*Step" ++ nl)%string;
    ("..." ++ nl)%string ].

Definition text : string := concat_lines lines.

(** A file without any material. *)
Definition step_text : string := ("*Step" ++ nl ++ "*End Step" ++ nl)%string.

(** A file with two node blocks in a row. *)
Definition node_lines : list string :=
  [ ("*Heading" ++ nl)%string;
    ("*Node" ++ nl)%string;
    ("1,1.0,2.0" ++ nl)%string;
    ("2,3.0,4.0" ++ nl)%string;
    ("*Element, type=CPS4" ++ nl)%string;
    ("1,1,2,3,4" ++ nl)%string ].

Definition node_text : string := concat_lines node_lines.

Definition world : World :=
  mkWorld
    (fun p =>
       if String.eqb p "job.inp" then Some text
       else if String.eqb p "step.inp" then Some step_text
       else if String.eqb p "mesh.inp" then Some node_text
       else None)
    [] [].

(** The example behind a heading line and before a second step line. *)
Definition deck_lines : list string :=
  [ ("*Heading" ++ nl)%string;
    ("*Material, name=A" ++ nl)%string;
    ("*Elastic" ++ nl)%string;
    ("1,0.3" ++ nl)%string;
    ("*Step" ++ nl)%string;
    ("*End Step" ++ nl)%string ].

Definition deck_text : string := concat_lines deck_lines.

Definition deck_world : World :=
  mkWorld (fun p => if String.eqb p "deck.inp" then Some deck_text else None)
          [] [].

(** A hierarchy of two materials, the second without behaviors, and the
    lines it is written as. *)
Definition steel_foam : Hierarchy :=
  [("Steel", [("Elastic", [["210000"; " 0.3"]]);
              ("Plastic", [["250"; " 0"]; ["300"; " 0.1"]])]);
   ("Foam", [])]%string.

Definition steel_foam_lines : list string :=
  [ ("*Material, name=Steel" ++ nl)%string;
    ("*Elastic" ++ nl)%string;
    ("210000, 0.3" ++ nl)%string;
    ("*Plastic" ++ nl)%string;
    ("250, 0" ++ nl)%string;
    ("300, 0.1" ++ nl)%string;
    ("*Material, name=Foam" ++ nl)%string ].

(** An instance that read [deck.inp] in strict mode and whose hierarchy
    was replaced afterwards. *)
Definition edited_deck : Material.t :=
  Material.mk "deck.inp" (Material.mkState (Some 1%Z) (Some 3%Z) true)
    steel_foam true.

(** A file whose lines end with carriage return and line feed, its
    material-start line in capitals. *)
Definition crlf : string := String cr nl.

Definition crlf_text : string :=
  ("*Heading" ++ crlf ++ "*MATERIAL, NAME=A" ++ crlf ++ "*Elastic" ++ crlf
   ++ "1,0.3" ++ crlf ++ "*Step" ++ crlf)%string.

Definition crlf_world : World :=
  mkWorld (fun p => if String.eqb p "win.inp" then Some crlf_text else None)
          [] [].

(** The instance after [win.inp] was read in strict mode. *)
Definition read_crlf : Material.t :=
  Material.mk "win.inp" (Material.mkState (Some 1%Z) (Some 3%Z) true)
    [("A", [("Elastic", [["1"; "0.3"]])])]%string true.

(** The hierarchy of the example. *)
Definition hierarchy : Hierarchy := [("A", [("Elastic", [["1"; "0.3"]])])]%string.

(** The instance after the example was read in strict mode, and after it
    was read in permissive mode. *)
Definition read_strict : Material.t :=
  Material.mk "job.inp" (Material.mkState (Some 0%Z) (Some 2%Z) true) hierarchy true.

Definition read_permissive : Material.t :=
  Material.mk "job.inp" (Material.mkState (Some 0%Z) (Some 4%Z) true)
    [("A", [("Elastic", [["1"; "0.3"]; ["..."]])])]%string false.

End Example.

(* ================================================================== *)
(** ** A fragment of Python's [float] and [str] *)

(** Python's own [float(text)] and [str(x)] are parameters of
    [Geometry.scale].  The two functions below agree with them on plain
    decimal texts of at most fifteen digits and on whole numbers below
    10^16; they serve to run the example.  Outside that fragment they give
    up ([None], the empty text), which Python does not. *)
Module PyFloat.
Import PyStr.

Fixpoint digits_value (s : string) (acc : Z) : option Z :=
  match s with
  | EmptyString => Some acc
  | String c rest =>
      if in_range 48 57 c
      then digits_value rest (10 * acc + (Z.of_nat (nat_of_ascii c) - 48))%Z
      else None
  end.

Definition of_Z (z : Z) : float := PrimFloat.of_uint63 (Uint63.of_Z z).

(** [float(text)] for [text] of the form digits, digits [.] digits, digits
    [.] or [.] digits: both the digits taken as a whole number and the power
    of ten are exact, so the quotient is the correctly rounded value. *)
Definition float_of_decimal (text : string) : option float :=
  match split (ascii_of_nat 46) text with
  | [whole] =>
      match whole, digits_value whole 0 with
      | String _ _, Some m =>
          if (String.length whole <=? 15)%nat then Some (of_Z m) else None
      | _, _ => None
      end
  | [whole; fraction] =>
      match (whole ++ fraction)%string, digits_value (whole ++ fraction) 0 with
      | String _ _, Some m =>
          if (String.length (whole ++ fraction) <=? 15)%nat
          then Some (PrimFloat.div (of_Z m)
                       (of_Z (10 ^ Z.of_nat (String.length fraction))))
          else None
      | _, _ => None
      end
  | _ => None
  end.

(** [str(x)] for a whole number [x] below 10^16: its digits and [.0]. *)
Definition str_of_whole (x : float) : string :=
  match FloatOps.Prim2SF x with
  | SpecFloat.S754_zero false => "0.0"
  | SpecFloat.S754_zero true => "-0.0"
  | SpecFloat.S754_finite s m e =>
      let sign := if s then "-" else EmptyString in
      let shown (z : Z) : string :=
        if (z <? 10 ^ 16)%Z
        then (sign ++ str_of_nat (Z.to_nat z) ++ ".0")%string
        else EmptyString in
      if (0 <=? e)%Z then shown (Zpos m * 2 ^ e)%Z
      else if (Zpos m mod 2 ^ (- e) =? 0)%Z then shown (Zpos m / 2 ^ (- e))%Z
           else EmptyString
  | _ => EmptyString
  end.

End PyFloat.

(* ================================================================== *)
(** ** Further vocabulary *)

Module More.
Import PyStr.

(** The world after [print(msg)]. *)
Definition printed (msg : string) (w : World) : World :=
  mkWorld (files w) (listdir w) (stdout w ++ [msg]).

(** A text with no comma, no newline and no star: the text of a number. *)
Definition plain (t : string) : bool :=
  forallb_str (fun c => negb (Ascii.eqb c comma) && negb (Ascii.eqb c newline)
                        && negb (Ascii.eqb c star)) t.

(** No occurrence of the character [sep]. *)
Definition free_of (sep : ascii) (t : string) : bool :=
  forallb_str (fun c => negb (Ascii.eqb c sep)) t.

(** The number of occurrences of [sep]. *)
Fixpoint count (sep : ascii) (t : string) : nat :=
  match t with
  | EmptyString => O
  | String c rest => (if Ascii.eqb c sep then 1 else 0) + count sep rest
  end.

(** The row a data line gives. *)
Definition row_of_line (line : string) : Row := split comma (drop_last line).

(** The serialized node block. *)
Definition serialize_nodes (nodes : list Row) : list string :=
  ("*NODE" ++ nl)%string :: map Spec.serialize_row nodes.

(** A row as [Geometry.read] splits it off a data line of the node block. *)
Definition node_row_ok (row : Row) : Prop :=
  exists s : string,
    row = split comma s /\ Wf.no_nl s = true
    /\ Re.generalkeyword (s ++ nl) = false /\ Re.comment (s ++ nl) = false.

(** [float(text)] on the fragment of [PyFloat], blanks around the text
    being dropped first as Python does. *)
Definition float_of_text (text : string) : option float :=
  PyFloat.float_of_decimal (Keyword.strip text).

(** Decimal digits. *)
Definition is_digit (c : ascii) : bool := in_range 48 57 c.

(** The instance after a method ran. *)
Definition after {S A : Type} (m : M S A) (self : S) (w : World) : S :=
  snd (fst (m self w)).

(** The name [write] gives the file of a database built by hand. *)
Definition manual_target (output_file : option string) (w : World) : string :=
  let names := if Material.not_given output_file then listdir w else [] in
  Material.given_or (Material.first_free (S (length names)) 0 names) output_file.

(** Material names made of word characters and hyphens. *)
Definition name_like (name : string) : Prop :=
  name <> EmptyString /\ forallb_str Re.name_char name = true.

(** A field as [split] leaves it: no comma, no newline. *)
Definition field_ok (f : string) : Prop :=
  free_of comma f = true /\ Wf.no_nl f = true.

(** A hierarchy as a user sees it after [read]: unique material names,
    unique behavior names under each material, rows with at least one
    field, and no comma or newline inside a field. *)
Definition hierarchy_plain (h : Hierarchy) : Prop :=
  NoDup (Dict.keys h)
  /\ Forall (fun item =>
               NoDup (Dict.keys (snd item))
               /\ Forall (fun beh =>
                            Forall (fun row => row <> [] /\ Forall field_ok row)
                                   (snd beh))
                         (snd item)) h.

(** The index of the last node-start line among [lines], which begin at
    index [n]; [cur] when there is none. *)
Fixpoint last_begin (n : Z) (lines : list string) (cur : option Z) : option Z :=
  match lines with
  | [] => cur
  | x :: rest => last_begin (n + 1)%Z rest (if Re.node x then Some n else cur)
  end.

(** The data lines among the lines of a node block. *)
Definition data_lines (blk : list string) : list string :=
  filter (fun x => negb (Re.node x)) blk.

(** A hierarchy whose material names satisfy [Pn], whose behavior names
    satisfy [Pb] and whose rows satisfy [Pr]. *)
Definition each (Pn Pb : string -> Prop) (Pr : Row -> Prop) (h : Hierarchy) : Prop :=
  Forall (fun item =>
            Pn (fst item)
            /\ Forall (fun beh => Pb (fst beh) /\ Forall Pr (snd beh)) (snd item)) h.

(** What a line can put into the hierarchy satisfies [Pn], [Pb], [Pr]: the
    material name it gives, the behavior name it gives, the row it gives
    as a data line. *)
Definition line_gives (Pn Pb : string -> Prop) (Pr : Row -> Prop) (line : string)
  : Prop :=
  (forall name, Re.material line = Some name -> Pn name)
  /\ (forall bname, Re.behavior line = Some bname -> Pb bname)
  /\ (Re.generalkeyword line = false -> Re.comment line = false ->
      Pr (split comma (drop_last line))).

(** No carriage return in any name or field of a hierarchy. *)
Definition cr_free (h : Hierarchy) : Prop :=
  each (fun name => Wf.no_cr name = true) (fun bname => Wf.no_cr bname = true)
       (Forall (fun field => Wf.no_cr field = true)) h.

(** The equals sign. *)
Definition equals : ascii := ascii_of_nat 61.

(** A keyword line put together from its items, each a list of parts: the
    parts joined with [=], the items with a comma and a blank, behind the
    first character [c]. *)
Definition keyword_text (c : ascii) (items : list (list string)) : string :=
  String c (join ", " (map (join "=") items)).

(** An item [extract] gives back as it was: at least one part, no comma and
    no equals sign inside a part, no blank at either end of the item. *)
Definition item_ok (item : list string) : Prop :=
  item <> []
  /\ Forall (fun t => free_of comma t = true /\ free_of equals t = true) item
  /\ Keyword.strip (join "=" item) = join "=" item.

(** A coordinate after two scalings, by [f] and then by [g]. *)
Definition twice_field (pyfloat : string -> option float) (pystr : float -> string)
           (f g : float) (field : string) : string :=
  match pyfloat field with
  | Some x => (" " ++ pystr (PrimFloat.mul (PrimFloat.mul x f) g))%string
  | None => field
  end.

Definition twice_row (pyfloat : string -> option float) (pystr : float -> string)
           (f g : float) (row : Row) : Row :=
  match row with
  | [] => []
  | ident :: coordinates => ident :: map (twice_field pyfloat pystr f g) coordinates
  end.

(** The coordinates of a row are numbers, and [float] reads the text that
    [scale] stores for each of them back as the product it printed. *)
Definition reads_back (pyfloat : string -> option float) (pystr : float -> string)
           (f : float) (row : Row) : Prop :=
  Forall (fun coordinate =>
            exists x, pyfloat coordinate = Some x
                      /\ pyfloat (" " ++ pystr (PrimFloat.mul x f))%string
                         = Some (PrimFloat.mul x f))
         (tl row).

(** A mesh file whose node block has two node-start lines. *)
Definition two_first : string := ("*Node" ++ PyStr.nl)%string.
Definition two_row1 : string := ("1,0.,0." ++ PyStr.nl)%string.
Definition two_second : string := ("*NODE, NSET=B" ++ PyStr.nl)%string.
Definition two_row2 : string := ("2,1.,0." ++ PyStr.nl)%string.
Definition two_close : string := ("*Element" ++ PyStr.nl)%string.

Definition two_text : string :=
  (two_first ++ two_row1 ++ two_second ++ two_row2 ++ two_close)%string.

Definition two_world : World :=
  mkWorld (fun p => if String.eqb p "two.inp" then Some two_text else None)
          [] [].

End More.

(* ================================================================== *)
(** ** Facts about characters and strings *)

Module StrFacts.
Import PyStr.

Ltac all_chars c :=
  destruct c as [[] [] [] [] [] [] [] []]; vm_compute; try reflexivity;
  try discriminate; auto.

Lemma word_lower (c : ascii) : is_word (lower c) = is_word c.
Proof. all_chars c. Qed.

Lemma word_not_newline (c : ascii) :
  is_word c = true -> Ascii.eqb c newline = false.
Proof. all_chars c. Qed.

Lemma name_char_not_newline (c : ascii) :
  Re.name_char c = true -> Ascii.eqb c newline = false.
Proof. all_chars c. Qed.

Lemma lower_star (c : ascii) :
  Ascii.eqb (lower c) (lower star) = true -> c = star.
Proof. all_chars c. Qed.

Lemma nocase_word (c p : ascii) :
  is_word p = true -> Ascii.eqb (lower c) (lower p) = true -> is_word c = true.
Proof.
  intros Hp H. apply Ascii.eqb_eq in H.
  rewrite <- word_lower, H, word_lower. exact Hp.
Qed.

Lemma append_nil_r (s : string) : (s ++ "")%string = s.
Proof. induction s; simpl; congruence. Qed.

Lemma append_assoc (a b c : string) :
  ((a ++ b) ++ c)%string = (a ++ (b ++ c))%string.
Proof. induction a; simpl; congruence. Qed.

Lemma drop_last_nl (s : string) : drop_last (s ++ nl) = s.
Proof.
  induction s as [|c s IH]; [reflexivity|].
  simpl. rewrite IH. destruct s; reflexivity.
Qed.

Lemma split_not_nil (sep : ascii) (s : string) : split sep s <> [].
Proof.
  destruct s as [|c s]; simpl; [discriminate|].
  destruct (Ascii.eqb c sep); [discriminate|].
  destruct (split sep s); discriminate.
Qed.

Lemma join_cons (f : string) (fs : list string) :
  fs <> [] -> join "," (f :: fs) = (f ++ "," ++ join "," fs)%string.
Proof. destruct fs; [congruence|reflexivity]. Qed.

(** Joining what [split] returned gives the text back. *)
Lemma join_split (s : string) : join "," (split comma s) = s.
Proof.
  induction s as [|c s IH]; [reflexivity|].
  simpl. destruct (Ascii.eqb c comma) eqn:E.
  - apply Ascii.eqb_eq in E. subst c.
    rewrite join_cons by apply split_not_nil. rewrite IH. reflexivity.
  - pose proof (split_not_nil comma s) as Hne.
    destruct (split comma s) as [|f fs]; [congruence|].
    destruct fs as [|g fs].
    + simpl in *. congruence.
    + rewrite join_cons by discriminate.
      rewrite join_cons in IH by discriminate.
      simpl. simpl in IH. congruence.
Qed.

Lemma take_while_all (p : ascii -> bool) (s : string) :
  forallb_str p (take_while p s) = true.
Proof.
  induction s as [|c s IH]; [reflexivity|].
  simpl. destruct (p c) eqn:E; [simpl; rewrite E; exact IH|reflexivity].
Qed.

Lemma take_while_stop (p : ascii -> bool) (s : string) (c : ascii) (r : string) :
  forallb_str p s = true -> p c = false ->
  take_while p (s ++ String c r) = s.
Proof.
  intros Hs Hc. induction s as [|d s IH]; simpl in *.
  - rewrite Hc. reflexivity.
  - apply andb_true_iff in Hs as [Hd Hs]. rewrite Hd, IH by exact Hs. reflexivity.
Qed.

Lemma forallb_str_impl (p q : ascii -> bool) (s : string) :
  (forall c, p c = true -> q c = true) ->
  forallb_str p s = true -> forallb_str q s = true.
Proof.
  intros Hpq. induction s as [|c s IH]; simpl; [auto|].
  intros H. apply andb_true_iff in H as [Hc Hs].
  rewrite (Hpq _ Hc), IH by exact Hs. reflexivity.
Qed.

Lemma no_nl_app (a b : string) :
  Wf.no_nl (a ++ b) = Wf.no_nl a && Wf.no_nl b.
Proof.
  unfold Wf.no_nl. induction a as [|c a IH]; simpl; [reflexivity|].
  rewrite IH. apply andb_assoc.
Qed.

Lemma no_nl_drop_last (s : string) :
  Wf.no_nl s = true -> Wf.no_nl (drop_last s) = true.
Proof.
  unfold Wf.no_nl. induction s as [|c s IH]; [reflexivity|].
  simpl. intros H. apply andb_true_iff in H as [Hc Hs].
  destruct s as [|d s]; [reflexivity|].
  specialize (IH Hs).
  change (drop_last (String c (String d s))) with (String c (drop_last (String d s))).
  remember (drop_last (String d s)) as t.
  simpl. rewrite Hc, IH. reflexivity.
Qed.

End StrFacts.

(* ================================================================== *)
(** ** Facts about the line classifier *)

Module ReFacts.
Import PyStr StrFacts.

(** The family patterns are stricter than the generic keyword one. *)
Lemma material_keyword (line name : string) :
  Re.material line = Some name -> Re.generalkeyword line = true.
Proof.
  unfold Re.material.
  destruct (Re.match_nocase "*material, name=" line) eqn:E; [|discriminate].
  intros _. destruct line as [|c0 [|c1 rest]]; simpl in E; try discriminate.
  - destruct (Ascii.eqb (lower c0) _); discriminate.
  - destruct (Ascii.eqb (lower c0) _) eqn:E0; [|discriminate].
    destruct (Ascii.eqb (lower c1) _) eqn:E1; [|discriminate].
    apply lower_star in E0. subst c0.
    apply (nocase_word c1 "m" eq_refl) in E1.
    unfold Re.generalkeyword. rewrite E1. reflexivity.
Qed.

Lemma behavior_keyword (line bname : string) :
  Re.behavior line = Some bname -> Re.generalkeyword line = true.
Proof.
  unfold Re.behavior. destruct line as [|c0 rest]; [discriminate|].
  destruct (Ascii.eqb c0 star) eqn:E0; [|discriminate].
  intros H. unfold Re.generalkeyword. rewrite E0.
  destruct rest as [|c1 rest]; [discriminate|].
  assert (Hw : is_word c1 = true).
  { simpl in H.
    destruct (Ascii.eqb (lower c1) (lower "p")) eqn:Ep.
    - exact (nocase_word c1 "p" eq_refl Ep).
    - destruct (Ascii.eqb (lower c1) (lower "e")) eqn:Ee; [|discriminate].
      exact (nocase_word c1 "e" eq_refl Ee). }
  rewrite Hw. reflexivity.
Qed.

Lemma keyword_not_comment (line : string) :
  Re.generalkeyword line = true -> Re.comment line = false.
Proof.
  unfold Re.generalkeyword, Re.comment.
  destruct line as [|c0 [|c1 rest]]; try discriminate.
  intros H. apply andb_true_iff in H as [H0 H1].
  apply Ascii.eqb_eq in H0. subst c0.
  change (is_space star) with false. rewrite andb_false_l, orb_false_r.
  change (Ascii.eqb star star) with true. rewrite andb_true_l.
  destruct (Ascii.eqb c1 star) eqn:E1; [|reflexivity].
  apply Ascii.eqb_eq in E1. subst c1. exfalso.
  change (is_word star) with false in H1. change (is_space star) with false in H1.
  discriminate.
Qed.

(** Cutting the last character of a line and putting a newline instead
    makes neither a keyword nor a comment out of it. *)
Lemma keyword_rewritten (line : string) :
  Re.generalkeyword (drop_last line ++ nl) = true -> Re.generalkeyword line = true.
Proof.
  destruct line as [|c0 [|c1 [|c2 [|c3 rest]]]]; try (vm_compute; discriminate).
  - unfold Re.generalkeyword. simpl. intros H.
    destruct (Ascii.eqb c0 star); [|discriminate]. discriminate.
  - unfold Re.generalkeyword. simpl. intros H.
    destruct (Ascii.eqb c0 star); [|discriminate]. simpl in *.
    change (is_word newline) with false in H. rewrite andb_false_r, orb_false_r in H.
    rewrite H. reflexivity.
  - unfold Re.generalkeyword.
    change (drop_last (String c0 (String c1 (String c2 (String c3 rest)))))
      with (String c0 (String c1 (String c2 (drop_last (String c3 rest))))).
    simpl. auto.
Qed.

Lemma comment_rewritten (line : string) :
  Re.comment (drop_last line ++ nl) = true -> Re.comment line = true.
Proof.
  destruct line as [|c0 [|c1 [|c2 [|c3 rest]]]]; try (vm_compute; discriminate).
  - unfold Re.comment. simpl. intros H.
    change (Ascii.eqb newline star) with false in H.
    rewrite !andb_false_r in H. discriminate.
  - unfold Re.comment. simpl. intros H.
    change (Ascii.eqb newline star) with false in H.
    rewrite andb_false_r, orb_false_r in H. rewrite H. reflexivity.
  - unfold Re.comment.
    change (drop_last (String c0 (String c1 (String c2 (String c3 rest)))))
      with (String c0 (String c1 (String c2 (drop_last (String c3 rest))))).
    simpl. auto.
Qed.

(** What [read] captures can be written and captured again. *)
Lemma name_ok_captured (line name : string) :
  Re.material line = Some name -> Wf.name_ok name.
Proof.
  unfold Re.material.
  destruct (Re.match_nocase "*material, name=" line) as [rest|]; [|discriminate].
  pose proof (take_while_all Re.name_char rest) as Hall.
  destruct (take_while Re.name_char rest) as [|c name'] eqn:E; [discriminate|].
  intros H. injection H as <-. split.
  - unfold Re.material.
    change (Re.match_nocase "*material, name="
              ("*Material, name=" ++ String c name' ++ nl))
      with (Some (String c name' ++ nl)%string).
    unfold nl. rewrite take_while_stop; [reflexivity|exact Hall|reflexivity].
  - unfold Wf.no_nl. apply (forallb_str_impl Re.name_char); [|exact Hall].
    intros d Hd. rewrite (name_char_not_newline d Hd). reflexivity.
Qed.

Lemma substring_all (p r : string) :
  substring 0 (String.length p) (p ++ r) = p.
Proof. induction p as [|c p IH]; simpl; [destruct r; reflexivity|congruence]. Qed.

(** A successful case-blind match consumes a prefix as long as the
    pattern, made of characters that match it. *)
Lemma match_nocase_inv (pat s r : string) :
  Re.match_nocase pat s = Some r ->
  exists p : string,
    s = (p ++ r)%string /\ String.length p = String.length pat
    /\ forall r' : string, Re.match_nocase pat (p ++ r') = Some r'.
Proof.
  revert s. induction pat as [|a pat IH]; simpl; intros s H.
  - injection H as <-. exists EmptyString. auto.
  - destruct s as [|c s]; [discriminate|].
    destruct (Ascii.eqb (lower c) (lower a)) eqn:E; [|discriminate].
    destruct (IH _ H) as (p & -> & Hlen & Hp).
    exists (String c p). simpl. rewrite E. auto.
Qed.

Lemma match_nocase_word (pat p : string) :
  forallb_str is_word pat = true ->
  Re.match_nocase pat p = Some EmptyString -> forallb_str is_word p = true.
Proof.
  revert p. induction pat as [|a pat IH]; simpl; intros p Hw H.
  - injection H as ->. reflexivity.
  - destruct p as [|c p]; [discriminate|].
    apply andb_true_iff in Hw as [Ha Hw].
    destruct (Ascii.eqb (lower c) (lower a)) eqn:E; [|discriminate].
    simpl. rewrite (nocase_word c a Ha E), (IH p Hw H). reflexivity.
Qed.

Lemma behavior_star (rest : string) :
  Re.behavior (String "*" rest) =
  match Re.match_nocase "plastic" rest with
  | Some _ => Some (substring 0 7 rest)
  | None =>
      match Re.match_nocase "elastic" rest with
      | Some _ => Some (substring 0 7 rest)
      | None => None
      end
  end.
Proof. reflexivity. Qed.

Lemma behavior_ok_captured (line bname : string) :
  Re.behavior line = Some bname -> Wf.behavior_ok bname.
Proof.
  unfold Re.behavior. destruct line as [|c0 rest]; [discriminate|].
  destruct (Ascii.eqb c0 star); [|discriminate].
  intros H.
  assert (Hm : exists pat p r,
             (pat = "plastic" \/ pat = "elastic")%string
             /\ rest = (p ++ r)%string /\ String.length p = 7
             /\ (forall r', Re.match_nocase pat (p ++ r') = Some r')
             /\ bname = substring 0 7 rest).
  { destruct (Re.match_nocase "plastic" rest) as [r|] eqn:Ep.
    - injection H as <-. destruct (match_nocase_inv _ _ _ Ep) as (p & Hs & Hl & Hp).
      exists "plastic"%string, p, r. auto.
    - destruct (Re.match_nocase "elastic" rest) as [r|] eqn:Ee; [|discriminate].
      injection H as <-. destruct (match_nocase_inv _ _ _ Ee) as (p & Hs & Hl & Hp).
      exists "elastic"%string, p, r. auto. }
  destruct Hm as (pat & p & r & Hpat & -> & Hlen & Hp & ->).
  rewrite <- Hlen, substring_all.
  assert (Hword : forallb_str is_word p = true).
  { apply (match_nocase_word pat).
    - destruct Hpat as [-> | ->]; reflexivity.
    - rewrite <- (append_nil_r p) at 1. apply Hp. }
  repeat split.
  - change ("*" ++ p ++ nl)%string with (String "*" (p ++ nl)).
    rewrite behavior_star.
    assert (Hsub : substring 0 7 (p ++ nl) = p) by (rewrite <- Hlen; apply substring_all).
    rewrite Hsub.
    destruct (Re.match_nocase "plastic" (p ++ nl)) eqn:E1; [reflexivity|].
    destruct Hpat as [-> | ->]; [rewrite Hp in E1; discriminate|].
    rewrite Hp. reflexivity.
  - destruct p as [|c1 p]; [discriminate|].
    unfold Re.material.
    change ("*" ++ String c1 p ++ nl)%string with (String "*" (String c1 (p ++ nl))).
    assert (Hc1 : lower c1 = "p"%char \/ lower c1 = "e"%char).
    { destruct Hpat as [-> | ->]; specialize (Hp EmptyString); simpl in Hp.
      - destruct (Ascii.eqb (lower c1) (lower "p")) eqn:E; [|discriminate].
        apply Ascii.eqb_eq in E. auto.
      - destruct (Ascii.eqb (lower c1) (lower "e")) eqn:E; [|discriminate].
        apply Ascii.eqb_eq in E. auto. }
    simpl. destruct Hc1 as [-> | ->]; reflexivity.
  - unfold Wf.no_nl. apply (forallb_str_impl is_word); [|exact Hword].
    intros d Hd. rewrite (word_not_newline d Hd). reflexivity.
Qed.

Lemma row_ok_split (line : string) :
  Wf.no_nl (drop_last line) = true ->
  Re.generalkeyword line = false -> Re.comment line = false ->
  Wf.row_ok (split comma (drop_last line)).
Proof.
  intros Hnl Hk Hc. exists (drop_last line). repeat split; [exact Hnl| |].
  - destruct (Re.generalkeyword (drop_last line ++ nl)) eqn:E; [|reflexivity].
    apply keyword_rewritten in E. congruence.
  - destruct (Re.comment (drop_last line ++ nl)) eqn:E; [|reflexivity].
    apply comment_rewritten in E. congruence.
Qed.

End ReFacts.

(* ================================================================== *)
(** ** Facts about dictionaries *)

Module DictFacts.

Section Facts.
Context {V : Type}.
Implicit Types (d acc : Dict.t V) (k : string) (v : V).

Lemma get_in k d v : Dict.get k d = Some v -> In (k, v) d.
Proof.
  induction d as [|[k' v'] d IH]; simpl; [discriminate|].
  destruct (String.eqb k' k) eqn:E.
  - apply String.eqb_eq in E. subst k'. intros H. injection H as ->. auto.
  - auto.
Qed.

Lemma get_none k d : ~ In k (Dict.keys d) -> Dict.get k d = None.
Proof.
  induction d as [|[k' v'] d IH]; simpl; [reflexivity|].
  intros H. destruct (String.eqb k' k) eqn:E.
  - apply String.eqb_eq in E. tauto.
  - apply IH. tauto.
Qed.

Lemma get_last k acc v :
  ~ In k (Dict.keys acc) -> Dict.get k (acc ++ [(k, v)]) = Some v.
Proof.
  induction acc as [|[k' v'] acc IH]; simpl; intros H.
  - rewrite String.eqb_refl. reflexivity.
  - destruct (String.eqb k' k) eqn:E.
    + apply String.eqb_eq in E. tauto.
    + apply IH. tauto.
Qed.

Lemma set_last k acc v v' :
  ~ In k (Dict.keys acc) ->
  Dict.set k v' (acc ++ [(k, v)]) = acc ++ [(k, v')].
Proof.
  induction acc as [|[k' v''] acc IH]; simpl; intros H.
  - rewrite String.eqb_refl. reflexivity.
  - destruct (String.eqb k' k) eqn:E.
    + apply String.eqb_eq in E. tauto.
    + rewrite IH by tauto. reflexivity.
Qed.

Lemma set_new k acc v :
  ~ In k (Dict.keys acc) -> Dict.set k v acc = acc ++ [(k, v)].
Proof.
  induction acc as [|[k' v''] acc IH]; simpl; intros H; [reflexivity|].
  destruct (String.eqb k' k) eqn:E.
  - apply String.eqb_eq in E. tauto.
  - rewrite IH by tauto. reflexivity.
Qed.

Lemma keys_app d1 d2 : Dict.keys (d1 ++ d2) = Dict.keys d1 ++ Dict.keys d2.
Proof. apply map_app. Qed.

(** Assignment keeps the keys, or adds the new one at the end. *)
Lemma keys_set k v d :
  Dict.keys (Dict.set k v d) = Dict.keys d
  \/ (~ In k (Dict.keys d) /\ Dict.keys (Dict.set k v d) = Dict.keys d ++ [k]).
Proof.
  induction d as [|[k' v'] d IH]; simpl.
  - right. auto.
  - destruct (String.eqb k' k) eqn:E.
    + apply String.eqb_eq in E. subst k'. left. reflexivity.
    + apply String.eqb_neq in E.
      destruct IH as [IH | [Hn IH]]; simpl; rewrite IH.
      * left. reflexivity.
      * right. split; [|reflexivity]. intros [H | H]; auto.
Qed.

Lemma nodup_set k v d : NoDup (Dict.keys d) -> NoDup (Dict.keys (Dict.set k v d)).
Proof.
  intros H. destruct (keys_set k v d) as [-> | [Hn ->]]; [exact H|].
  apply NoDup_app; [exact H | repeat constructor; simpl; tauto |].
  intros x Hx [<- | []]. contradiction.
Qed.

Lemma forall_set (P : string * V -> Prop) k v d :
  Forall P d -> P (k, v) -> Forall P (Dict.set k v d).
Proof.
  intros Hd Hk. induction d as [|[k' v'] d IH]; simpl.
  - auto.
  - inversion Hd; subst. destruct (String.eqb k' k); auto.
Qed.

End Facts.

End DictFacts.

(* ================================================================== *)
(** ** The loop of [Material.read] *)

Module ScanFacts.
Import PyStr Material.

Lemma loop_scan (g : bool) (lines : list string) :
  forall n l,
    loop g n lines l =
    match Scan.materials g n lines l with
    | Next l' | Break l' => Ok l'
    | Crash e => Raise e
    end.
Proof.
  induction lines as [|line rest IH]; intros n l; simpl; [reflexivity|].
  destruct (body g n line l); auto.
Qed.

Lemma scan_app (g : bool) (l1 l2 : list string) :
  forall n l,
    Scan.materials g n (l1 ++ l2) l =
    match Scan.materials g n l1 l with
    | Next l' => Scan.materials g (n + Z.of_nat (length l1))%Z l2 l'
    | other => other
    end.
Proof.
  induction l1 as [|line rest IH]; intros n l.
  - simpl. rewrite Z.add_0_r. reflexivity.
  - cbn [app Scan.materials length]. destruct (body g n line l); auto.
    rewrite IH. replace (n + 1 + Z.of_nat (length rest))%Z
      with (n + Z.of_nat (S (length rest)))%Z by lia.
    reflexivity.
Qed.

(** Breaks the body of the loop down to its branches. *)
Ltac body_cases :=
  unfold body, local, subscript in *;
  repeat match goal with
         | H : context [match ?x with _ => _ end] |- _ =>
             destruct x eqn:?; try discriminate
         | H : context [if ?x then _ else _] |- _ =>
             destruct x eqn:?; try discriminate
         end.

(** What one pass that goes on to the next line leaves behind. *)
Lemma body_next (g : bool) (n : Z) (line : string) (l l' : Locals) :
  body g n line l = Next l' ->
  line_number l' = Some n /\ l_end l' = l_end l
  /\ (in_material l = true -> in_material l' = true /\ l_begin l' = l_begin l).
Proof.
  intros H. body_cases; injection H as <-; simpl; repeat split; auto; congruence.
Qed.

(** Only a line that closes the block, met inside it in strict mode,
    leaves the loop. *)
Lemma body_break (g : bool) (n : Z) (line : string) (l l' : Locals) :
  body g n line l = Break l' ->
  g = true /\ in_material l = true /\ Spec.closes_materials line = true
  /\ l' = mkLocals (in_material l) (l_materials l) (l_begin l) (material_name l)
            (behavior_name l) (Some (n - 1)%Z) (Some n).
Proof.
  intros H. unfold Spec.closes_materials, Spec.is_material_start, Spec.is_behavior_start.
  body_cases; injection H as <-.
  repeat match goal with
         | H : andb _ _ = true |- _ => apply andb_true_iff in H; destruct H
         end.
  subst. repeat split; auto.
  repeat match goal with H : _ = _ |- _ => rewrite H end. reflexivity.
Qed.

(** A line that closes the block does so whenever it is met inside the
    block in strict mode. *)
Lemma body_closes (n : Z) (line : string) (l : Locals) :
  in_material l = true -> Spec.closes_materials line = true ->
  body true n line l =
  Break (mkLocals (in_material l) (l_materials l) (l_begin l) (material_name l)
           (behavior_name l) (Some (n - 1)%Z) (Some n)).
Proof.
  unfold Spec.closes_materials, Spec.is_material_start, Spec.is_behavior_start.
  intros Hin H.
  apply andb_true_iff in H as [H Hb]. apply andb_true_iff in H as [Hk Hm].
  unfold body.
  destruct (Re.material line); [discriminate|].
  destruct (Re.behavior line); [discriminate|].
  rewrite Hin, Hk.
  assert (Hp : negb (Re.generalkeyword line) && negb (Re.comment line) = false).
  { apply orb_true_iff in Hk as [-> | ->]; simpl; auto using andb_false_r. }
  rewrite Hp. reflexivity.
Qed.

(** A line that does not close the block never leaves the loop. *)
Lemma body_open (g : bool) (n : Z) (line : string) (l : Locals) :
  Spec.closes_materials line = false ->
  forall l', body g n line l <> Break l'.
Proof.
  intros H l' Hb. apply body_break in Hb. destruct Hb as (_ & _ & Hc & _). congruence.
Qed.

(** Before the first material: lines are passed over, or a behavior-start
    line raises. *)
Lemma body_outside (g : bool) (n : Z) (line : string) (l : Locals) :
  in_material l = false -> material_name l = None -> Re.material line = None ->
  body g n line l =
    match Re.behavior line with
    | Some _ => Crash (UnboundLocalError "material_name")
    | None => Next (mkLocals false (l_materials l) (l_begin l) None
                      (behavior_name l) (l_end l) (Some n))
    end.
Proof.
  intros Hin Hname Hm. unfold body, local. rewrite Hm, Hin, Hname.
  destruct (Re.behavior line); [reflexivity|].
  rewrite !andb_false_r. reflexivity.
Qed.

(** A material-start line opens an entry and, the first time, the block. *)
Lemma body_material (g : bool) (n : Z) (line name : string) (l : Locals) :
  Re.material line = Some name ->
  body g n line l =
  Next (mkLocals true (Dict.set name [] (l_materials l))
          (if in_material l then l_begin l else Some n)
          (Some name) (behavior_name l) (l_end l) (Some n)).
Proof. intros H. unfold body. rewrite H. reflexivity. Qed.

Lemma scan_next (g : bool) (lines : list string) :
  forall n l l',
    Scan.materials g n lines l = Next l' ->
    l_end l' = l_end l
    /\ (lines <> [] -> line_number l' = Some (n + Z.of_nat (length lines) - 1)%Z)
    /\ (in_material l = true -> in_material l' = true /\ l_begin l' = l_begin l).
Proof.
  induction lines as [|line rest IH]; intros n l l' H.
  - injection H as <-. repeat split; auto. congruence.
  - cbn [Scan.materials] in H. destruct (body g n line l) as [l1| |] eqn:Hb;
      try discriminate.
    apply body_next in Hb as (Hln & Hend & Hin).
    pose proof (IH _ _ _ H) as (Hend' & Hln' & Hin').
    split; [congruence|]. split.
    + intros _. destruct rest as [|line' rest'].
      * injection H as <-. rewrite Hln. f_equal. simpl. lia.
      * rewrite Hln' by discriminate. f_equal. cbn [length]. lia.
    + intros Hl. destruct (Hin Hl) as [Hi Hbg].
      destruct (Hin' Hi) as [Hi' Hbg']. split; congruence.
Qed.

(** Splitting a list at the first element that passes a test. *)
Lemma split_first {A : Type} (p : A -> bool) (xs : list A) :
  Forall (fun x => p x = false) xs
  \/ exists pre x rest,
      xs = pre ++ x :: rest /\ Forall (fun x => p x = false) pre /\ p x = true.
Proof.
  induction xs as [|x xs IH]; [left; constructor|].
  destruct (p x) eqn:E.
  - right. exists [], x, xs. auto.
  - destruct IH as [IH | (pre & y & rest & -> & Hpre & Hy)].
    + left. constructor; assumption.
    + right. exists (x :: pre), y, rest. auto.
Qed.

(** Before the first material-start line nothing is recorded, and the
    loop is not left. *)
Lemma scan_outside (g : bool) (pre : list string) :
  forall n l,
    in_material l = false -> material_name l = None ->
    Forall (fun x => Spec.is_material_start x = false) pre ->
    match Scan.materials g n pre l with
    | Next l' =>
        in_material l' = false /\ material_name l' = None
        /\ l_materials l' = l_materials l /\ l_begin l' = l_begin l
        /\ behavior_name l' = behavior_name l
    | Break _ => False
    | Crash _ => True
    end.
Proof.
  induction pre as [|line rest IH]; intros n l Hin Hname Hpre.
  - simpl. auto.
  - inversion Hpre as [|? ? Hline Hrest]; subst.
    unfold Spec.is_material_start in Hline.
    destruct (Re.material line) eqn:Hm; [discriminate|].
    cbn [Scan.materials]. rewrite (body_outside g n line l Hin Hname Hm).
    destruct (Re.behavior line); [exact I|].
    specialize (IH (n + 1)%Z
                  (mkLocals false (l_materials l) (l_begin l) None
                     (behavior_name l) (l_end l) (Some n))
                  eq_refl eq_refl Hrest).
    exact IH.
Qed.

(** Inside the block the loop is left at a closing line only. *)
Lemma scan_open (g : bool) (blk : list string) :
  forall n l,
    Forall (fun x => Spec.closes_materials x = false) blk ->
    match Scan.materials g n blk l with
    | Break _ => False
    | _ => True
    end.
Proof.
  induction blk as [|line rest IH]; intros n l Hblk; [exact I|].
  inversion Hblk as [|? ? Hline Hrest]; subst.
  cbn [Scan.materials]. destruct (body g n line l) as [l1|l1|e] eqn:Hb.
  - apply IH. exact Hrest.
  - exact (body_open g n line l Hline l1 Hb).
  - exact I.
Qed.

(** In permissive mode the loop is never left. *)
Lemma scan_permissive (lines : list string) :
  forall n l,
    match Scan.materials false n lines l with
    | Break _ => False
    | _ => True
    end.
Proof.
  induction lines as [|line rest IH]; intros n l; [exact I|].
  cbn [Scan.materials]. destruct (body false n line l) as [l1|l1|e] eqn:Hb.
  - apply IH.
  - apply body_break in Hb. destruct Hb as [Hg _]. discriminate.
  - exact I.
Qed.

(** ['end'] in permissive mode: the index of the last line. *)
Lemma permissive_end (lines : list string) (l' : Locals) :
  lines <> [] ->
  loop false 0 lines locals0 = Ok l' ->
  Scan.material_end l' = Some (Z.of_nat (length lines) - 1)%Z.
Proof.
  intros Hne H. rewrite loop_scan in H.
  pose proof (scan_permissive lines 0%Z locals0) as Hp.
  destruct (Scan.materials false 0 lines locals0) as [l1|l1|e] eqn:Hs;
    [|contradiction|discriminate].
  injection H as <-.
  apply scan_next in Hs as (Hend & Hln & _).
  unfold Scan.material_end. rewrite Hend. simpl.
  rewrite (Hln Hne). f_equal.
Qed.

(** The block in strict mode: it begins at the first material-start line
    and ends before the first closing line after it, or with the text. *)
Lemma strict_block (lines : list string) (l' : Locals) (b : Z) :
  loop true 0 lines locals0 = Ok l' -> l_begin l' = Some b ->
  exists pre m rest,
    lines = pre ++ m :: rest
    /\ Forall (fun x => Spec.is_material_start x = false) pre
    /\ Spec.is_material_start m = true
    /\ b = Z.of_nat (length pre)
    /\ ((exists blk s post,
           rest = blk ++ s :: post
           /\ Forall (fun x => Spec.closes_materials x = false) blk
           /\ Spec.closes_materials s = true
           /\ Scan.material_end l' = Some (Z.of_nat (length pre + length blk))
           /\ forall post', loop true 0 (pre ++ m :: blk ++ s :: post') locals0 = Ok l')
        \/ (Forall (fun x => Spec.closes_materials x = false) rest
            /\ Scan.material_end l' = Some (Z.of_nat (length lines) - 1)%Z)).
Proof.
  intros H Hb. rewrite loop_scan in H.
  destruct (split_first Spec.is_material_start lines)
    as [Hnone | (pre & m & rest & -> & Hpre & Hm)].
  - (* no material at all: [begin] stays unbound *)
    pose proof (scan_outside true lines 0%Z locals0 eq_refl eq_refl Hnone) as Ho.
    destruct (Scan.materials true 0 lines locals0) as [l1|l1|e];
      [|contradiction|discriminate].
    injection H as <-. destruct Ho as (_ & _ & _ & Hbg & _).
    rewrite Hbg in Hb. discriminate.
  - exists pre, m, rest. split; [reflexivity|]. split; [exact Hpre|].
    split; [exact Hm|].
    assert (Hshape : forall tail,
               Scan.materials true 0 (pre ++ m :: tail) locals0 =
               match Scan.materials true 0 pre locals0 with
               | Next l1 =>
                   match body true (Z.of_nat (length pre)) m l1 with
                   | Next l2 => Scan.materials true (Z.of_nat (length pre) + 1) tail l2
                   | other => other
                   end
               | other => other
               end).
    { intros tail. rewrite scan_app. destruct (Scan.materials true 0 pre locals0);
        reflexivity. }
    rewrite Hshape in H.
    pose proof (scan_outside true pre 0%Z locals0 eq_refl eq_refl Hpre) as Ho.
    destruct (Scan.materials true 0 pre locals0) as [l1|l1|e] eqn:Hs1;
      [|contradiction|discriminate].
    destruct Ho as (Hin1 & Hname1 & _ & Hbg1 & _).
    unfold Spec.is_material_start in Hm.
    destruct (Re.material m) as [name|] eqn:Hmat; [|discriminate].
    rewrite (body_material true _ m name l1 Hmat) in H.
    rewrite Hin1 in H.
    set (l2 := mkLocals true (Dict.set name [] (l_materials l1))
                 (Some (Z.of_nat (length pre))) (Some name) (behavior_name l1)
                 (l_end l1) (Some (Z.of_nat (length pre)))) in *.
    assert (Hend1 : l_end l1 = None).
    { apply scan_next in Hs1 as (He & _). exact He. }
    destruct (split_first Spec.closes_materials rest)
      as [Hopen | (blk & s & post & -> & Hblk & Hclose)].
    + (* the block runs to the end of the text *)
      pose proof (scan_open true rest (Z.of_nat (length pre) + 1)%Z l2 Hopen) as Hn.
      destruct (Scan.materials true (Z.of_nat (length pre) + 1) rest l2)
        as [l3|l3|e] eqn:Hs3; [|contradiction|discriminate].
      injection H as <-.
      pose proof (scan_next _ _ _ _ _ Hs3) as (He3 & Hln3 & Hin3).
      destruct (Hin3 eq_refl) as [_ Hbg3].
      split; [simpl in Hbg3; congruence|].
      right. split; [exact Hopen|].
      unfold Scan.material_end. rewrite He3. simpl. rewrite Hend1.
      destruct rest as [|r rest'].
      * injection Hs3 as <-. simpl. f_equal. rewrite length_app. simpl. lia.
      * rewrite Hln3 by discriminate. f_equal. rewrite length_app. simpl. lia.
    + (* a closing line ends it *)
      assert (Hbreak : forall post',
                 Scan.materials true (Z.of_nat (length pre) + 1)
                   (blk ++ s :: post') l2 =
                 match Scan.materials true (Z.of_nat (length pre) + 1) blk l2 with
                 | Next l3 =>
                     Break (mkLocals (in_material l3) (l_materials l3) (l_begin l3)
                              (material_name l3) (behavior_name l3)
                              (Some (Z.of_nat (length pre) + 1
                                     + Z.of_nat (length blk) - 1)%Z)
                              (Some (Z.of_nat (length pre) + 1
                                     + Z.of_nat (length blk))%Z))
                 | other => other
                 end).
      { intros post'. rewrite scan_app.
        destruct (Scan.materials true (Z.of_nat (length pre) + 1) blk l2)
          as [l3|l3|e] eqn:Hs3; try reflexivity.
        apply scan_next in Hs3 as (_ & _ & Hin3).
        destruct (Hin3 eq_refl) as [Hin3' _].
        cbn [Scan.materials]. rewrite (body_closes _ s l3 Hin3' Hclose). reflexivity. }
      rewrite Hbreak in H.
      pose proof (scan_open true blk (Z.of_nat (length pre) + 1)%Z l2 Hblk) as Hn.
      destruct (Scan.materials true (Z.of_nat (length pre) + 1) blk l2)
        as [l3|l3|e] eqn:Hs3; [|contradiction|discriminate].
      injection H as <-.
      pose proof (scan_next _ _ _ _ _ Hs3) as (_ & _ & Hin3).
      destruct (Hin3 eq_refl) as [_ Hbg3].
      split; [simpl in Hb, Hbg3; congruence|].
      left. exists blk, s, post. split; [reflexivity|]. split; [exact Hblk|].
      split; [exact Hclose|]. split.
      * unfold Scan.material_end. simpl. f_equal. lia.
      * intros post'. rewrite loop_scan, Hshape. cbv iota.
        rewrite (body_material true _ m name l1 Hmat), Hin1.
        fold l2. rewrite Hbreak. reflexivity.
Qed.

(** A text with neither a material-start nor a behavior-start line is
    read to its end, and nothing is recorded. *)
Lemma scan_nothing (g : bool) (lines : list string) :
  forall n l,
    in_material l = false -> material_name l = None ->
    Forall (fun x => Spec.is_material_start x = false
                     /\ Spec.is_behavior_start x = false) lines ->
    exists l',
      Scan.materials g n lines l = Next l'
      /\ l_materials l' = l_materials l /\ l_begin l' = l_begin l.
Proof.
  induction lines as [|line rest IH]; intros n l Hin Hname Hlines.
  - exists l. auto.
  - inversion Hlines as [|? ? [Hm Hb] Hrest]; subst.
    unfold Spec.is_material_start in Hm. unfold Spec.is_behavior_start in Hb.
    destruct (Re.material line) eqn:Em; [discriminate|].
    destruct (Re.behavior line) eqn:Eb; [discriminate|].
    cbn [Scan.materials]. rewrite (body_outside g n line l Hin Hname Em), Eb.
    apply (IH (n + 1)%Z
              (mkLocals false (l_materials l) (l_begin l) None (behavior_name l)
                 (l_end l) (Some n))
              eq_refl eq_refl Hrest).
Qed.

End ScanFacts.

(* ================================================================== *)
(** ** [validate_file] and [Material.read] as a whole *)

Module ReadFacts.
Import PyStr Material.

Lemma files_remarked (file : string) (w : World) :
  files (Scan.remarked file w) = files w.
Proof. unfold Scan.remarked. destruct (String.eqb _ _); reflexivity. Qed.

Lemma files_announced (file : string) (w : World) :
  files (Scan.announced file w) = files w.
Proof.
  unfold Scan.announced. destruct (files w file); simpl; apply files_remarked.
Qed.

Lemma validate_read {S : Type} (file : string) (self : S) (w : World) :
  validate_file file "read" self w =
  match files w file with
  | None => (Raise (Exception "File does not exist."), self, Scan.remarked file w)
  | Some text =>
      if String.eqb text EmptyString
      then (Raise (Exception "Input file is empty."), self, Scan.remarked file w)
      else (Ok tt, self, Scan.remarked file w)
  end.
Proof.
  unfold validate_file, bind, isfile, read_text, Scan.remarked, ret, print, raise.
  destruct (String.eqb (snd (splitext file)) ".inp"); cbn;
    destruct (files w file) as [text|] eqn:E; cbn; rewrite ?E; try reflexivity;
    destruct (String.eqb text EmptyString); reflexivity.
Qed.

Lemma validate_write {S : Type} (file : string) (self : S) (w : World) :
  validate_file file "write" self w = (Ok tt, self, Scan.announced file w).
Proof.
  unfold validate_file, bind, isfile, Scan.announced, Scan.remarked, ret, print, raise.
  destruct (String.eqb (snd (splitext file)) ".inp"); cbn;
    destruct (files w file); reflexivity.
Qed.

(** [read] on an instance not read before, given a file with some text. *)
Lemma read_unfold (inp text : string) (self : t) (w : World) :
  st_read (state self) = false ->
  files w inp = Some text -> text <> EmptyString ->
  read inp self w =
  match loop (is_greedy self) 0 (readlines text) locals0 with
  | Raise e => (Raise e, self, Scan.remarked inp w)
  | Ok l =>
      match Scan.material_end l with
      | None => (Raise (UnboundLocalError "line_number"), self, Scan.remarked inp w)
      | Some e =>
          match l_begin l with
          | None =>
              (Raise (UnboundLocalError "begin"),
               mk inp (state self) (l_materials l) (is_greedy self),
               Scan.remarked inp w)
          | Some b =>
              (Ok tt,
               mk inp (mkState (Some b) (Some e) true) (l_materials l) (is_greedy self),
               Scan.remarked inp w)
          end
      end
  end.
Proof.
  intros Hread Hfile Htext.
  unfold read, bind, get_self. rewrite Hread, validate_read, Hfile.
  apply String.eqb_neq in Htext. rewrite Htext.
  unfold read_text. rewrite files_remarked, Hfile.
  unfold lift. destruct (loop (is_greedy self) 0 (readlines text) locals0) as [l|e];
    [|reflexivity].
  unfold Scan.material_end, local, ret.
  destruct (l_end l) as [e|]; [|destruct (line_number l) as [e|]; [|reflexivity]];
    destruct (l_begin l); reflexivity.
Qed.

(** What a successful [read] has done. *)
Lemma read_inv (inp : string) (self self' : t) (w w' : World) :
  read inp self w = (Ok tt, self', w') ->
  st_read (state self) = false
  /\ exists text l b e,
      files w inp = Some text /\ text <> EmptyString
      /\ loop (is_greedy self) 0 (readlines text) locals0 = Ok l
      /\ l_begin l = Some b /\ Scan.material_end l = Some e
      /\ self' = mk inp (mkState (Some b) (Some e) true) (l_materials l) (is_greedy self)
      /\ w' = Scan.remarked inp w.
Proof.
  intros H. destruct (st_read (state self)) eqn:Hread.
  { unfold read, bind, get_self in H. rewrite Hread in H. discriminate. }
  split; [reflexivity|].
  destruct (files w inp) as [text|] eqn:Hfile.
  - destruct (String.eqb text EmptyString) eqn:Htext.
    + unfold read, bind, get_self in H.
      rewrite Hread, validate_read, Hfile, Htext in H. discriminate.
    + apply String.eqb_neq in Htext.
      rewrite (read_unfold inp text self w Hread Hfile Htext) in H.
      destruct (loop (is_greedy self) 0 (readlines text) locals0) as [l|e] eqn:Hl;
        [|discriminate].
      destruct (Scan.material_end l) as [e|] eqn:He; [|discriminate].
      destruct (l_begin l) as [b|] eqn:Hb; [|discriminate].
      injection H as <- <-. exists text, l, b, e. auto 10.
  - unfold read, bind, get_self in H.
    rewrite Hread, validate_read, Hfile in H. discriminate.
Qed.

(** A [read] that raises before the scan is over leaves the instance as
    it was. *)
Lemma read_guard (inp : string) (self : t) (w : World) :
  st_read (state self) = true ->
  read inp self w =
  (Raise (Exception ("Material database already exists. Instantiate a "
                     ++ "new Material object for another database.")), self, w).
Proof. intros H. unfold read, bind, get_self. rewrite H. reflexivity. Qed.

End ReadFacts.

(* ================================================================== *)
(** ** What [read] extracts is well formed *)

Module WfFacts.
Import PyStr Material.

Lemma behaviors_ok_nil : Wf.behaviors_ok [].
Proof. split; constructor. Qed.

Lemma hierarchy_ok_nil : Wf.hierarchy_ok [].
Proof. split; constructor. Qed.

(** The entry found under a key is one of the dictionary. *)
Lemma entry_ok {V : Type} (P : string * V -> Prop) (d : Dict.t V) (k : string) (v : V) :
  Forall P d -> Dict.get k d = Some v -> P (k, v).
Proof.
  intros Hd Hg. apply DictFacts.get_in in Hg.
  rewrite Forall_forall in Hd. exact (Hd _ Hg).
Qed.

Lemma hierarchy_ok_set (h : Hierarchy) (name : string) (bs : Behaviors) :
  Wf.hierarchy_ok h -> Wf.name_ok name -> Wf.behaviors_ok bs ->
  Wf.hierarchy_ok (Dict.set name bs h).
Proof.
  intros [Hnd Hall] Hname Hbs. split.
  - apply DictFacts.nodup_set. exact Hnd.
  - apply DictFacts.forall_set; [exact Hall|]. split; assumption.
Qed.

Lemma behaviors_ok_set (bs : Behaviors) (bname : string) (rows : list Row) :
  Wf.behaviors_ok bs -> Wf.behavior_ok bname -> Forall Wf.row_ok rows ->
  Wf.behaviors_ok (Dict.set bname rows bs).
Proof.
  intros [Hnd Hall] Hname Hrows. split.
  - apply DictFacts.nodup_set. exact Hnd.
  - apply DictFacts.forall_set; [exact Hall|]. split; assumption.
Qed.

(** One pass of the loop keeps the hierarchy well formed. *)
Lemma body_ok (g : bool) (n : Z) (line : string) (l : Locals) :
  Wf.no_nl (drop_last line) = true ->
  Wf.hierarchy_ok (l_materials l) ->
  match body g n line l with
  | Next l' | Break l' => Wf.hierarchy_ok (l_materials l')
  | Crash _ => True
  end.
Proof.
  intros Hnl Hok. unfold body, local, subscript.
  destruct (Re.material line) as [name|] eqn:Em.
  { apply hierarchy_ok_set; [exact Hok | | apply behaviors_ok_nil].
    exact (ReFacts.name_ok_captured line name Em). }
  destruct (Re.behavior line) as [bname|] eqn:Eb.
  { destruct (material_name l) as [mname|]; [|exact I].
    destruct (Dict.get mname (l_materials l)) as [bs|] eqn:Eg; [|exact I].
    cbn [l_materials].
    destruct (entry_ok _ _ _ _ (proj2 Hok) Eg) as [Hmname Hbs].
    apply hierarchy_ok_set; [exact Hok | exact Hmname |].
    apply behaviors_ok_set; [exact Hbs | | constructor].
    exact (ReFacts.behavior_ok_captured line bname Eb). }
  destruct (negb (Re.generalkeyword line) && negb (Re.comment line) && in_material l)
    eqn:Ep.
  { destruct (material_name l) as [mname|]; [|exact I].
    destruct (Dict.get mname (l_materials l)) as [bs|] eqn:Eg; [|exact I].
    destruct (behavior_name l) as [bname|]; [|exact I].
    destruct (Dict.get bname bs) as [rows|] eqn:Er; [|exact I].
    cbn [l_materials].
    destruct (entry_ok _ _ _ _ (proj2 Hok) Eg) as [Hmname Hbs].
    destruct (entry_ok _ _ _ _ (proj2 Hbs) Er) as [Hbname Hrows].
    apply hierarchy_ok_set; [exact Hok | exact Hmname |].
    apply behaviors_ok_set; [exact Hbs | exact Hbname |].
    apply Forall_app. split; [exact Hrows|]. constructor; [|constructor].
    apply andb_true_iff in Ep as [Ep _]. apply andb_true_iff in Ep as [Hk Hc].
    apply negb_true_iff in Hk. apply negb_true_iff in Hc.
    exact (ReFacts.row_ok_split line Hnl Hk Hc). }
  destruct ((Re.generalkeyword line || Re.comment line) && in_material l && g);
    exact Hok.
Qed.

Lemma scan_ok (g : bool) (lines : list string) :
  forall n l,
    Forall (fun line => Wf.no_nl (drop_last line) = true) lines ->
    Wf.hierarchy_ok (l_materials l) ->
    match Scan.materials g n lines l with
    | Next l' | Break l' => Wf.hierarchy_ok (l_materials l')
    | Crash _ => True
    end.
Proof.
  induction lines as [|line rest IH]; intros n l Hlines Hok; [exact Hok|].
  inversion Hlines as [|? ? Hline Hrest]; subst.
  cbn [Scan.materials]. pose proof (body_ok g n line l Hline Hok) as Hb.
  destruct (body g n line l) as [l1|l1|e]; [|exact Hb|exact I].
  apply IH; assumption.
Qed.

End WfFacts.

(* ================================================================== *)
(** ** Reading back what the serializer wrote *)

Module RescanFacts.
Import PyStr Material.

(** Uses an equation on a scan wherever the goal holds that scan. *)
Ltac have_scan H :=
  match type of H with
  | _ = ?r =>
      match goal with
      | |- context [Scan.materials ?g ?n ?ls ?st] =>
          replace (Scan.materials g n ls st) with r by (symmetry; exact H)
      end
  end.

(** A serialized row is read as the row it came from. *)
Lemma body_row (g : bool) (n : Z) (s : string) (l : Locals)
      (mname bname : string) (bs : Behaviors) (rows : list Row) :
  Re.generalkeyword (s ++ nl) = false -> Re.comment (s ++ nl) = false ->
  in_material l = true ->
  material_name l = Some mname -> behavior_name l = Some bname ->
  Dict.get mname (l_materials l) = Some bs -> Dict.get bname bs = Some rows ->
  body g n (s ++ nl) l =
  Next (mkLocals true
          (Dict.set mname (Dict.set bname (rows ++ [split comma s]) bs) (l_materials l))
          (l_begin l) (Some mname) (Some bname) (l_end l) (Some n)).
Proof.
  intros Hk Hc Hin Hm Hb Hgm Hgb. unfold body, local, subscript.
  destruct (Re.material (s ++ nl)) as [name|] eqn:Em.
  { apply ReFacts.material_keyword in Em. congruence. }
  destruct (Re.behavior (s ++ nl)) as [b|] eqn:Eb.
  { apply ReFacts.behavior_keyword in Eb. congruence. }
  rewrite Hk, Hc, Hin, Hm, Hb, Hgm, Hgb, StrFacts.drop_last_nl. reflexivity.
Qed.

(** A serialized behavior line opens the behavior under the material at
    hand. *)
Lemma body_behavior (g : bool) (n : Z) (bname : string) (l : Locals)
      (mname : string) (bs : Behaviors) :
  Wf.behavior_ok bname ->
  material_name l = Some mname -> Dict.get mname (l_materials l) = Some bs ->
  body g n ("*" ++ bname ++ nl) l =
  Next (mkLocals (in_material l)
          (Dict.set mname (Dict.set bname [] bs) (l_materials l))
          (l_begin l) (Some mname) (Some bname) (l_end l) (Some n)).
Proof.
  intros (Hb & Hm & _) Hname Hg. unfold body, local, subscript.
  rewrite Hm, Hb, Hname, Hg. reflexivity.
Qed.

Lemma rescan_rows (g : bool) (rows : list Row) :
  forall n l acc mname bacc bname racc,
    in_material l = true ->
    material_name l = Some mname -> behavior_name l = Some bname ->
    l_materials l = acc ++ [(mname, bacc ++ [(bname, racc)])] ->
    ~ In mname (Dict.keys acc) -> ~ In bname (Dict.keys bacc) ->
    Forall Wf.row_ok rows ->
    exists l',
      Scan.materials g n (map Spec.serialize_row rows) l = Next l'
      /\ in_material l' = true
      /\ material_name l' = Some mname /\ behavior_name l' = Some bname
      /\ l_materials l' = acc ++ [(mname, bacc ++ [(bname, racc ++ rows)])].
Proof.
  induction rows as [|row rows IH];
    intros n l acc mname bacc bname racc Hin Hm Hb Hmat Hna Hnb Hrows.
  - exists l. rewrite app_nil_r. auto.
  - inversion Hrows as [|? ? (s & -> & _ & Hk & Hc) Hrest]; subst.
    cbn [map Scan.materials]. unfold Spec.serialize_row at 1.
    rewrite StrFacts.join_split.
    rewrite (body_row g n s l mname bname (bacc ++ [(bname, racc)]) racc Hk Hc Hin Hm Hb).
    + rewrite Hmat, (DictFacts.set_last bname bacc racc _ Hnb),
        (DictFacts.set_last mname acc _ _ Hna).
      destruct (IH (n + 1)%Z
                  (mkLocals true
                     (acc ++ [(mname, bacc ++ [(bname, racc ++ [split comma s])])])
                     (l_begin l) (Some mname) (Some bname) (l_end l) (Some n))
                  acc mname bacc bname (racc ++ [split comma s])
                  eq_refl eq_refl eq_refl eq_refl Hna Hnb Hrest)
        as (l' & Hs & Hin' & Hm' & Hb' & Hmat').
      exists l'. rewrite <- app_assoc in Hmat'. auto.
    + rewrite Hmat. apply DictFacts.get_last. exact Hna.
    + apply DictFacts.get_last. exact Hnb.
Qed.

Lemma nodup_app_cons {A : Type} (xs ys : list A) (y : A) :
  NoDup (xs ++ y :: ys) -> ~ In y xs /\ NoDup ((xs ++ [y]) ++ ys).
Proof.
  intros H. split.
  - apply NoDup_remove_2 in H. intros Hy. apply H. apply in_or_app. auto.
  - rewrite <- app_assoc. exact H.
Qed.

Lemma rescan_behaviors (g : bool) (bs : Behaviors) :
  forall n l acc mname bacc,
    in_material l = true -> material_name l = Some mname ->
    l_materials l = acc ++ [(mname, bacc)] ->
    ~ In mname (Dict.keys acc) ->
    NoDup (Dict.keys bacc ++ Dict.keys bs) ->
    Forall (fun item => Wf.behavior_ok (fst item) /\ Forall Wf.row_ok (snd item)) bs ->
    exists l',
      Scan.materials g n (flat_map Spec.serialize_behavior bs) l = Next l'
      /\ in_material l' = true /\ material_name l' = Some mname
      /\ l_materials l' = acc ++ [(mname, bacc ++ bs)].
Proof.
  induction bs as [|[bname rows] bs IH];
    intros n l acc mname bacc Hin Hm Hmat Hna Hnd Hall.
  - exists l. rewrite app_nil_r. auto.
  - inversion Hall as [|? ? [Hbname Hrows] Hrest]; subst. cbn [fst snd] in *.
    cbn [Dict.keys map fst] in Hnd. fold (Dict.keys bs) in Hnd.
    apply nodup_app_cons in Hnd as [Hnb Hnd].
    cbn [flat_map]. unfold Spec.serialize_behavior at 1. cbn [fst snd].
    rewrite <- app_comm_cons. cbn [Scan.materials].
    rewrite (body_behavior g n bname l mname bacc Hbname Hm)
      by (rewrite Hmat; apply DictFacts.get_last; exact Hna).
    rewrite Hmat, (DictFacts.set_new bname bacc [] Hnb),
      (DictFacts.set_last mname acc _ _ Hna).
    rewrite ScanFacts.scan_app.
    destruct (rescan_rows g rows (n + 1)%Z
                (mkLocals (in_material l) (acc ++ [(mname, bacc ++ [(bname, [])])])
                   (l_begin l) (Some mname) (Some bname) (l_end l) (Some n))
                acc mname bacc bname [] Hin eq_refl eq_refl eq_refl Hna Hnb Hrows)
      as (l1 & Hs1 & Hin1 & Hm1 & _ & Hmat1).
    have_scan Hs1.
    destruct (IH (n + 1 + Z.of_nat (length (map Spec.serialize_row rows)))%Z
                l1 acc mname (bacc ++ [(bname, rows)]) Hin1 Hm1 Hmat1 Hna)
      as (l' & Hs & Hin' & Hm' & Hmat').
    + rewrite DictFacts.keys_app. exact Hnd.
    + exact Hrest.
    + exists l'. rewrite <- app_assoc in Hmat'. auto.
Qed.

(** Reading the serialized hierarchy [h] after the entries [acc] gives
    [acc ++ h]; with the first material the block is entered. *)
Lemma rescan_materials (g : bool) (h : Hierarchy) :
  forall n l acc,
    l_materials l = acc ->
    NoDup (Dict.keys acc ++ Dict.keys h) ->
    Forall (fun item => Wf.name_ok (fst item) /\ Wf.behaviors_ok (snd item)) h ->
    exists l',
      Scan.materials g n (Spec.serialize h) l = Next l'
      /\ l_materials l' = acc ++ h
      /\ (h <> [] ->
          in_material l' = true
          /\ l_begin l' = if in_material l then l_begin l else Some n).
Proof.
  induction h as [|[name bs] h IH]; intros n l acc Hmat Hnd Hall.
  - exists l. rewrite app_nil_r. split; [reflexivity|]. split; [exact Hmat|]. congruence.
  - inversion Hall as [|? ? [[Hname _] [Hndb Hbs]] Hrest]; subst. cbn [fst snd] in *.
    cbn [Dict.keys map fst] in Hnd. fold (Dict.keys h) in Hnd.
    apply nodup_app_cons in Hnd as [Hna Hnd].
    unfold Spec.serialize. cbn [flat_map]. fold (Spec.serialize h).
    unfold Spec.serialize_material at 1. cbn [fst snd].
    rewrite <- app_comm_cons. cbn [Scan.materials].
    rewrite (ScanFacts.body_material g n _ name l Hname).
    match goal with
    | |- context [Dict.set name ?v (l_materials l)] =>
        replace (Dict.set name v (l_materials l)) with (l_materials l ++ [(name, v)])
          by (symmetry; exact (DictFacts.set_new name (l_materials l) v Hna))
    end.
    rewrite ScanFacts.scan_app.
    set (begin := if in_material l then l_begin l else Some n).
    destruct (rescan_behaviors g bs (n + 1)%Z
                (mkLocals true (l_materials l ++ [(name, [])]) begin (Some name)
                   (behavior_name l) (l_end l) (Some n))
                (l_materials l) name [] eq_refl eq_refl eq_refl Hna Hndb Hbs)
      as (l1 & Hs1 & Hin1 & _ & Hmat1).
    have_scan Hs1.
    destruct (IH (n + 1 + Z.of_nat (length (flat_map Spec.serialize_behavior bs)))%Z
                l1 (l_materials l ++ [(name, bs)]) Hmat1)
      as (l' & Hs & Hmat' & Hin').
    + rewrite DictFacts.keys_app. exact Hnd.
    + exact Hrest.
    + exists l'. split; [exact Hs|]. split.
      * rewrite Hmat', <- app_assoc. reflexivity.
      * intros _.
        pose proof (ScanFacts.scan_next _ _ _ _ _ Hs1) as (_ & _ & Hkeep1).
        destruct (Hkeep1 eq_refl) as [_ Hbg1]. cbn [l_begin] in Hbg1.
        pose proof (ScanFacts.scan_next _ _ _ _ _ Hs) as (_ & _ & Hkeep).
        destruct (Hkeep Hin1) as [Hin2 Hbg2].
        split; [exact Hin2 | congruence].
Qed.

End RescanFacts.

(* ================================================================== *)
(** ** Texts and their lines *)

Module LineFacts.
Import PyStr.

Lemma no_nl_cons (c : ascii) (s : string) :
  Wf.no_nl (String c s) = negb (Ascii.eqb c newline) && Wf.no_nl s.
Proof. reflexivity. Qed.

Lemma drop_last_cons (c d : ascii) (s : string) :
  drop_last (String c (String d s)) = String c (drop_last (String d s)).
Proof. reflexivity. Qed.

(** A complete line passes for a last line as well. *)
Lemma complete_last (line : string) :
  Wf.complete line -> line <> EmptyString /\ Wf.no_nl (drop_last line) = true.
Proof.
  intros (s & -> & Hs). split.
  - destruct s; discriminate.
  - rewrite StrFacts.drop_last_nl. exact Hs.
Qed.

Lemma lines_ok_cut (text : string) : Wf.lines_ok (cut_lines text).
Proof.
  induction text as [|c text IH]; [exact I|].
  cbn [cut_lines]. destruct (Ascii.eqb c newline) eqn:Ec.
  - cbn [Wf.lines_ok]. destruct (cut_lines text) as [|l ls].
    + split; [discriminate|reflexivity].
    + split; [|exact IH]. exists EmptyString. split; reflexivity.
  - destruct (cut_lines text) as [|l ls].
    + split; [discriminate|reflexivity].
    + cbn [Wf.lines_ok] in *. destruct ls as [|l' ls].
      * destruct IH as [Hne Hnl]. split; [discriminate|].
        destruct l as [|d l]; [congruence|].
        rewrite drop_last_cons, no_nl_cons, Ec, Hnl. reflexivity.
      * destruct IH as [(s & -> & Hs) Hrest]. split; [|exact Hrest].
        exists (String c s). split; [reflexivity|].
        rewrite no_nl_cons, Ec, Hs. reflexivity.
Qed.

Lemma lines_ok_readlines (text : string) : Wf.lines_ok (readlines text).
Proof. exact (lines_ok_cut (universal text)). Qed.

Lemma lines_ok_each (lines : list string) :
  Wf.lines_ok lines ->
  Forall (fun line => Wf.no_nl (drop_last line) = true) lines.
Proof.
  induction lines as [|line rest IH]; [constructor|].
  cbn [Wf.lines_ok]. destruct rest as [|line' rest].
  - intros [_ H]. repeat constructor. exact H.
  - intros [Hc Hrest]. constructor; [|exact (IH Hrest)].
    exact (proj2 (complete_last line Hc)).
Qed.

Lemma lines_ok_complete (lines : list string) :
  Forall Wf.complete lines -> Wf.lines_ok lines.
Proof.
  induction 1 as [|line rest Hc Hrest IH]; [exact I|].
  cbn [Wf.lines_ok]. destruct rest; [exact (complete_last line Hc)|auto].
Qed.

Lemma lines_ok_app (l1 l2 : list string) :
  Forall Wf.complete l1 -> Wf.lines_ok l2 -> Wf.lines_ok (l1 ++ l2).
Proof.
  intros H1 H2. induction H1 as [|line rest Hc Hrest IH]; [exact H2|].
  cbn [app Wf.lines_ok]. destruct (rest ++ l2) eqn:E; [|auto].
  exact (complete_last line Hc).
Qed.

(** In a text, every line followed by another one is complete. *)
Lemma lines_ok_split (l1 l2 : list string) :
  l2 <> [] -> Wf.lines_ok (l1 ++ l2) -> Forall Wf.complete l1 /\ Wf.lines_ok l2.
Proof.
  intros Hne. induction l1 as [|line rest IH]; [auto|].
  cbn [app Wf.lines_ok]. destruct (rest ++ l2) eqn:E.
  - apply app_eq_nil in E. tauto.
  - intros [Hc Hrest]. destruct (IH Hrest) as [H1 H2]. auto.
Qed.

Lemma lines_ok_skipn (k : nat) (lines : list string) :
  Wf.lines_ok lines -> Wf.lines_ok (skipn k lines).
Proof.
  revert lines. induction k as [|k IH]; intros lines H; [exact H|].
  destruct lines as [|line rest]; [exact I|].
  cbn [skipn]. apply IH. cbn [Wf.lines_ok] in H.
  destruct rest; [exact I|tauto].
Qed.

Lemma cut_complete (s rest : string) :
  Wf.no_nl s = true -> cut_lines (s ++ nl ++ rest) = (s ++ nl)%string :: cut_lines rest.
Proof.
  induction s as [|c s IH]; intros Hs.
  - reflexivity.
  - rewrite no_nl_cons in Hs. apply andb_true_iff in Hs as [Hc Hs].
    apply negb_true_iff in Hc.
    cbn [String.append cut_lines]. rewrite Hc.
    change (s ++ String newline rest)%string with (s ++ nl ++ rest)%string.
    rewrite (IH Hs). reflexivity.
Qed.

Lemma cut_last (line : string) :
  line <> EmptyString -> Wf.no_nl (drop_last line) = true -> cut_lines line = [line].
Proof.
  induction line as [|c line IH]; [congruence|]. intros _ Hnl.
  destruct line as [|d line].
  - cbn [cut_lines]. destruct (Ascii.eqb c newline) eqn:Ec; [|reflexivity].
    apply Ascii.eqb_eq in Ec. subst c. reflexivity.
  - rewrite drop_last_cons, no_nl_cons in Hnl.
    apply andb_true_iff in Hnl as [Hc Hnl]. apply negb_true_iff in Hc.
    cbn [cut_lines]. rewrite Hc.
    change (if Ascii.eqb d newline then nl :: cut_lines line
            else match cut_lines line with
                 | [] => [String d EmptyString]
                 | l :: ls => String d l :: ls
                 end) with (cut_lines (String d line)).
    rewrite IH; [reflexivity|discriminate|exact Hnl].
Qed.

(** Cutting into lines what was joined from lines gives the lines back. *)
Lemma cut_concat (lines : list string) :
  Wf.lines_ok lines -> cut_lines (concat_lines lines) = lines.
Proof.
  induction lines as [|line rest IH]; [reflexivity|].
  cbn [Wf.lines_ok]. destruct rest as [|line' rest].
  - intros [Hne Hnl]. unfold concat_lines. cbn [fold_right].
    rewrite StrFacts.append_nil_r. exact (cut_last line Hne Hnl).
  - intros [(s & -> & Hs) Hrest]. unfold concat_lines. cbn [fold_right].
    rewrite StrFacts.append_assoc, (cut_complete s _ Hs).
    f_equal. exact (IH Hrest).
Qed.

(** Universal newlines leave a text without carriage return as it is, and
    leave no carriage return behind. *)
Lemma universal_plain (s : string) : Wf.no_cr s = true -> universal s = s.
Proof.
  unfold Wf.no_cr. induction s as [|c s IH]; [reflexivity|].
  cbn [forallb_str universal]. intros H. apply andb_true_iff in H as [Hc Hs].
  apply negb_true_iff in Hc. rewrite Hc, (IH Hs). reflexivity.
Qed.

Lemma universal_no_cr (s : string) : Wf.no_cr (universal s) = true.
Proof.
  unfold Wf.no_cr. induction s as [|c s IH]; [reflexivity|].
  cbn [universal]. destruct (Ascii.eqb c cr) eqn:Ec.
  - destruct s as [|d s]; [reflexivity|].
    destruct (Ascii.eqb d newline); [exact IH|].
    cbn [forallb_str]. rewrite IH. reflexivity.
  - cbn [forallb_str]. rewrite Ec, IH. reflexivity.
Qed.

Lemma no_cr_app (a b : string) : Wf.no_cr (a ++ b) = Wf.no_cr a && Wf.no_cr b.
Proof.
  unfold Wf.no_cr. induction a as [|c a IH]; [reflexivity|].
  cbn [String.append forallb_str]. rewrite IH. apply andb_assoc.
Qed.

Lemma no_cr_concat (lines : list string) :
  Forall (fun line => Wf.no_cr line = true) lines ->
  Wf.no_cr (concat_lines lines) = true.
Proof.
  induction 1 as [|line rest Hline _ IH]; [reflexivity|].
  unfold concat_lines in *. cbn [fold_right]. rewrite no_cr_app, Hline, IH.
  reflexivity.
Qed.

(** The lines of a text without carriage return have none. *)
Lemma no_cr_cut (s : string) :
  Wf.no_cr s = true -> Forall (fun line => Wf.no_cr line = true) (cut_lines s).
Proof.
  unfold Wf.no_cr. induction s as [|c s IH]; [constructor|].
  cbn [forallb_str cut_lines]. intros H. apply andb_true_iff in H as [Hc Hs].
  specialize (IH Hs). destruct (Ascii.eqb c newline).
  - constructor; [reflexivity|exact IH].
  - destruct (cut_lines s) as [|l ls]; constructor.
    + cbn [forallb_str]. rewrite Hc. reflexivity.
    + constructor.
    + inversion IH; subst. cbn [forallb_str]. rewrite Hc. assumption.
    + inversion IH; assumption.
Qed.

(** What text mode delivers holds no carriage return. *)
Lemma readlines_no_cr (text : string) :
  Forall (fun line => Wf.no_cr line = true) (readlines text).
Proof. exact (no_cr_cut _ (universal_no_cr text)). Qed.

(** Lines written without carriage return are read back as they are. *)
Lemma readlines_concat (lines : list string) :
  Wf.lines_ok lines -> Forall (fun line => Wf.no_cr line = true) lines ->
  readlines (concat_lines lines) = lines.
Proof.
  intros Hok Hcr. unfold readlines.
  rewrite (universal_plain _ (no_cr_concat lines Hcr)). exact (cut_concat lines Hok).
Qed.

(** A text without carriage return is read as it is cut. *)
Lemma readlines_plain (text : string) :
  Wf.no_cr text = true -> readlines text = cut_lines text.
Proof. intros H. unfold readlines. rewrite (universal_plain text H). reflexivity. Qed.

Lemma concat_not_empty (line : string) (rest : list string) :
  line <> EmptyString -> concat_lines (line :: rest) <> EmptyString.
Proof. destruct line; [congruence|discriminate]. Qed.

(** Python slices at bounds that are not negative. *)
Lemma lslice_to_nonneg {A : Type} (l : list A) (b : Z) :
  (0 <= b)%Z -> lslice_to l b = firstn (Z.to_nat b) l.
Proof.
  intros Hb. unfold lslice_to, clip.
  destruct (b <? 0)%Z eqn:E; [apply Z.ltb_lt in E; lia|].
  destruct (Z.le_ge_cases b (Z.of_nat (length l))) as [H | H].
  - rewrite Z.min_l by exact H. reflexivity.
  - rewrite Z.min_r by lia. rewrite Nat2Z.id.
    rewrite firstn_all. symmetry. apply firstn_all2. lia.
Qed.

Lemma lslice_from_nonneg {A : Type} (l : list A) (i : Z) :
  (0 <= i)%Z -> lslice_from l i = skipn (Z.to_nat i) l.
Proof.
  intros Hi. unfold lslice_from, clip.
  destruct (i <? 0)%Z eqn:E; [apply Z.ltb_lt in E; lia|].
  destruct (Z.le_ge_cases i (Z.of_nat (length l))) as [H | H].
  - rewrite Z.min_l by exact H. reflexivity.
  - rewrite Z.min_r by lia. rewrite Nat2Z.id.
    rewrite skipn_all. symmetry. apply skipn_all2. lia.
Qed.

End LineFacts.
(* ================================================================== *)
(** ** Where the names and rows of a hierarchy come from *)

Module EachFacts.
Import PyStr Material.

Section Each.
Variables Pn Pb : string -> Prop.
Variable Pr : Row -> Prop.

Lemma each_set (h : Hierarchy) (name : string) (bs : Behaviors) :
  More.each Pn Pb Pr h -> Pn name ->
  Forall (fun beh => Pb (fst beh) /\ Forall Pr (snd beh)) bs ->
  More.each Pn Pb Pr (Dict.set name bs h).
Proof.
  intros Hh Hname Hbs. unfold More.each.
  apply DictFacts.forall_set; [exact Hh|]. split; assumption.
Qed.

(** One pass of the loop. *)
Lemma body_each (g : bool) (n : Z) (line : string) (l : Locals) :
  More.line_gives Pn Pb Pr line ->
  More.each Pn Pb Pr (l_materials l) ->
  match body g n line l with
  | Next l' | Break l' => More.each Pn Pb Pr (l_materials l')
  | Crash _ => True
  end.
Proof.
  intros (Hm & Hb & Hr) Hok. unfold body, local, subscript.
  destruct (Re.material line) as [name|] eqn:Em.
  { apply each_set; [exact Hok | exact (Hm name eq_refl) | constructor]. }
  destruct (Re.behavior line) as [bname|] eqn:Eb.
  { destruct (material_name l) as [mname|]; [|exact I].
    destruct (Dict.get mname (l_materials l)) as [bs|] eqn:Eg; [|exact I].
    cbn [l_materials].
    destruct (WfFacts.entry_ok _ _ _ _ Hok Eg) as [Hmname Hbs]. cbn [fst snd] in *.
    apply each_set; [exact Hok | exact Hmname |].
    apply DictFacts.forall_set; [exact Hbs|]. split; [exact (Hb bname eq_refl)|constructor]. }
  destruct (negb (Re.generalkeyword line) && negb (Re.comment line) && in_material l)
    eqn:Ep.
  { destruct (material_name l) as [mname|]; [|exact I].
    destruct (Dict.get mname (l_materials l)) as [bs|] eqn:Eg; [|exact I].
    destruct (behavior_name l) as [bname|]; [|exact I].
    destruct (Dict.get bname bs) as [rows|] eqn:Er; [|exact I].
    cbn [l_materials].
    destruct (WfFacts.entry_ok _ _ _ _ Hok Eg) as [Hmname Hbs]. cbn [fst snd] in *.
    destruct (WfFacts.entry_ok _ _ _ _ Hbs Er) as [Hbname Hrows]. cbn [fst snd] in *.
    apply each_set; [exact Hok | exact Hmname |].
    apply DictFacts.forall_set; [exact Hbs|]. split; [exact Hbname|].
    apply Forall_app. split; [exact Hrows|]. constructor; [|constructor].
    apply andb_true_iff in Ep as [Ep _]. apply andb_true_iff in Ep as [Hk Hc].
    apply negb_true_iff in Hk. apply negb_true_iff in Hc.
    exact (Hr Hk Hc). }
  destruct ((Re.generalkeyword line || Re.comment line) && in_material l && g);
    exact Hok.
Qed.

Lemma scan_each (g : bool) (lines : list string) :
  forall n l,
    Forall (More.line_gives Pn Pb Pr) lines ->
    More.each Pn Pb Pr (l_materials l) ->
    match Scan.materials g n lines l with
    | Next l' | Break l' => More.each Pn Pb Pr (l_materials l')
    | Crash _ => True
    end.
Proof.
  induction lines as [|line rest IH]; intros n l Hlines Hok; [exact Hok|].
  inversion Hlines as [|? ? Hline Hrest]; subst.
  cbn [Scan.materials]. pose proof (body_each g n line l Hline Hok) as Hb.
  destruct (body g n line l) as [l1|l1|e]; [|exact Hb|exact I].
  apply IH; assumption.
Qed.

End Each.

(** A weaker requirement on names and rows holds where a stronger does. *)
Lemma each_impl (Pn Pb Qn Qb : string -> Prop) (Pr Qr : Row -> Prop) (h : Hierarchy) :
  (forall s, Pn s -> Qn s) -> (forall s, Pb s -> Qb s) -> (forall r, Pr r -> Qr r) ->
  More.each Pn Pb Pr h -> More.each Qn Qb Qr h.
Proof.
  intros Hn Hb Hr. unfold More.each. intros H.
  eapply Forall_impl; [|exact H]. intros [name bs] [H1 H2]. split; [auto|].
  eapply Forall_impl; [|exact H2]. intros [bname rows] [H3 H4]. split; [auto|].
  eapply Forall_impl; [|exact H4]. exact Hr.
Qed.

End EachFacts.

(* ================================================================== *)
(** ** Carriage returns *)

Module CrFacts.
Import PyStr Material.

Lemma word_not_cr (c : ascii) : is_word c = true -> Ascii.eqb c cr = false.
Proof. StrFacts.all_chars c. Qed.

Lemma name_char_not_cr (c : ascii) : Re.name_char c = true -> Ascii.eqb c cr = false.
Proof. StrFacts.all_chars c. Qed.

Lemma no_cr_cons (c : ascii) (s : string) :
  Wf.no_cr (String c s) = negb (Ascii.eqb c cr) && Wf.no_cr s.
Proof. reflexivity. Qed.

Lemma no_cr_drop_last (s : string) :
  Wf.no_cr s = true -> Wf.no_cr (drop_last s) = true.
Proof.
  induction s as [|c s IH]; [reflexivity|].
  rewrite no_cr_cons. intros H. apply andb_true_iff in H as [Hc Hs].
  destruct s as [|d s]; [reflexivity|].
  rewrite LineFacts.drop_last_cons, no_cr_cons, Hc, (IH Hs). reflexivity.
Qed.

Lemma no_cr_split (sep : ascii) (s : string) :
  Wf.no_cr s = true -> Forall (fun f => Wf.no_cr f = true) (split sep s).
Proof.
  induction s as [|c s IH]; [repeat constructor|].
  rewrite no_cr_cons. intros H. apply andb_true_iff in H as [Hc Hs].
  specialize (IH Hs). cbn [split]. destruct (Ascii.eqb c sep).
  - constructor; [reflexivity|exact IH].
  - destruct (split sep s) as [|f fs].
    + constructor; [|constructor]. rewrite no_cr_cons, Hc. reflexivity.
    + inversion IH as [|? ? Hf Hfs]; subst. constructor; [|exact Hfs].
      rewrite no_cr_cons, Hc, Hf. reflexivity.
Qed.

Lemma no_cr_join (row : Row) :
  Forall (fun f => Wf.no_cr f = true) row -> Wf.no_cr (join "," row) = true.
Proof.
  induction 1 as [|f fs Hf Hfs IH]; [reflexivity|].
  destruct fs as [|g fs]; [exact Hf|].
  rewrite StrFacts.join_cons by discriminate.
  rewrite !LineFacts.no_cr_app, Hf, IH. reflexivity.
Qed.

(** The name a material-start line gives is made of name characters. *)
Lemma captured_name_chars (line name : string) :
  Re.material line = Some name -> forallb_str Re.name_char name = true.
Proof.
  unfold Re.material.
  destruct (Re.match_nocase "*material, name=" line) as [rest|]; [|discriminate].
  pose proof (StrFacts.take_while_all Re.name_char rest) as Hall.
  destruct (take_while Re.name_char rest) as [|c name'] eqn:E; [discriminate|].
  intros H. injection H as <-. exact Hall.
Qed.

(** The name a behavior-start line gives is made of word characters. *)
Lemma captured_behavior_word (line bname : string) :
  Re.behavior line = Some bname -> forallb_str is_word bname = true.
Proof.
  unfold Re.behavior. destruct line as [|c0 rest]; [discriminate|].
  destruct (Ascii.eqb c0 star); [|discriminate].
  assert (Hword : forall pat r,
             forallb_str is_word pat = true -> String.length pat = 7 ->
             Re.match_nocase pat rest = Some r ->
             forallb_str is_word (substring 0 7 rest) = true).
  { intros pat r Hpat Hlen Hm.
    destruct (ReFacts.match_nocase_inv _ _ _ Hm) as (p & -> & Hl & Hp).
    rewrite <- Hlen, <- Hl, ReFacts.substring_all.
    apply (ReFacts.match_nocase_word pat); [exact Hpat|].
    rewrite <- (StrFacts.append_nil_r p) at 1. apply Hp. }
  destruct (Re.match_nocase "plastic" rest) as [r|] eqn:Ep.
  - intros H. injection H as <-. exact (Hword "plastic"%string r eq_refl eq_refl Ep).
  - destruct (Re.match_nocase "elastic" rest) as [r|] eqn:Ee; [|discriminate].
    intros H. injection H as <-. exact (Hword "elastic"%string r eq_refl eq_refl Ee).
Qed.

Lemma captured_name_no_cr (line name : string) :
  Re.material line = Some name -> Wf.no_cr name = true.
Proof.
  intros H. unfold Wf.no_cr.
  apply (StrFacts.forallb_str_impl Re.name_char); [|exact (captured_name_chars _ _ H)].
  intros c Hc. rewrite (name_char_not_cr c Hc). reflexivity.
Qed.

Lemma captured_behavior_no_cr (line bname : string) :
  Re.behavior line = Some bname -> Wf.no_cr bname = true.
Proof.
  intros H. unfold Wf.no_cr.
  apply (StrFacts.forallb_str_impl is_word); [|exact (captured_behavior_word _ _ H)].
  intros c Hc. rewrite (word_not_cr c Hc). reflexivity.
Qed.

(** A line without carriage return gives names and rows without. *)
Lemma line_gives_no_cr (line : string) :
  Wf.no_cr line = true ->
  More.line_gives (fun name => Wf.no_cr name = true)
    (fun bname => Wf.no_cr bname = true)
    (Forall (fun field => Wf.no_cr field = true)) line.
Proof.
  intros H. split; [|split].
  - intros name Hm. exact (captured_name_no_cr line name Hm).
  - intros bname Hb. exact (captured_behavior_no_cr line bname Hb).
  - intros _ _. apply no_cr_split, no_cr_drop_last. exact H.
Qed.

(** What [read] extracts from lines without carriage return has none. *)
Lemma loop_cr_free (g : bool) (lines : list string) (l : Locals) :
  Forall (fun line => Wf.no_cr line = true) lines ->
  loop g 0 lines locals0 = Ok l -> More.cr_free (l_materials l).
Proof.
  intros Hlines H. rewrite ScanFacts.loop_scan in H.
  assert (Hg : Forall (More.line_gives (fun name => Wf.no_cr name = true)
                         (fun bname => Wf.no_cr bname = true)
                         (Forall (fun field => Wf.no_cr field = true))) lines).
  { eapply Forall_impl; [|exact Hlines]. exact line_gives_no_cr. }
  pose proof (EachFacts.scan_each _ _ _ g lines 0%Z locals0 Hg ltac:(constructor)) as Hs.
  destruct (Scan.materials g 0 lines locals0); [| |discriminate];
    injection H as <-; exact Hs.
Qed.

(** The serializer writes no carriage return of its own. *)
Lemma serialize_no_cr (h : Hierarchy) :
  More.cr_free h -> Forall (fun line => Wf.no_cr line = true) (Spec.serialize h).
Proof.
  unfold More.cr_free, More.each, Spec.serialize.
  induction 1 as [|[name bs] h [Hname Hbs] _ IH]; [constructor|].
  cbn [flat_map fst snd] in *. unfold Spec.serialize_material at 1. cbn [fst snd].
  constructor.
  - rewrite !LineFacts.no_cr_app, Hname. reflexivity.
  - apply Forall_app. split; [|exact IH]. clear IH.
    induction Hbs as [|[bname rows] bs [Hbname Hrows] _ IHb]; [constructor|].
    cbn [flat_map fst snd] in *. unfold Spec.serialize_behavior at 1. cbn [fst snd].
    constructor.
    + rewrite !LineFacts.no_cr_app, Hbname. reflexivity.
    + apply Forall_app. split; [|exact IHb].
      induction Hrows as [|row rows Hrow _ IHr]; constructor; [|exact IHr].
      unfold Spec.serialize_row. rewrite LineFacts.no_cr_app, (no_cr_join row Hrow).
      reflexivity.
Qed.

End CrFacts.

(* ================================================================== *)
(** ** Reading, writing and reading again *)

Module RoundTrip.
Import PyStr Material.

Lemma set_not_nil {V : Type} (k : string) (v : V) (d : Dict.t V) : Dict.set k v d <> [].
Proof.
  destruct d as [|[k' v'] d]; simpl; [discriminate|].
  destruct (String.eqb k' k); discriminate.
Qed.

Lemma body_populated (g : bool) (n : Z) (line : string) (l : Locals) :
  Wf.populated l ->
  match body g n line l with
  | Next l' | Break l' => Wf.populated l'
  | Crash _ => True
  end.
Proof.
  intros Hl. unfold body, local, subscript, Wf.populated in *.
  destruct (Re.material line); [intros _; apply set_not_nil|].
  destruct (Re.behavior line).
  { destruct (material_name l); [|exact I].
    destruct (Dict.get _ _); [|exact I]. intros _. apply set_not_nil. }
  destruct (negb _ && negb _ && in_material l).
  { destruct (material_name l); [|exact I].
    destruct (Dict.get _ _) as [bs|]; [|exact I].
    destruct (behavior_name l); [|exact I].
    destruct (Dict.get _ bs); [|exact I]. intros _. apply set_not_nil. }
  destruct ((_ || _) && in_material l && g); exact Hl.
Qed.

Lemma scan_populated (g : bool) (lines : list string) :
  forall n l,
    Wf.populated l ->
    match Scan.materials g n lines l with
    | Next l' | Break l' => Wf.populated l'
    | Crash _ => True
    end.
Proof.
  induction lines as [|line rest IH]; intros n l Hl; [exact Hl|].
  cbn [Scan.materials]. pose proof (body_populated g n line l Hl) as Hb.
  destruct (body g n line l) as [l1|l1|e]; [|exact Hb|exact I].
  apply IH. exact Hb.
Qed.

(** Inside the block [begin] stays what it is, however the loop ends. *)
Lemma scan_keeps_begin (g : bool) (lines : list string) :
  forall n l,
    in_material l = true ->
    match Scan.materials g n lines l with
    | Next l' | Break l' => l_begin l' = l_begin l
    | Crash _ => True
    end.
Proof.
  induction lines as [|line rest IH]; intros n l Hin; [reflexivity|].
  cbn [Scan.materials]. destruct (body g n line l) as [l1|l1|e] eqn:Hb.
  - apply ScanFacts.body_next in Hb as (_ & _ & Hkeep).
    destruct (Hkeep Hin) as [Hin1 Hbg1]. specialize (IH (n + 1)%Z l1 Hin1).
    destruct (Scan.materials g (n + 1) rest l1); try rewrite IH; auto.
  - apply ScanFacts.body_break in Hb as (_ & _ & _ & ->). reflexivity.
  - exact I.
Qed.

(** The shape of a file that [read] accepts, in either mode. *)
Lemma block_shape (g : bool) (lines : list string) (l' : Locals) (b e : Z) :
  loop g 0 lines locals0 = Ok l' ->
  l_begin l' = Some b -> Scan.material_end l' = Some e ->
  exists pre m rest l1,
    lines = pre ++ m :: rest
    /\ b = Z.of_nat (length pre)
    /\ Scan.materials g 0 pre locals0 = Next l1
    /\ in_material l1 = false /\ l_materials l1 = [] /\ l_end l1 = None
    /\ (e = (Z.of_nat (length lines) - 1)%Z
        \/ (g = true
            /\ exists blk s post,
                rest = blk ++ s :: post
                /\ Spec.closes_materials s = true
                /\ e = Z.of_nat (length pre + length blk))).
Proof.
  intros H Hb He.
  destruct (ScanFacts.split_first Spec.is_material_start lines)
    as [Hnone | (pre & m & rest & Hlines & Hpre & Hm)].
  { rewrite ScanFacts.loop_scan in H.
    pose proof (ScanFacts.scan_outside g lines 0%Z locals0 eq_refl eq_refl Hnone) as Ho.
    destruct (Scan.materials g 0 lines locals0) as [l1|l1|x];
      [|contradiction|discriminate].
    injection H as <-. destruct Ho as (_ & _ & _ & Hbg & _).
    rewrite Hbg in Hb. discriminate. }
  pose proof H as Hloop. rewrite ScanFacts.loop_scan, Hlines, ScanFacts.scan_app in H.
  pose proof (ScanFacts.scan_outside g pre 0%Z locals0 eq_refl eq_refl Hpre) as Ho.
  destruct (Scan.materials g 0 pre locals0) as [l1|l1|x] eqn:Hs1;
    [|contradiction|discriminate].
  destruct Ho as (Hin1 & Hname1 & Hmat1 & Hbg1 & _).
  pose proof (ScanFacts.scan_next _ _ _ _ _ Hs1) as (Hend1 & _ & _).
  unfold Spec.is_material_start in Hm.
  destruct (Re.material m) as [name|] eqn:Hmat; [|discriminate].
  cbn [Scan.materials] in H.
  rewrite (ScanFacts.body_material g _ m name l1 Hmat), Hin1 in H.
  match type of H with
  | context [Scan.materials g ?n rest ?st] =>
      pose proof (scan_keeps_begin g rest n st eq_refl) as Hkeep
  end.
  assert (Hbeq : b = Z.of_nat (length pre)).
  { destruct (Scan.materials g _ rest _) as [l2|l2|x]; [| |discriminate];
      injection H as <-; cbn [l_begin] in Hkeep; rewrite Hkeep in Hb;
      injection Hb as <-; lia. }
  exists pre, m, rest, l1. repeat split; auto.
  destruct g.
  - destruct (ScanFacts.strict_block lines l' b Hloop Hb)
      as (pre' & m' & rest' & Hlines' & _ & _ & Hb' & Hcases).
    assert (Hpp : pre' = pre /\ rest' = rest).
    { assert (Hlen : length pre' = length pre) by lia.
      rewrite Hlines in Hlines'.
      assert (Hf : firstn (length pre) (pre ++ m :: rest)
                   = firstn (length pre) (pre' ++ m' :: rest')) by congruence.
      rewrite firstn_app, firstn_all, Nat.sub_diag in Hf. cbn [firstn] in Hf.
      rewrite <- Hlen, firstn_app, firstn_all, Nat.sub_diag in Hf. cbn [firstn] in Hf.
      rewrite !app_nil_r in Hf. subst pre'. apply app_inv_head in Hlines'.
      injection Hlines' as _ Hr. auto. }
    destruct Hpp as [-> ->].
    destruct Hcases as [(blk & s & post & Hrest & _ & Hs & Hend & _) | (_ & Hend)].
    + right. split; [reflexivity|]. exists blk, s, post. repeat split; auto.
      congruence.
    + left. congruence.
  - left. rewrite Hlines in Hloop.
    pose proof (ScanFacts.permissive_end (pre ++ m :: rest) l'
                  ltac:(destruct pre; discriminate) Hloop) as Hend.
    rewrite Hlines. congruence.
Qed.

(** Where [read] found the hierarchy [h] in the range [(b, e)], it finds
    [h] again once the lines of the range are replaced by the serialized
    [h], in the range these take. *)
Lemma reread (g : bool) (lines : list string) (l' : Locals) (b e : Z) :
  Forall (fun line => Wf.no_nl (drop_last line) = true) lines ->
  loop g 0 lines locals0 = Ok l' ->
  l_begin l' = Some b -> Scan.material_end l' = Some e ->
  let h := l_materials l' in
  (0 <= b < Z.of_nat (length lines))%Z /\ (0 <= e + 1)%Z /\ Spec.serialize h <> []
  /\ exists l'',
      loop g 0 (firstn (Z.to_nat b) lines ++ Spec.serialize h
                ++ skipn (Z.to_nat (e + 1)) lines) locals0 = Ok l''
      /\ l_materials l'' = h /\ l_begin l'' = Some b
      /\ Scan.material_end l''
         = Some (b + Z.of_nat (length (Spec.serialize h)) - 1)%Z.
Proof.
  intros Hnl H Hb He. cbv zeta.
  assert (Hok : Wf.hierarchy_ok (l_materials l')).
  { pose proof (WfFacts.scan_ok g lines 0%Z locals0 Hnl WfFacts.hierarchy_ok_nil) as Hs.
    rewrite ScanFacts.loop_scan in H.
    destruct (Scan.materials g 0 lines locals0); [| |discriminate];
      injection H as <-; exact Hs. }
  assert (Hne : l_materials l' <> []).
  { pose proof (scan_populated g lines 0%Z locals0 ltac:(intros X; exfalso; exact (X eq_refl))) as Hs.
    rewrite ScanFacts.loop_scan in H.
    destruct (Scan.materials g 0 lines locals0); [| |discriminate];
      injection H as <-; apply Hs; congruence. }
  assert (Hser : Spec.serialize (l_materials l') <> []).
  { destruct (l_materials l') as [|item h]; [congruence|]. discriminate. }
  destruct (block_shape g lines l' b e H Hb He)
    as (pre & m & rest & l1 & Hlines & -> & Hs1 & Hin1 & Hmat1 & Hend1 & Htail).
  split; [rewrite Hlines, length_app; simpl; lia|]. split; [destruct Htail as [-> | (_ & blk & s & post & _ & _ & ->)]; lia|].
  split; [exact Hser|].
  rewrite Nat2Z.id.
  assert (Hfirst : firstn (length pre) lines = pre).
  { rewrite Hlines, firstn_app, firstn_all, Nat.sub_diag. cbn [firstn].
    apply app_nil_r. }
  rewrite Hfirst.
  destruct Hok as [Hnd Hall].
  destruct (RescanFacts.rescan_materials g (l_materials l')
              (0 + Z.of_nat (length pre))%Z l1 [] Hmat1 Hnd Hall)
    as (l2 & Hs2 & Hmat2 & Hin2).
  destruct (Hin2 Hne) as [Hin2' Hbg2]. rewrite Hin1 in Hbg2.
  pose proof (ScanFacts.scan_next _ _ _ _ _ Hs2) as (Hend2 & Hln2 & _).
  specialize (Hln2 Hser).
  assert (Hscan : forall after,
             Scan.materials g 0 (pre ++ Spec.serialize (l_materials l') ++ after) locals0
             = Scan.materials g
                 (0 + Z.of_nat (length pre)
                  + Z.of_nat (length (Spec.serialize (l_materials l'))))%Z after l2).
  { intros after. rewrite ScanFacts.scan_app, Hs1, ScanFacts.scan_app, Hs2. reflexivity. }
  destruct Htail as [-> | (-> & blk & s & post & Hrest & Hs & ->)].
  - (* the block ran to the end of the text *)
    replace (Z.to_nat (Z.of_nat (length lines) - 1 + 1)) with (length lines) by lia.
    rewrite skipn_all. exists l2.
    rewrite ScanFacts.loop_scan, Hscan. cbn [Scan.materials].
    split; [reflexivity|]. split; [exact Hmat2|]. split; [rewrite Hbg2; f_equal; try lia|].
    unfold Scan.material_end. rewrite Hend2, Hend1, Hln2. f_equal; try lia.
  - (* a closing line follows the block *)
    assert (Hskip : skipn (Z.to_nat (Z.of_nat (length pre + length blk) + 1)) lines
                    = s :: post).
    { rewrite Hlines, Hrest.
      replace (Z.to_nat (Z.of_nat (length pre + length blk) + 1))
        with (length (pre ++ m :: blk)) by (rewrite length_app; simpl; lia).
      replace (pre ++ m :: blk ++ s :: post) with ((pre ++ m :: blk) ++ s :: post)
        by (rewrite <- app_assoc; reflexivity).
      rewrite skipn_app, skipn_all, Nat.sub_diag. reflexivity. }
    rewrite Hskip.
    eexists. rewrite ScanFacts.loop_scan, Hscan. cbn [Scan.materials].
    rewrite (ScanFacts.body_closes _ s l2 Hin2' Hs).
    split; [reflexivity|]. cbn [l_materials l_begin].
    split; [exact Hmat2|]. split; [rewrite Hbg2; f_equal; try lia|].
    unfold Scan.material_end. cbn [l_end]. f_equal; try lia.
Qed.

(** What the serializer writes are complete lines. *)
Lemma serialize_complete (h : Hierarchy) :
  Wf.hierarchy_ok h -> Forall Wf.complete (Spec.serialize h).
Proof.
  intros [_ Hall]. unfold Spec.serialize.
  induction Hall as [|[name bs] h [[_ Hname] [_ Hbs]] _ IH]; [constructor|].
  cbn [flat_map fst snd] in *. unfold Spec.serialize_material at 1. cbn [fst snd].
  constructor.
  - exists ("*Material, name=" ++ name)%string. split.
    + rewrite StrFacts.append_assoc. reflexivity.
    + rewrite StrFacts.no_nl_app, Hname. reflexivity.
  - apply Forall_app. split; [|exact IH]. clear IH.
    induction Hbs as [|[bname rows] bs [(_ & _ & Hbname) Hrows] _ IHb]; [constructor|].
    cbn [flat_map fst snd] in *. unfold Spec.serialize_behavior at 1. cbn [fst snd].
    constructor.
    + exists ("*" ++ bname)%string. split.
      * rewrite StrFacts.append_assoc. reflexivity.
      * rewrite StrFacts.no_nl_app, Hbname. reflexivity.
    + apply Forall_app. split; [|exact IHb].
      induction Hrows as [|row rows (s & -> & Hs & _) _ IHr]; constructor; [|exact IHr].
      exists s. unfold Spec.serialize_row. rewrite StrFacts.join_split. auto.
Qed.

End RoundTrip.

(* ================================================================== *)
(** ** The serializer and the splicer *)

Module WriteFacts.
Import PyStr Material.

Lemma format_rows_spec (rows : list Row) :
  forall acc, format_rows acc rows = acc ++ map Spec.serialize_row rows.
Proof.
  unfold format_rows.
  induction rows as [|row rows IH]; intros acc; simpl.
  - rewrite app_nil_r. reflexivity.
  - rewrite IH, <- app_assoc. reflexivity.
Qed.

Lemma format_behaviors_spec (bs : Behaviors) :
  forall acc, format_behaviors acc bs = acc ++ flat_map Spec.serialize_behavior bs.
Proof.
  unfold format_behaviors.
  induction bs as [|[bname rows] bs IH]; intros acc; simpl.
  - rewrite app_nil_r. reflexivity.
  - rewrite IH. fold (format_rows (acc ++ [("*" ++ bname ++ nl)%string]) rows).
    rewrite format_rows_spec. unfold Spec.serialize_behavior. simpl.
    rewrite <- !app_assoc. reflexivity.
Qed.

Lemma format_materials_spec (h : Hierarchy) :
  format_materials h = Spec.serialize h.
Proof.
  unfold format_materials.
  assert (H : forall acc,
             fold_left
               (fun acc item =>
                  format_behaviors
                    (acc ++ [("*Material, name=" ++ fst item ++ nl)%string])
                    (snd item)) h acc
             = acc ++ Spec.serialize h).
  { induction h as [|[name bs] h IH]; intros acc; simpl.
    - rewrite app_nil_r. reflexivity.
    - rewrite IH, format_behaviors_spec. unfold Spec.serialize_material. simpl.
      rewrite <- !app_assoc. reflexivity. }
  apply (H []).
Qed.

(** [write] on a populated instance that was read from a file. *)
Lemma write_unfold (out : option string) (self : t) (w : World) (text : string) (e : Z) :
  materials self <> [] -> st_read (state self) = true ->
  st_end (state self) = Some e -> files w (inp_file self) = Some text ->
  let old := readlines text in
  let before := match st_begin (state self) with
                | Some b => lslice_to old b
                | None => old
                end in
  let target := given_or (mod_name (inp_file self)) out in
  write out self w =
  (Ok tt, self,
   Scan.reported target
     (Scan.written target
        (concat_lines (before ++ format_materials (materials self)
                       ++ lslice_from old (e + 1)))
        (Scan.announced target w))).
Proof.
  intros Hne Hread Hend Hfile. cbv zeta.
  unfold write, bind, get_self.
  destruct (materials self) as [|item h] eqn:Hm; [congruence|].
  rewrite Hread. unfold read_text. rewrite Hfile, Hend.
  cbv beta iota delta [ret __format bind get_self].
  rewrite ReadFacts.validate_write. cbv beta iota.
  rewrite Hm. reflexivity.
Qed.

(** [remove] once the read of its own instance went through. *)
Lemma remove_unfold (inp : string) (out : option string) (w : World) (text : string)
      (l : Locals) (b e : Z) :
  files w inp = Some text -> text <> EmptyString ->
  loop false 0 (readlines text) locals0 = Ok l ->
  l_begin l = Some b -> Scan.material_end l = Some e ->
  let old := readlines text in
  let target := given_or (mod_name inp) out in
  remove inp out w =
  (Ok tt,
   Scan.written target (concat_lines (lslice_to old b ++ lslice_from old (e + 1)))
     (Scan.announced target (Scan.remarked inp w))).
Proof.
  intros Hfile Htext Hloop Hb He. cbv zeta. unfold remove. rewrite Hfile.
  rewrite (ReadFacts.read_unfold inp text (init false) w eq_refl Hfile Htext).
  cbn [is_greedy init]. rewrite Hloop, He, Hb. cbn [state st_begin st_end].
  cbv beta iota delta [bind]. rewrite ReadFacts.validate_write. reflexivity.
Qed.

Lemma cut_not_nil (text : string) : text <> EmptyString -> cut_lines text <> [].
Proof.
  destruct text as [|c text]; [congruence|]. intros _. cbn [cut_lines].
  destruct (Ascii.eqb c newline); [discriminate|].
  destruct (cut_lines text); discriminate.
Qed.

Lemma universal_not_empty (text : string) :
  text <> EmptyString -> universal text <> EmptyString.
Proof.
  destruct text as [|c text]; [congruence|]. intros _. cbn [universal].
  destruct (Ascii.eqb c cr); [|discriminate].
  destruct text as [|d text]; [discriminate|].
  destruct (Ascii.eqb d newline); [|discriminate].
  cbn [universal]. destruct (Ascii.eqb d cr); [|discriminate].
  destruct text as [|d' text]; [discriminate|].
  destruct (Ascii.eqb d' newline) eqn:E; [|discriminate].
  intros H. apply (f_equal String.length) in H.
  destruct (universal (String d' text)) eqn:U; [|discriminate].
  cbn [universal] in U. destruct (Ascii.eqb d' cr) eqn:E2.
  { apply Ascii.eqb_eq in E, E2. subst. discriminate. }
  discriminate.
Qed.

Lemma readlines_not_nil (text : string) : text <> EmptyString -> readlines text <> [].
Proof.
  intros H. apply cut_not_nil, universal_not_empty. exact H.
Qed.

(** The serializer spelled out from the specification is the one built
    on [join]. *)
Lemma fields_text_join (row : Row) : Spec.fields_text row = join "," row.
Proof.
  induction row as [|f rest IH]; [reflexivity|].
  destruct rest as [|g rest]; [reflexivity|].
  rewrite StrFacts.join_cons by discriminate.
  cbn [Spec.fields_text] in *. rewrite IH. reflexivity.
Qed.

Lemma rows_lines_map (rows : list Row) :
  Spec.rows_lines rows = map Spec.serialize_row rows.
Proof.
  induction rows as [|row rows IH]; [reflexivity|].
  cbn [Spec.rows_lines map]. unfold Spec.serialize_row at 1.
  rewrite IH, fields_text_join. reflexivity.
Qed.

Lemma behaviors_lines_flat (bs : Behaviors) :
  Spec.behaviors_lines bs = flat_map Spec.serialize_behavior bs.
Proof.
  induction bs as [|[bname rows] bs IH]; [reflexivity|].
  cbn [Spec.behaviors_lines flat_map]. unfold Spec.serialize_behavior at 1.
  cbn [fst snd]. rewrite IH, rows_lines_map. reflexivity.
Qed.

Lemma emitted_serialize (h : Hierarchy) : Spec.emitted h = Spec.serialize h.
Proof.
  unfold Spec.serialize. induction h as [|[name bs] h IH]; [reflexivity|].
  cbn [Spec.emitted flat_map]. unfold Spec.serialize_material at 1. cbn [fst snd].
  rewrite IH, behaviors_lines_flat. reflexivity.
Qed.

End WriteFacts.

(* ================================================================== *)
(** ** The loop of [Geometry.read] *)

Module NodeFacts.
Import PyStr Geometry.

Lemma node_loop_scan (lines : list string) :
  forall n l,
    loop n lines l =
    match Scan.nodes n lines l with
    | Next l' | Break l' => l'
    end.
Proof.
  induction lines as [|line rest IH]; intros n l; simpl; [reflexivity|].
  destruct (body n line l); auto.
Qed.

Lemma node_scan_app (l1 l2 : list string) :
  forall n l,
    Scan.nodes n (l1 ++ l2) l =
    match Scan.nodes n l1 l with
    | Next l' => Scan.nodes (n + Z.of_nat (length l1))%Z l2 l'
    | other => other
    end.
Proof.
  induction l1 as [|line rest IH]; intros n l.
  - simpl. rewrite Z.add_0_r. reflexivity.
  - cbn [app Scan.nodes length]. destruct (body n line l); auto.
    rewrite IH. replace (n + 1 + Z.of_nat (length rest))%Z
      with (n + Z.of_nat (S (length rest)))%Z by lia.
    reflexivity.
Qed.

(** Before the first node-start line nothing happens. *)
Lemma node_scan_outside (pre : list string) :
  forall n l,
    in_node l = false -> Forall (fun x => Re.node x = false) pre ->
    exists l1,
      Scan.nodes n pre l = Next l1
      /\ in_node l1 = false /\ l_end l1 = l_end l /\ l_nodes l1 = l_nodes l.
Proof.
  induction pre as [|line rest IH]; intros n l Hin Hpre.
  - exists l. auto.
  - inversion Hpre as [|? ? Hline Hrest]; subst.
    cbn [Scan.nodes]. unfold body. rewrite Hline, Hin, !andb_false_r.
    apply (IH (n + 1)%Z (mkLocals false (l_nodes l) (l_begin l) (l_end l) (Some n))
              eq_refl Hrest).
Qed.

(** Inside the block, lines that do not close it keep the loop going. *)
Lemma node_scan_inside (blk : list string) :
  forall n l,
    in_node l = true -> l_begin l <> None ->
    Forall (fun x => Spec.closes_nodes x = false) blk ->
    exists l1,
      Scan.nodes n blk l = Next l1
      /\ in_node l1 = true /\ l_end l1 = l_end l /\ l_begin l1 <> None.
Proof.
  induction blk as [|line rest IH]; intros n l Hin Hbg Hblk.
  - exists l. auto.
  - inversion Hblk as [|? ? Hline Hrest]; subst.
    cbn [Scan.nodes]. unfold body. unfold Spec.closes_nodes in Hline.
    destruct (Re.node line) eqn:Hnode.
    + apply (IH (n + 1)%Z (mkLocals true (l_nodes l) (Some n) (l_end l) (Some n))
                eq_refl ltac:(discriminate) Hrest).
    + rewrite andb_true_r in Hline. rewrite Hline, Hin.
      apply orb_false_iff in Hline as [-> ->]. simpl.
      apply (IH (n + 1)%Z
                (mkLocals true (l_nodes l ++ [split comma (drop_last line)])
                   (l_begin l) (l_end l) (Some n))
                eq_refl Hbg Hrest).
Qed.

(** A closing line met inside the block ends the loop, whatever the
    instance. *)
Lemma node_body_closes (n : Z) (line : string) (l : Locals) :
  in_node l = true -> Spec.closes_nodes line = true ->
  body n line l =
  Break (mkLocals (in_node l) (l_nodes l) (l_begin l) (Some (n - 1)%Z) (Some n)).
Proof.
  unfold Spec.closes_nodes. intros Hin H.
  apply andb_true_iff in H as [Hk Hn]. apply negb_true_iff in Hn.
  unfold body. rewrite Hn, Hin, Hk.
  assert (Hp : negb (Re.generalkeyword line) && negb (Re.comment line) = false).
  { apply orb_true_iff in Hk as [-> | ->]; simpl; auto using andb_false_r. }
  rewrite Hp. reflexivity.
Qed.

Lemma closed_block (pre blk post : list string) (m s : string) :
  Forall (fun x => Re.node x = false) pre -> Re.node m = true ->
  Forall (fun x => Spec.closes_nodes x = false) blk ->
  Spec.closes_nodes s = true ->
  let l := loop 0 (pre ++ m :: blk ++ s :: post) locals0 in
  l_end l = Some (Z.of_nat (length pre + 1 + length blk) - 1)%Z
  /\ l_begin l <> None.
Proof.
  intros Hpre Hm Hblk Hs. cbv zeta.
  assert (Hl : exists l2,
             loop 0 (pre ++ m :: blk ++ s :: post) locals0
             = mkLocals (in_node l2) (l_nodes l2) (l_begin l2)
                 (Some (0 + Z.of_nat (length pre) + 1 + Z.of_nat (length blk) - 1)%Z)
                 (Some (0 + Z.of_nat (length pre) + 1 + Z.of_nat (length blk))%Z)
             /\ l_begin l2 <> None).
  { rewrite node_loop_scan, node_scan_app.
    destruct (node_scan_outside pre 0%Z locals0 eq_refl Hpre) as (l1 & -> & Hin1 & _ & _).
    cbn [Scan.nodes]. unfold body at 1. rewrite Hm.
    rewrite node_scan_app.
    destruct (node_scan_inside blk (0 + Z.of_nat (length pre) + 1)%Z
                (mkLocals true (l_nodes l1) (Some (0 + Z.of_nat (length pre))%Z)
                   (l_end l1) (Some (0 + Z.of_nat (length pre))%Z))
                eq_refl ltac:(discriminate) Hblk)
      as (l2 & -> & Hin2 & _ & Hbg2).
    cbn [Scan.nodes]. rewrite (node_body_closes _ s l2 Hin2 Hs).
    exists l2. split; [reflexivity | exact Hbg2]. }
  destruct Hl as (l2 & -> & Hbg2). simpl.
  split; [f_equal; lia | exact Hbg2].
Qed.

Lemma node_read_unfold (inp text : string) (self : t) (w : World) :
  st_read (state self) = false ->
  files w inp = Some text -> text <> EmptyString ->
  read inp self w =
  let l := loop 0 (readlines text) locals0 in
  match Scan.node_end l with
  | None => (Raise (UnboundLocalError "line_number"), self, Scan.remarked inp w)
  | Some e =>
      match l_begin l with
      | None =>
          (Raise (UnboundLocalError "begin"),
           mk inp (state self) (l_nodes l), Scan.remarked inp w)
      | Some b =>
          (Ok tt, mk inp (mkState (Some b) (Some e) true) (l_nodes l),
           Scan.remarked inp w)
      end
  end.
Proof.
  intros Hread Hfile Htext.
  unfold read, bind, get_self. rewrite Hread, ReadFacts.validate_read, Hfile.
  apply String.eqb_neq in Htext. rewrite Htext.
  unfold read_text. rewrite ReadFacts.files_remarked, Hfile.
  cbv zeta. unfold Scan.node_end, lift, Material.local, ret.
  destruct (l_end (loop 0 (readlines text) locals0)) as [e|];
    [|destruct (line_number (loop 0 (readlines text) locals0)) as [e|]; [|reflexivity]];
    destruct (l_begin (loop 0 (readlines text) locals0)); reflexivity.
Qed.

End NodeFacts.

(* ================================================================== *)
(** ** Node scaling *)

Module ScaleFacts.
Import Geometry.

Section WithPython.
Variable pyfloat : string -> option float.
Variable pystr : float -> string.
Variable factor : float.

Lemma scaled_field_numeric (field : string) (x : float) :
  pyfloat field = Some x ->
  Spec.scaled_field pyfloat pystr factor field
  = (" " ++ pystr (PrimFloat.mul x factor))%string.
Proof. intros H. unfold Spec.scaled_field. rewrite H. reflexivity. Qed.

Lemma scale_coordinates_numeric (coordinates : list string) :
  Forall (fun coordinate => pyfloat coordinate <> None) coordinates ->
  scale_coordinates pyfloat pystr factor coordinates
  = (map (Spec.scaled_field pyfloat pystr factor) coordinates, None).
Proof.
  induction 1 as [|c cs Hc Hcs IH]; [reflexivity|].
  destruct (pyfloat c) as [x|] eqn:E; [|congruence].
  cbn [scale_coordinates map]. rewrite E, IH, (scaled_field_numeric c x E).
  reflexivity.
Qed.

Lemma scale_node_numeric (node : Row) :
  Spec.numeric pyfloat node ->
  scale_node pyfloat pystr factor node
  = (Spec.scaled_row pyfloat pystr factor node, None).
Proof.
  destruct node as [|ident coordinates]; [reflexivity|].
  unfold Spec.numeric. simpl. intros H. rewrite (scale_coordinates_numeric _ H). reflexivity.
Qed.

Lemma scale_nodes_numeric (ns : list Row) :
  Forall (Spec.numeric pyfloat) ns ->
  scale_nodes pyfloat pystr factor ns
  = (map (Spec.scaled_row pyfloat pystr factor) ns, None).
Proof.
  induction 1 as [|node rest Hn Hrest IH]; [reflexivity|].
  simpl. rewrite (scale_node_numeric _ Hn), IH. reflexivity.
Qed.

End WithPython.

End ScaleFacts.

(* ================================================================== *)
(** ** The block locator *)

(** C1.  Strict-mode block location.  A read in strict mode that goes
    through records as ['begin'] the zero-based index of the first line
    matching the material-start pattern; when a keyword-line or comment-line
    (one that opens neither a material nor a behavior: those belong to the
    block) is met inside the block, ['end'] is that line's index minus 1 and
    the lines after it are not read; when the loop runs to the end of the
    file, ['end'] is the index of the last line.  For the five lines of the
    example, ['begin'] is 0 and ['end'] is 2. *)
Theorem strict_block_location :
  (forall inp self self' w w',
      Material.is_greedy self = true ->
      Material.read inp self w = (Ok tt, self', w') ->
      exists text b e,
        files w inp = Some text
        /\ Material.st_begin (Material.state self') = Some b
        /\ Material.st_end (Material.state self') = Some e
        /\ Range.strict (PyStr.readlines text) b e)
  /\ PyStr.readlines Example.text = Example.lines
  /\ (forall inp w,
         files w inp = Some Example.text ->
         Material.read inp (Material.init true) w
         = (Ok tt,
            Material.mk inp (Material.mkState (Some 0%Z) (Some 2%Z) true)
              Example.hierarchy true,
            Scan.remarked inp w)).
Proof.
  split; [|split].
  - intros inp self self' w w' Hg H.
    apply ReadFacts.read_inv in H as (_ & text & l & b & e & Hf & _ & Hl & Hb & He & -> & _).
    exists text, b, e. repeat split; auto.
    rewrite Hg in Hl.
    destruct (ScanFacts.strict_block _ _ _ Hl Hb)
      as (pre & m & rest & Hlines & Hpre & Hm & -> & Hcases).
    exists pre, m, rest. repeat split; auto.
    destruct Hcases as [(blk & s & post & -> & Hblk & Hs & Hend & Hpost) | (Hopen & Hend)].
    + left. exists blk, s, post. repeat split; auto.
      * rewrite He in Hend. injection Hend as ->. lia.
      * intros post'. rewrite Hpost. symmetry. exact Hl.
    + right. split; [exact Hopen|]. rewrite He in Hend. injection Hend as ->. reflexivity.
  - reflexivity.
  - intros inp w Hf.
    rewrite (ReadFacts.read_unfold inp Example.text (Material.init true) w eq_refl Hf)
      by discriminate.
    reflexivity.
Qed.

Lemma strict_block_location_example :
  Material.is_greedy (Material.init true) = true
  /\ Material.read "job.inp" (Material.init true) Example.world
     = (Ok tt,
        Material.mk "job.inp" (Material.mkState (Some 0%Z) (Some 2%Z) true)
          Example.hierarchy true,
        Example.world)
  /\ exists text b e,
      files Example.world "job.inp" = Some text
      /\ Some 0%Z = Some b /\ Some 2%Z = Some e
      /\ Range.strict (PyStr.readlines text) b e.
Proof.
  split; [reflexivity|]. split; [reflexivity|].
  exact (proj1 strict_block_location "job.inp"%string (Material.init true)
           Example.read_strict Example.world Example.world eq_refl eq_refl).
Defined.

(** C5, as amended.  In permissive mode ([from_Abaqus=False]) the locator
    never stops early: a read that goes through has read every line, and
    ['end'] is the index of the last line of the file, whatever
    keyword-lines or comment-lines occur inside the block. *)
Theorem permissive_block_runs_to_end :
  forall inp self self' w w',
    Material.is_greedy self = false ->
    Material.read inp self w = (Ok tt, self', w') ->
    exists text,
      files w inp = Some text
      /\ Material.st_end (Material.state self')
         = Some (Z.of_nat (length (PyStr.readlines text)) - 1)%Z.
Proof.
  intros inp self self' w w' Hg H.
  apply ReadFacts.read_inv in H as (_ & text & l & b & e & Hf & Ht & Hl & Hb & He & -> & _).
  exists text. split; [exact Hf|]. simpl. rewrite <- He. rewrite Hg in Hl.
  apply ScanFacts.permissive_end; [|exact Hl].
  apply WriteFacts.readlines_not_nil. exact Ht.
Qed.

Lemma permissive_block_runs_to_end_example :
  Material.is_greedy (Material.init false) = false
  /\ Material.read "job.inp" (Material.init false) Example.world
     = (Ok tt,
        Material.mk "job.inp" (Material.mkState (Some 0%Z) (Some 4%Z) true)
          [("A", [("Elastic", [["1"; "0.3"]; ["..."]])])]%string false,
        Example.world)
  /\ exists text,
      files Example.world "job.inp" = Some text
      /\ Some 4%Z = Some (Z.of_nat (length (PyStr.readlines text)) - 1)%Z.
Proof.
  split; [reflexivity|]. split; [reflexivity|].
  exact (permissive_block_runs_to_end "job.inp" (Material.init false)
           Example.read_permissive Example.world Example.world eq_refl eq_refl).
Defined.

(** C5, as stated, fails: on the example read in permissive mode the
    closing line [*Step] at index 3 is met inside the block, yet ['end'] is 4
    and not 2. *)
Lemma permissive_like_strict_refuted : ~ Range.permissive_like_strict.
Proof.
  intros H.
  specialize (H "job.inp"%string (Material.init false) Example.read_permissive
                Example.world Example.world
                Example.text []
                ("*Material, name=A" ++ PyStr.nl)%string
                [("*Elastic" ++ PyStr.nl)%string; ("1,0.3" ++ PyStr.nl)%string]
                ("*Step" ++ PyStr.nl)%string
                [("..." ++ PyStr.nl)%string]
                eq_refl (proj1 (proj2 permissive_block_runs_to_end_example))
                eq_refl eq_refl).
  assert (Hend : Some 4%Z = Some 2%Z).
  { apply H; repeat constructor. }
  discriminate.
Qed.

(* ================================================================== *)
(** ** The serializer, the splicer and the write guard *)

(** C3.  The serializer.  [__format] returns, for every hierarchy, the
    lines of the specification: in insertion order one line
    [*Material, name=<name>] per material, one line [*<BehaviorName>] per
    behavior under it and one line per row, the row's fields with a comma
    between any two of them, each line ending in a newline; it returns no
    line for an empty hierarchy; it changes neither the instance nor the
    world, and its result depends on the hierarchy alone.  For the materials
    [Steel], with an elastic behavior of one row and a plastic behavior of
    two, and [Foam], without behavior, these are seven lines. *)
Theorem format_serializes (self : Material.t) (w : World) :
  Material.__format self w = (Ok (Spec.emitted (Material.materials self)), self, w)
  /\ (Material.materials self = [] -> Material.__format self w = (Ok [], self, w))
  /\ (forall self' w',
         Material.materials self' = Material.materials self ->
         fst (fst (Material.__format self' w')) = fst (fst (Material.__format self w)))
  /\ (Material.materials self = Example.steel_foam ->
      Material.__format self w = (Ok Example.steel_foam_lines, self, w)).
Proof.
  assert (H : forall s v,
             Material.__format s v = (Ok (Spec.emitted (Material.materials s)), s, v)).
  { intros s v. unfold Material.__format, bind, get_self, ret.
    rewrite WriteFacts.format_materials_spec, WriteFacts.emitted_serialize.
    reflexivity. }
  split; [apply H|]. split; [|split].
  - intros He. rewrite H, He. reflexivity.
  - intros self' w' He. rewrite !H, He. reflexivity.
  - intros He. rewrite H, He. reflexivity.
Qed.

Lemma format_serializes_example :
  Material.__format Example.edited_deck Example.deck_world
  = (Ok [ ("*Material, name=Steel" ++ PyStr.nl)%string;
          ("*Elastic" ++ PyStr.nl)%string;
          ("210000, 0.3" ++ PyStr.nl)%string;
          ("*Plastic" ++ PyStr.nl)%string;
          ("250, 0" ++ PyStr.nl)%string;
          ("300, 0.1" ++ PyStr.nl)%string;
          ("*Material, name=Foam" ++ PyStr.nl)%string ],
     Example.edited_deck, Example.deck_world)
  /\ Material.__format (Material.init true) Example.deck_world
     = (Ok [], Material.init true, Example.deck_world).
Proof.
  split.
  - exact (proj2 (proj2 (proj2 (format_serializes Example.edited_deck
                                  Example.deck_world))) eq_refl).
  - exact (proj1 (proj2 (format_serializes (Material.init true) Example.deck_world))
             eq_refl).
Defined.

(** C2.  The splice equation.  Let the lines of the source file be
    [before], [block] and [after], with [begin] the number of lines of
    [before] and [end] the index of the last line of [block].  For every
    populated instance backed by that file with this range recorded, [write]
    stores as the content of the output file exactly the lines [before],
    the serialized hierarchy and the lines [after], one after the other; the
    static [remove] stores the lines [before] and [after], with no block in
    between, for the range found by its own read. *)
Theorem splice_equation :
  (forall self w output_file text before block after,
      Material.materials self <> [] ->
      Material.st_read (Material.state self) = true ->
      Material.st_begin (Material.state self) = Some (Z.of_nat (length before)) ->
      Material.st_end (Material.state self)
      = Some (Z.of_nat (length before + length block) - 1)%Z ->
      files w (Material.inp_file self) = Some text ->
      PyStr.readlines text = before ++ block ++ after ->
      exists w',
        Material.write output_file self w = (Ok tt, self, w')
        /\ files w' (Material.given_or (Material.mod_name (Material.inp_file self))
                       output_file)
           = Some (PyStr.concat_lines
                     (before ++ Spec.emitted (Material.materials self) ++ after)))
  /\ (forall inp output_file w a w1 text before block after,
         files w inp = Some text ->
         Material.read inp (Material.init false) w = (Ok tt, a, w1) ->
         Material.st_begin (Material.state a) = Some (Z.of_nat (length before)) ->
         Material.st_end (Material.state a)
         = Some (Z.of_nat (length before + length block) - 1)%Z ->
         PyStr.readlines text = before ++ block ++ after ->
         exists w',
           Material.remove inp output_file w = (Ok tt, w')
           /\ files w' (Material.given_or (Material.mod_name inp) output_file)
              = Some (PyStr.concat_lines (before ++ after))).
Proof.
  assert (Hto : forall before block after : list string,
             lslice_to (before ++ block ++ after) (Z.of_nat (length before)) = before).
  { intros before block after.
    rewrite LineFacts.lslice_to_nonneg by lia.
    rewrite Nat2Z.id, firstn_app, firstn_all, Nat.sub_diag. cbn [firstn].
    apply app_nil_r. }
  assert (Hfrom : forall before block after : list string,
             lslice_from (before ++ block ++ after)
               (Z.of_nat (length before + length block) - 1 + 1) = after).
  { intros before block after.
    rewrite LineFacts.lslice_from_nonneg by lia.
    replace (Z.to_nat (Z.of_nat (length before + length block) - 1 + 1))
      with (length (before ++ block)) by (rewrite length_app; lia).
    rewrite app_assoc, skipn_app, skipn_all, Nat.sub_diag. reflexivity. }
  split.
  - intros self w out text before block after Hne Hread Hb He Hf Hlines.
    eexists. split.
    + rewrite (WriteFacts.write_unfold out self w text _ Hne Hread He Hf). reflexivity.
    + rewrite Hb, WriteFacts.format_materials_spec, WriteFacts.emitted_serialize.
      cbv zeta. rewrite Hlines, Hto, Hfrom. simpl. rewrite String.eqb_refl.
      reflexivity.
  - intros inp out w a w1 text before block after Hf H Hb He Hlines.
    apply ReadFacts.read_inv in H
      as (_ & text' & l & b & e & Hf' & Ht & Hl & Hb' & He' & -> & _).
    assert (text' = text) by congruence. subst text'.
    cbn [Material.state Material.st_begin Material.st_end] in Hb, He.
    injection Hb as ->. injection He as ->.
    eexists. split.
    + exact (WriteFacts.remove_unfold inp out w text l _ _ Hf Ht Hl Hb' He').
    + cbv zeta. rewrite Hlines, Hto, Hfrom. simpl. rewrite String.eqb_refl.
      reflexivity.
Qed.

Lemma splice_equation_example :
  (exists w',
      Material.write None Example.edited_deck Example.deck_world
      = (Ok tt, Example.edited_deck, w')
      /\ files w' "deck_mod.inp"
         = Some (PyStr.concat_lines
                   ([("*Heading" ++ PyStr.nl)%string]
                    ++ Example.steel_foam_lines
                    ++ [("*Step" ++ PyStr.nl)%string;
                        ("*End Step" ++ PyStr.nl)%string])))
  /\ (exists w',
         Material.remove "deck.inp" None Example.deck_world = (Ok tt, w')
         /\ files w' "deck_mod.inp" = Some ("*Heading" ++ PyStr.nl)%string).
Proof.
  split.
  - exact (proj1 splice_equation Example.edited_deck Example.deck_world None
             Example.deck_text
             [("*Heading" ++ PyStr.nl)%string]
             [("*Material, name=A" ++ PyStr.nl)%string;
              ("*Elastic" ++ PyStr.nl)%string; ("1,0.3" ++ PyStr.nl)%string]
             [("*Step" ++ PyStr.nl)%string; ("*End Step" ++ PyStr.nl)%string]
             ltac:(discriminate) eq_refl eq_refl eq_refl eq_refl eq_refl).
  - exact (proj2 splice_equation "deck.inp"%string None Example.deck_world
             (Material.mk "deck.inp" (Material.mkState (Some 1%Z) (Some 5%Z) true)
                Example.hierarchy false)
             Example.deck_world Example.deck_text
             [("*Heading" ++ PyStr.nl)%string]
             [("*Material, name=A" ++ PyStr.nl)%string;
              ("*Elastic" ++ PyStr.nl)%string; ("1,0.3" ++ PyStr.nl)%string;
              ("*Step" ++ PyStr.nl)%string; ("*End Step" ++ PyStr.nl)%string]
             []
             eq_refl eq_refl eq_refl eq_refl eq_refl).
Defined.

(** C7.  The empty-write guard.  On an instance whose hierarchy is empty,
    as that of a freshly constructed one is, [write] raises
    ['Material does not exist. Nothing to write.'] before anything is
    written or printed: instance and world are as before. *)
Theorem write_empty_database (self : Material.t) (output_file : option string)
        (w : World) :
  Material.materials self = [] ->
  Material.write output_file self w
  = (Raise (Exception "Material does not exist. Nothing to write."), self, w).
Proof.
  intros H. unfold Material.write, bind, get_self. rewrite H. reflexivity.
Qed.

Lemma write_empty_database_fresh :
  Material.materials (Material.init false) = []
  /\ Material.write None (Material.init false) Example.world
     = (Raise (Exception "Material does not exist. Nothing to write."),
        Material.init false, Example.world).
Proof.
  split; [reflexivity|].
  exact (write_empty_database (Material.init false) None Example.world eq_refl).
Defined.

(* ================================================================== *)
(** ** Reads that fail *)

(** The re-read guard: a second [read] raises at once and leaves the
    instance and the world as they are. *)
Lemma reread_guard (inp : string) (self : Material.t) (w : World) :
  Material.st_read (Material.state self) = true ->
  exists e, Material.read inp self w = (Raise e, self, w).
Proof. intros H. eexists. apply ReadFacts.read_guard. exact H. Qed.

(** C9.  What the code does on a file without any material (and without a
    behavior-start line): [read] raises [UnboundLocalError] for [begin] only
    after it has stored the new source path and replaced the hierarchy by
    the empty one; the state record alone is as before. *)
Theorem read_without_material (inp text : string) (self : Material.t) (w : World) :
  Material.st_read (Material.state self) = false ->
  files w inp = Some text -> text <> EmptyString ->
  Forall (fun x => Spec.is_material_start x = false
                   /\ Spec.is_behavior_start x = false) (PyStr.readlines text) ->
  Material.read inp self w
  = (Raise (UnboundLocalError "begin"),
     Material.mk inp (Material.state self) [] (Material.is_greedy self),
     Scan.remarked inp w).
Proof.
  intros Hread Hf Ht Hlines.
  rewrite (ReadFacts.read_unfold inp text self w Hread Hf Ht), ScanFacts.loop_scan.
  destruct (ScanFacts.scan_nothing (Material.is_greedy self) (PyStr.readlines text)
              0%Z Material.locals0 eq_refl eq_refl Hlines)
    as (l' & Hs & Hm & Hb).
  pose proof (ScanFacts.scan_next _ _ _ _ _ Hs) as (He & Hln & _).
  rewrite Hs. unfold Scan.material_end. rewrite He.
  rewrite (Hln (WriteFacts.readlines_not_nil text Ht)). simpl.
  rewrite Hb, Hm. reflexivity.
Qed.

Lemma read_without_material_example :
  Material.st_read (Material.state (Material.init false)) = false
  /\ files Example.world "step.inp" = Some Example.step_text
  /\ Example.step_text <> EmptyString
  /\ Forall (fun x => Spec.is_material_start x = false
                      /\ Spec.is_behavior_start x = false)
       (PyStr.readlines Example.step_text)
  /\ Material.read "step.inp" (Material.init false) Example.world
     = (Raise (UnboundLocalError "begin"),
        Material.mk "step.inp" (Material.mkState None None false) [] false,
        Example.world).
Proof.
  assert (Hl : Forall (fun x => Spec.is_material_start x = false
                                /\ Spec.is_behavior_start x = false)
                 (PyStr.readlines Example.step_text)).
  { repeat constructor. }
  split; [reflexivity|]. split; [reflexivity|]. split; [discriminate|].
  split; [exact Hl|].
  exact (read_without_material "step.inp" Example.step_text (Material.init false)
           Example.world eq_refl eq_refl ltac:(discriminate) Hl).
Defined.

(** C6.  What the code does when a read fails on an instance that holds a
    material added by hand: the material is gone afterwards, and the source
    path is the one of the file that could not be read. *)
Theorem failed_read_drops_hierarchy :
  exists self w,
    Material.add_material "A" (Material.init false) Example.world = (Ok tt, self, w)
    /\ Material.materials self = [("A"%string, [])]
    /\ Material.inp_file self = EmptyString
    /\ Material.read "step.inp" self w
       = (Raise (UnboundLocalError "begin"),
          Material.mk "step.inp" (Material.state self) [] false, w).
Proof.
  eexists. eexists. split; [reflexivity|]. repeat split.
Qed.

(* ================================================================== *)
(** ** Node scaling *)

(** C8.  Node scaling.  With no nodes loaded [scale] raises
    ['Geometry does not exist. ...'] and changes nothing.  With nodes loaded
    whose coordinate fields are numeric texts, [scale] replaces every row in
    place: field 0, the node identifier, stays, and every field at index 1
    or more becomes a blank followed by the text of its value times the
    factor.  For the rows [1,1.0,2.0] and [2,3.0,4.0] and the factor 2.0 the
    result is [1, 2.0, 4.0] and [2, 6.0, 8.0].  ([float] and [str] are
    Python's; the product is the binary64 one.) *)
Theorem scale_nodes_spec (pyfloat : string -> option float) (pystr : float -> string) :
  (forall factor self w,
      Geometry.nodes self = [] ->
      Geometry.scale pyfloat pystr factor self w
      = (Raise (Exception
                  "Geometry does not exist. Load it first with the `read` method."),
         self, w))
  /\ (forall factor self w,
         Geometry.nodes self <> [] ->
         Forall (Spec.numeric pyfloat) (Geometry.nodes self) ->
         Geometry.scale pyfloat pystr factor self w
         = (Ok tt,
            Geometry.mk (Geometry.inp_file self) (Geometry.state self)
              (map (Spec.scaled_row pyfloat pystr factor) (Geometry.nodes self)),
            w))
  /\ (forall factor row,
         hd_error (Spec.scaled_row pyfloat pystr factor row) = hd_error row
         /\ length (Spec.scaled_row pyfloat pystr factor row) = length row)
  /\ (pyfloat "1.0" = Some 1%float -> pyfloat "2.0" = Some 2%float ->
      pyfloat "3.0" = Some 3%float -> pyfloat "4.0" = Some 4%float ->
      pystr 2%float = "2.0" -> pystr 4%float = "4.0" ->
      pystr 6%float = "6.0" -> pystr 8%float = "8.0" ->
      forall self w,
        Geometry.nodes self = [["1"; "1.0"; "2.0"]; ["2"; "3.0"; "4.0"]]%string ->
        Geometry.scale pyfloat pystr 2%float self w
        = (Ok tt,
           Geometry.mk (Geometry.inp_file self) (Geometry.state self)
             [["1"; " 2.0"; " 4.0"]; ["2"; " 6.0"; " 8.0"]]%string,
           w)).
Proof.
  assert (Hgeneral : forall factor self w,
             Geometry.nodes self <> [] ->
             Forall (Spec.numeric pyfloat) (Geometry.nodes self) ->
             Geometry.scale pyfloat pystr factor self w
             = (Ok tt,
                Geometry.mk (Geometry.inp_file self) (Geometry.state self)
                  (map (Spec.scaled_row pyfloat pystr factor) (Geometry.nodes self)),
                w)).
  { intros factor self w Hne Hnum.
    unfold Geometry.scale, bind, get_self.
    destruct (Geometry.nodes self) as [|node rest] eqn:Hn; [congruence|].
    rewrite (ScaleFacts.scale_nodes_numeric pyfloat pystr factor _ Hnum).
    unfold Geometry.set_nodes, ret. reflexivity. }
  split; [|split; [exact Hgeneral|split]].
  - intros factor self w Hn. unfold Geometry.scale, bind, get_self. rewrite Hn.
    reflexivity.
  - intros factor [|ident coordinates]; simpl; [auto|].
    rewrite length_map. auto.
  - intros H1 H2 H3 H4 S2 S4 S6 S8 self w Hn.
    rewrite Hgeneral.
    + rewrite Hn. simpl. unfold Spec.scaled_field. rewrite H1, H2, H3, H4.
      change (PrimFloat.mul 1 2) with 2%float.
      change (PrimFloat.mul 2 2) with 4%float.
      change (PrimFloat.mul 3 2) with 6%float.
      change (PrimFloat.mul 4 2) with 8%float.
      rewrite S2, S4, S6, S8. reflexivity.
    + rewrite Hn. discriminate.
    + rewrite Hn. unfold Spec.numeric. simpl.
      repeat constructor; congruence.
Qed.

Lemma scale_nodes_example :
  let self := Geometry.mk "mesh.inp" (Geometry.mkState (Some 1%Z) (Some 3%Z) true)
                [["1"; "1.0"; "2.0"]; ["2"; "3.0"; "4.0"]]%string in
  (Geometry.nodes Geometry.init = []
   /\ Geometry.scale PyFloat.float_of_decimal PyFloat.str_of_whole 2%float
        Geometry.init Example.world
      = (Raise (Exception
                  "Geometry does not exist. Load it first with the `read` method."),
         Geometry.init, Example.world))
  /\ (Geometry.nodes self <> []
      /\ Forall (Spec.numeric PyFloat.float_of_decimal) (Geometry.nodes self)
      /\ Geometry.scale PyFloat.float_of_decimal PyFloat.str_of_whole 2%float
           self Example.world
         = (Ok tt,
            Geometry.mk "mesh.inp" (Geometry.mkState (Some 1%Z) (Some 3%Z) true)
              [["1"; " 2.0"; " 4.0"]; ["2"; " 6.0"; " 8.0"]]%string,
            Example.world)).
Proof.
  cbv zeta. split.
  - split; [reflexivity|].
    exact (proj1 (scale_nodes_spec PyFloat.float_of_decimal PyFloat.str_of_whole)
             2%float Geometry.init Example.world eq_refl).
  - split; [discriminate|]. split.
    + unfold Spec.numeric. repeat constructor; discriminate.
    + exact (proj2 (proj2 (proj2
               (scale_nodes_spec PyFloat.float_of_decimal PyFloat.str_of_whole)))
               eq_refl eq_refl eq_refl eq_refl eq_refl eq_refl eq_refl eq_refl
               (Geometry.mk "mesh.inp" (Geometry.mkState (Some 1%Z) (Some 3%Z) true)
                  [["1"; "1.0"; "2.0"]; ["2"; "3.0"; "4.0"]]%string)
               Example.world eq_refl).
Defined.
(* ================================================================== *)
(** ** What the hierarchy of a block serializes to *)

Module TripFacts.
Import PyStr Material.

Lemma serialize_app (h1 h2 : Hierarchy) :
  Spec.serialize (h1 ++ h2) = Spec.serialize h1 ++ Spec.serialize h2.
Proof. unfold Spec.serialize. apply flat_map_app. Qed.

Lemma serialize_last_behavior (acc : Hierarchy) (mname bname : string)
      (bs : Behaviors) (rows : list Row) :
  Spec.serialize (acc ++ [(mname, bs ++ [(bname, rows)])])
  = Spec.serialize (acc ++ [(mname, bs)]) ++ Spec.serialize_behavior (bname, rows).
Proof.
  rewrite !serialize_app. unfold Spec.serialize. cbn [flat_map].
  rewrite !app_nil_r. unfold Spec.serialize_material. cbn [fst snd].
  rewrite flat_map_app. cbn [flat_map]. rewrite app_nil_r, <- app_assoc.
  reflexivity.
Qed.

Lemma serialize_last_row (acc : Hierarchy) (mname bname : string)
      (bs : Behaviors) (rows : list Row) (row : Row) :
  Spec.serialize (acc ++ [(mname, bs ++ [(bname, rows ++ [row])])])
  = Spec.serialize (acc ++ [(mname, bs ++ [(bname, rows)])])
    ++ [Spec.serialize_row row].
Proof.
  rewrite !serialize_last_behavior. unfold Spec.serialize_behavior. cbn [fst snd].
  rewrite map_app. cbn [map]. rewrite <- app_assoc. reflexivity.
Qed.

Lemma keys_last {V : Type} (acc : Dict.t V) (k : string) (v v' : V) :
  Dict.keys (acc ++ [(k, v)]) = Dict.keys (acc ++ [(k, v')]).
Proof. rewrite !DictFacts.keys_app. reflexivity. Qed.

(** A complete data line is written back as it is. *)
Lemma row_of_complete (line : string) :
  Wf.complete line -> Spec.serialize_row (split comma (drop_last line)) = line.
Proof.
  intros (s & -> & _). unfold Spec.serialize_row.
  rewrite StrFacts.drop_last_nl, StrFacts.join_split. reflexivity.
Qed.

(** One pass of the loop inside the block adds to the serialized hierarchy
    what the line says. *)
Lemma body_meaning (g : bool) (n : Z) (line : string) (rest : list string)
      (l : Locals) (acc : Hierarchy) (mname : string) (bs : Behaviors) :
  Trip.open_at l acc mname bs ->
  Trip.names_once (Dict.keys (acc ++ [(mname, bs)])) (Dict.keys bs) (line :: rest) ->
  Wf.complete line ->
  (g = true -> Spec.closes_materials line = false) ->
  match body g n line l with
  | Next l' =>
      Spec.serialize (l_materials l')
      = Spec.serialize (l_materials l) ++ Trip.canon line
      /\ exists acc' mname' bs',
          Trip.open_at l' acc' mname' bs'
          /\ Trip.names_once (Dict.keys (acc' ++ [(mname', bs')])) (Dict.keys bs') rest
  | Break _ => False
  | Crash _ => True
  end.
Proof.
  intros (Hin & Hmat & Hname & Hna & Hbs) Honce Hc Hg.
  cbn [Trip.names_once] in Honce. unfold Trip.canon.
  unfold body, local, subscript, Spec.closes_materials, Spec.is_material_start,
    Spec.is_behavior_start in *.
  destruct (Re.material line) as [name|] eqn:Em.
  { destruct Honce as [Hfresh Honce]. cbn [l_materials].
    rewrite Hmat in *.
    rewrite (DictFacts.set_new name _ [] Hfresh), serialize_app.
    split; [reflexivity|].
    exists (acc ++ [(mname, bs)]), name, []. split.
    - repeat split; auto.
    - rewrite DictFacts.keys_app. exact Honce. }
  destruct (Re.behavior line) as [bname|] eqn:Eb.
  { destruct Honce as [Hfresh Honce]. rewrite Hname, Hmat.
    rewrite (DictFacts.get_last mname acc bs Hna). cbn [l_materials].
    rewrite (DictFacts.set_new bname bs [] Hfresh),
      (DictFacts.set_last mname acc bs _ Hna), serialize_last_behavior.
    split; [reflexivity|].
    exists acc, mname, (bs ++ [(bname, [])]). split.
    - repeat split; auto. right. exists bs, bname, []. auto.
    - rewrite (keys_last acc mname _ bs), (DictFacts.keys_app bs [(bname, [])]).
      exact Honce. }
  rewrite Hin, andb_true_r.
  destruct (Re.generalkeyword line) eqn:Ek; cbn [negb andb orb].
  { destruct g; [specialize (Hg eq_refl); discriminate|].
    cbn [l_materials]. rewrite app_nil_r. split; [reflexivity|].
    exists acc, mname, bs. split; [|exact Honce].
    repeat split; auto. }
  destruct (Re.comment line) eqn:Ec; cbn [negb andb orb].
  { destruct g; [specialize (Hg eq_refl); discriminate|].
    cbn [l_materials]. rewrite app_nil_r. split; [reflexivity|].
    exists acc, mname, bs. split; [|exact Honce].
    repeat split; auto. }
  rewrite Hname, Hmat, (DictFacts.get_last mname acc bs Hna).
  destruct Hbs as [-> | (bacc & bname & rows & -> & Hbname & Hnb)].
  { destruct (behavior_name l) as [bname|]; exact I. }
  rewrite Hbname, (DictFacts.get_last bname bacc rows Hnb). cbn [l_materials].
  rewrite (DictFacts.set_last bname bacc rows _ Hnb),
    (DictFacts.set_last mname acc _ _ Hna), serialize_last_row,
    (row_of_complete line Hc).
  split; [reflexivity|].
  exists acc, mname, (bacc ++ [(bname, rows ++ [split comma (drop_last line)])]).
  split.
  - repeat split; auto. right. exists bacc, bname, (rows ++ [split comma (drop_last line)]).
    auto.
  - rewrite (keys_last acc mname _ (bacc ++ [(bname, rows)])),
      (keys_last bacc bname _ rows). exact Honce.
Qed.

Lemma scan_meaning (g : bool) (blk : list string) :
  forall n l acc mname bs,
    Trip.open_at l acc mname bs ->
    Trip.names_once (Dict.keys (acc ++ [(mname, bs)])) (Dict.keys bs) blk ->
    Forall Wf.complete blk ->
    (g = true -> Forall (fun x => Spec.closes_materials x = false) blk) ->
    match Scan.materials g n blk l with
    | Next l' =>
        Spec.serialize (l_materials l')
        = Spec.serialize (l_materials l) ++ Trip.meaning blk
        /\ in_material l' = true
    | Break _ => False
    | Crash _ => True
    end.
Proof.
  induction blk as [|line rest IH]; intros n l acc mname bs Hopen Honce Hc Hg.
  - cbn [Scan.materials Trip.meaning flat_map]. rewrite app_nil_r.
    split; [reflexivity|exact (proj1 Hopen)].
  - inversion Hc as [|? ? Hline Hrest]; subst.
    assert (Hg1 : g = true -> Spec.closes_materials line = false).
    { intros E. specialize (Hg E). inversion Hg; assumption. }
    assert (Hg2 : g = true -> Forall (fun x => Spec.closes_materials x = false) rest).
    { intros E. specialize (Hg E). inversion Hg; assumption. }
    pose proof (body_meaning g n line rest l acc mname bs Hopen Honce Hline Hg1) as Hb.
    cbn [Scan.materials]. destruct (body g n line l) as [l1|l1|e]; [|exact Hb|exact I].
    destruct Hb as (Hser & acc' & mname' & bs' & Hopen' & Honce').
    specialize (IH (n + 1)%Z l1 acc' mname' bs' Hopen' Honce' Hrest Hg2).
    destruct (Scan.materials g (n + 1) rest l1) as [l2|l2|e]; [|exact IH|exact I].
    destruct IH as [IH Hin]. split; [|exact Hin].
    rewrite IH, Hser, <- app_assoc. reflexivity.
Qed.

Lemma app_same_length {A : Type} (a a' b b' : list A) :
  length a = length a' -> a ++ b = a' ++ b' -> a = a' /\ b = b'.
Proof.
  revert a'. induction a as [|x a IH]; intros [|x' a'] Hlen H; try discriminate.
  - auto.
  - cbn [app] in H. injection H as -> H. injection Hlen as Hlen.
    destruct (IH a' Hlen H) as [-> ->]. auto.
Qed.

(** Where the block of an accepted file starts. *)
Lemma block_start (g : bool) (lines : list string) (l' : Locals) (b : Z) :
  loop g 0 lines locals0 = Ok l' -> l_begin l' = Some b ->
  exists pre m rest l1 name,
    lines = pre ++ m :: rest
    /\ b = Z.of_nat (length pre)
    /\ Re.material m = Some name
    /\ Scan.materials g 0 pre locals0 = Next l1
    /\ in_material l1 = false /\ l_materials l1 = [].
Proof.
  intros H Hb.
  destruct (ScanFacts.split_first Spec.is_material_start lines)
    as [Hnone | (pre & m & rest & Hlines & Hpre & Hm)].
  { rewrite ScanFacts.loop_scan in H.
    pose proof (ScanFacts.scan_outside g lines 0%Z locals0 eq_refl eq_refl Hnone) as Ho.
    destruct (Scan.materials g 0 lines locals0) as [l1|l1|x];
      [|contradiction|discriminate].
    injection H as <-. destruct Ho as (_ & _ & _ & Hbg & _).
    rewrite Hbg in Hb. discriminate. }
  rewrite ScanFacts.loop_scan, Hlines, ScanFacts.scan_app in H.
  pose proof (ScanFacts.scan_outside g pre 0%Z locals0 eq_refl eq_refl Hpre) as Ho.
  destruct (Scan.materials g 0 pre locals0) as [l1|l1|x] eqn:Hs1;
    [|contradiction|discriminate].
  destruct Ho as (Hin1 & Hname1 & Hmat1 & Hbg1 & _).
  unfold Spec.is_material_start in Hm.
  destruct (Re.material m) as [name|] eqn:Hmat; [|discriminate].
  cbn [Scan.materials] in H.
  rewrite (ScanFacts.body_material g _ m name l1 Hmat), Hin1 in H.
  match type of H with
  | context [Scan.materials g ?n rest ?st] =>
      pose proof (RoundTrip.scan_keeps_begin g rest n st eq_refl) as Hkeep
  end.
  assert (Hbeq : b = Z.of_nat (length pre)).
  { destruct (Scan.materials g _ rest _) as [l2|l2|x]; [| |discriminate];
      injection H as <-; cbn [l_begin] in Hkeep; rewrite Hkeep in Hb;
      injection Hb as <-; lia. }
  exists pre, m, rest, l1, name. repeat split; auto.
Qed.

(** The lines of the block and those behind it, for the range [read]
    recorded. *)
Lemma block_lines (g : bool) (pre blk post : list string) (l : Locals) :
  loop g 0 (pre ++ blk ++ post) locals0 = Ok l ->
  l_begin l = Some (Z.of_nat (length pre)) ->
  Scan.material_end l = Some (Z.of_nat (length pre + length blk) - 1)%Z ->
  exists m blk0,
    blk = m :: blk0
    /\ (g = true -> Forall (fun x => Spec.closes_materials x = false) blk0)
    /\ (post = []
        \/ exists s post', post = s :: post' /\ g = true
                           /\ Spec.closes_materials s = true).
Proof.
  intros Hl Hb He.
  destruct (block_start g _ l _ Hl Hb)
    as (pre' & m & rest & l1 & name & Hlines & Hlen & _).
  apply Nat2Z.inj in Hlen.
  destruct (app_same_length pre pre' (blk ++ post) (m :: rest) Hlen Hlines)
    as [<- Hrest].
  exists m. destruct g.
  - destruct (ScanFacts.strict_block _ l _ Hl Hb)
      as (pre2 & m2 & rest2 & Hlines2 & _ & _ & Hlen2 & Hcases).
    apply Nat2Z.inj in Hlen2.
    destruct (app_same_length pre pre2 (blk ++ post) (m2 :: rest2) Hlen2 Hlines2)
      as [<- Hrest2].
    assert (Hm2 : m2 = m /\ rest2 = rest) by (split; congruence).
    destruct Hm2 as [-> ->].
    destruct Hcases as [(blk' & s & post' & Hr & Hopen & Hs & Hend & _) | (Hopen & Hend)].
    + rewrite Hend in He. injection He as He.
      assert (Hlb : length blk = length (m :: blk')) by (cbn [length]; lia).
      rewrite Hr in Hrest.
      change (m :: blk' ++ s :: post') with ((m :: blk') ++ s :: post') in Hrest.
      destruct (app_same_length blk (m :: blk') post (s :: post') Hlb Hrest)
        as [-> ->].
      exists blk'. split; [reflexivity|]. split; [auto|]. right. eauto.
    + rewrite Hend in He. injection He as He.
      rewrite !length_app in He.
      assert (Hp : post = []) by (destruct post; [reflexivity|cbn [length] in He; lia]).
      subst post. rewrite app_nil_r in Hrest. exists rest.
      split; [exact Hrest|]. split; [auto|]. left. reflexivity.
  - pose proof (ScanFacts.permissive_end (pre ++ blk ++ post) l
                  ltac:(rewrite Hlines; destruct pre; discriminate) Hl) as Hend.
    rewrite Hend in He. injection He as He. rewrite !length_app in He.
    assert (Hp : post = []) by (destruct post; [reflexivity|cbn [length] in He; lia]).
    subst post. rewrite app_nil_r in Hrest. exists rest.
    split; [exact Hrest|]. split; [discriminate|]. left. reflexivity.
Qed.

(** The hierarchy [read] extracted serializes to what the block says. *)
Lemma loop_meaning (g : bool) (pre blk post : list string) (l : Locals) :
  loop g 0 (pre ++ blk ++ post) locals0 = Ok l ->
  l_begin l = Some (Z.of_nat (length pre)) ->
  Scan.material_end l = Some (Z.of_nat (length pre + length blk) - 1)%Z ->
  Forall Wf.complete blk ->
  Trip.names_once [] [] blk ->
  Spec.serialize (l_materials l) = Trip.meaning blk.
Proof.
  intros Hl Hb He Hc Honce.
  destruct (block_lines g pre blk post l Hl Hb He) as (m & blk0 & -> & Hopen & Hpost).
  destruct (block_start g _ l _ Hl Hb)
    as (pre' & m' & rest & l1 & name & Hlines & Hlen & Em & Hs1 & Hin1 & Hmat1).
  apply Nat2Z.inj in Hlen.
  destruct (app_same_length pre pre' ((m :: blk0) ++ post) (m' :: rest) Hlen Hlines)
    as [<- Hrest].
  injection Hrest as <- Hrest.
  rewrite ScanFacts.loop_scan, ScanFacts.scan_app, Hs1 in Hl.
  rewrite <- app_comm_cons in Hl. cbn [Scan.materials] in Hl.
  cbn [Trip.names_once] in Honce. rewrite Em in Honce.
  destruct Honce as [_ Honce].
  rewrite (ScanFacts.body_material g _ m name l1 Em), Hin1, Hmat1 in Hl.
  cbn [Dict.set] in Hl.
  inversion Hc as [|? ? _ Hc0]; subst.
  match type of Hl with
  | context [Scan.materials g ?n (blk0 ++ post) ?st] =>
      rewrite (ScanFacts.scan_app g blk0 post n st) in Hl;
      pose proof (scan_meaning g blk0 n st [] name []
                    ltac:(repeat split; auto) Honce Hc0 Hopen) as Hm
  end.
  match type of Hl with
  | context [Scan.materials g ?n blk0 ?st] =>
      destruct (Scan.materials g n blk0 st) as [l3|l3|x]; [|contradiction|discriminate]
  end.
  destruct Hm as [Hser Hin3]. cbn [l_materials] in Hser.
  assert (Hfinal : l_materials l = l_materials l3).
  { destruct Hpost as [-> | (s & post' & -> & -> & Hs)].
    - cbn [Scan.materials] in Hl. injection Hl as <-. reflexivity.
    - cbn [Scan.materials] in Hl.
      rewrite (ScanFacts.body_closes _ s l3 Hin3 Hs) in Hl.
      injection Hl as <-. reflexivity. }
  rewrite Hfinal, Hser. unfold Trip.meaning. cbn [flat_map].
  unfold Trip.canon at 2. rewrite Em. reflexivity.
Qed.

End TripFacts.
(* ================================================================== *)
(** ** The round trip *)

(** C4, as stated, fails: the file [win.inp], whose lines end with a
    carriage return and a line feed, is read and written without any change
    in between, and the heading line in front of the block, [*Heading] with
    carriage return and line feed in the original, is [*Heading] with a line
    feed alone in the file written. *)
Lemma round_trip_not_byte_identical : ~ Trip.byte_identical.
Proof.
  intros H.
  destruct (H "win.inp"%string None (Material.init true) Example.read_crlf
              Example.crlf_world Example.crlf_world Example.crlf_text
              [("*Heading" ++ PyStr.nl)%string]
              [("*MATERIAL, NAME=A" ++ PyStr.nl)%string;
               ("*Elastic" ++ PyStr.nl)%string; ("1,0.3" ++ PyStr.nl)%string]
              [("*Step" ++ PyStr.nl)%string]
              eq_refl eq_refl eq_refl eq_refl eq_refl)
    as (w2 & newtext & Hw & Hfile & _ & Hfirst & _).
  - repeat constructor;
      [exists "*MATERIAL, NAME=A"%string | exists "*Elastic"%string
       | exists "1,0.3"%string]; split; reflexivity.
  - cbn. repeat split; intros [].
  - vm_compute in Hw. injection Hw as <-.
    vm_compute in Hfile. injection Hfile as <-.
    vm_compute in Hfirst. discriminate.
Qed.

(** C4.  The round trip, for a file [read] accepts.  Let [pre], [blk] and
    [post] be the lines text mode delivers before the block, of the block
    and after it, every line of the block ending with a line terminator, no
    material named twice in the block and no behavior twice under one
    material.  A [write] that follows the [read] without any change in
    between goes through.  The lines of the file it writes, byte for byte,
    are [pre], then what the block says, then [post]: outside the block the
    lines of the original with every line terminator a line feed, which for
    an original without carriage return are its very lines, byte for byte;
    inside, the material-start and behavior-start lines of the original in
    the serializer's spelling with the names they gave, and its data lines
    as they were, in their order, any other keyword-line or comment-line of
    the block being left out.  An instance of the same mode that reads
    the written file finds the same hierarchy, in the range these lines
    take. *)
Theorem read_write_round_trip (inp : string) (output_file : option string)
        (self self1 : Material.t) (w w1 : World) (text : string)
        (pre blk post : list string) :
  files w inp = Some text ->
  Material.read inp self w = (Ok tt, self1, w1) ->
  Material.st_begin (Material.state self1) = Some (Z.of_nat (length pre)) ->
  Material.st_end (Material.state self1)
  = Some (Z.of_nat (length pre + length blk) - 1)%Z ->
  PyStr.readlines text = pre ++ blk ++ post ->
  Forall Wf.complete blk ->
  Trip.names_once [] [] blk ->
  let target := Material.given_or (Material.mod_name inp) output_file in
  let h := Material.materials self1 in
  exists w2 newtext,
    Material.write output_file self1 w1 = (Ok tt, self1, w2)
    /\ files w2 target = Some newtext
    /\ Spec.serialize h = Trip.meaning blk
    /\ PyStr.cut_lines newtext = pre ++ Trip.meaning blk ++ post
    /\ (Wf.no_cr text = true -> PyStr.cut_lines text = pre ++ blk ++ post)
    /\ forall fresh,
        Material.st_read (Material.state fresh) = false ->
        Material.is_greedy fresh = Material.is_greedy self ->
        Material.read target fresh w2
        = (Ok tt,
           Material.mk target
             (Material.mkState (Some (Z.of_nat (length pre)))
                (Some (Z.of_nat (length pre + length (Trip.meaning blk)) - 1)%Z)
                true)
             h (Material.is_greedy self),
           Scan.remarked target w2).
Proof.
  intros Hf H Hbegin Hend Hlines Hc Honce. cbv zeta.
  apply ReadFacts.read_inv in H
    as (_ & text' & l & b & e & Hf' & Ht & Hl & Hb & He & -> & ->).
  assert (text' = text) by congruence. subst text'.
  cbn [Material.materials Material.state Material.st_begin Material.st_end] in *.
  injection Hbegin as ->. injection Hend as ->.
  set (old := PyStr.readlines text) in *.
  set (target := Material.given_or (Material.mod_name inp) output_file).
  pose proof (LineFacts.lines_ok_readlines text) as Hold. fold old in Hold.
  pose proof (LineFacts.readlines_no_cr text) as Hcr. fold old in Hcr.
  destruct (RoundTrip.reread (Material.is_greedy self) old l _ _
              (LineFacts.lines_ok_each old Hold) Hl Hb He)
    as (Hbb & Hee & Hser & l2 & Hl2 & Hm2 & Hb2 & He2).
  rewrite Hlines in Hl.
  pose proof (TripFacts.loop_meaning (Material.is_greedy self) pre blk post l
                Hl Hb He Hc Honce) as Hmean.
  set (h := Material.l_materials l) in *.
  (* the lines before and after the block *)
  assert (Hpre : firstn (Z.to_nat (Z.of_nat (length pre))) old = pre).
  { rewrite Nat2Z.id, Hlines, firstn_app, firstn_all, Nat.sub_diag.
    cbn [firstn]. apply app_nil_r. }
  assert (Hpost : skipn (Z.to_nat (Z.of_nat (length pre + length blk) - 1 + 1)) old
                  = post).
  { replace (Z.to_nat (Z.of_nat (length pre + length blk) - 1 + 1))
      with (length (pre ++ blk)) by (rewrite length_app; lia).
    rewrite Hlines, app_assoc, skipn_app, skipn_all, Nat.sub_diag. reflexivity. }
  rewrite Hpre, Hpost in Hl2.
  set (new := pre ++ Spec.serialize h ++ post) in *.
  assert (Hh : h <> []) by (intros E; rewrite E in Hser; exact (Hser eq_refl)).
  assert (Hok : Wf.hierarchy_ok h).
  { pose proof (WfFacts.scan_ok (Material.is_greedy self) old 0%Z Material.locals0
                  (LineFacts.lines_ok_each old Hold) WfFacts.hierarchy_ok_nil) as Hs.
    rewrite <- Hlines in Hl. rewrite ScanFacts.loop_scan in Hl.
    destruct (Scan.materials (Material.is_greedy self) 0 old Material.locals0);
      [| |discriminate]; injection Hl as <-; exact Hs. }
  assert (Hfree : More.cr_free h).
  { apply (CrFacts.loop_cr_free (Material.is_greedy self) old l Hcr).
    rewrite <- Hlines in Hl. exact Hl. }
  assert (Hnew : Wf.lines_ok new).
  { unfold new. rewrite Hlines in Hold. apply LineFacts.lines_ok_app.
    - apply (LineFacts.lines_ok_split pre (blk ++ post)); [|exact Hold].
      destruct (TripFacts.block_lines (Material.is_greedy self) pre blk post l
                  Hl Hb He) as (m0 & blk0 & -> & _).
      discriminate.
    - apply LineFacts.lines_ok_app.
      + apply RoundTrip.serialize_complete. exact Hok.
      + pose proof (LineFacts.lines_ok_skipn (length (pre ++ blk)) _ Hold) as Hs.
        rewrite app_assoc, skipn_app, skipn_all, Nat.sub_diag in Hs. exact Hs. }
  assert (Hnewcr : Forall (fun line => Wf.no_cr line = true) new).
  { unfold new. rewrite Hlines in Hcr.
    apply Forall_app in Hcr as [Hcr1 Hcr2]. apply Forall_app in Hcr2 as [_ Hcr3].
    apply Forall_app. split; [exact Hcr1|]. apply Forall_app.
    split; [exact (CrFacts.serialize_no_cr h Hfree)|exact Hcr3]. }
  assert (Hread : PyStr.readlines (PyStr.concat_lines new) = new)
    by (apply LineFacts.readlines_concat; assumption).
  assert (Hne : PyStr.concat_lines new <> EmptyString).
  { intros E. rewrite E in Hread.
    change (PyStr.readlines EmptyString) with (@nil string) in Hread.
    unfold new in Hread. symmetry in Hread. apply app_eq_nil in Hread as [_ Hread].
    apply app_eq_nil in Hread as [Hread _]. exact (Hser Hread). }
  eexists. exists (PyStr.concat_lines new).
  split.
  { rewrite (WriteFacts.write_unfold output_file _ (Scan.remarked inp w) text
               (Z.of_nat (length pre + length blk) - 1));
      [| exact Hh | reflexivity | reflexivity
       | cbn [Material.inp_file]; rewrite ReadFacts.files_remarked; exact Hf].
    cbn [Material.inp_file Material.state Material.st_begin Material.materials].
    fold old. fold target. fold h.
    rewrite WriteFacts.format_materials_spec,
      (LineFacts.lslice_to_nonneg old _ (proj1 Hbb)),
      (LineFacts.lslice_from_nonneg old _ Hee), Hpre, Hpost.
    fold new. reflexivity. }
  assert (Hfile : files (Scan.reported target
                           (Scan.written target (PyStr.concat_lines new)
                              (Scan.announced target (Scan.remarked inp w)))) target
                  = Some (PyStr.concat_lines new)).
  { simpl. rewrite String.eqb_refl. reflexivity. }
  split; [exact Hfile|]. split; [exact Hmean|].
  split.
  { rewrite (LineFacts.cut_concat new Hnew). unfold new. rewrite Hmean. reflexivity. }
  split.
  { intros Hplain. rewrite <- (LineFacts.readlines_plain text Hplain). exact Hlines. }
  intros fresh Hfresh Hg.
  rewrite (ReadFacts.read_unfold target _ fresh _ Hfresh Hfile Hne).
  rewrite Hread, Hg, Hl2, He2, Hb2, Hm2, <- Hmean.
  do 4 f_equal. f_equal. lia.
Qed.

Lemma read_write_round_trip_example :
  exists w2 newtext,
    Material.write None Example.read_crlf Example.crlf_world
    = (Ok tt, Example.read_crlf, w2)
    /\ files w2 "win_mod.inp" = Some newtext
    /\ Spec.serialize (Material.materials Example.read_crlf)
       = [("*Material, name=A" ++ PyStr.nl)%string; ("*Elastic" ++ PyStr.nl)%string;
          ("1,0.3" ++ PyStr.nl)%string]
    /\ PyStr.cut_lines newtext
       = [("*Heading" ++ PyStr.nl)%string; ("*Material, name=A" ++ PyStr.nl)%string;
          ("*Elastic" ++ PyStr.nl)%string; ("1,0.3" ++ PyStr.nl)%string;
          ("*Step" ++ PyStr.nl)%string]
    /\ (Wf.no_cr Example.crlf_text = true ->
        PyStr.cut_lines Example.crlf_text
        = [("*Heading" ++ PyStr.nl)%string; ("*MATERIAL, NAME=A" ++ PyStr.nl)%string;
           ("*Elastic" ++ PyStr.nl)%string; ("1,0.3" ++ PyStr.nl)%string;
           ("*Step" ++ PyStr.nl)%string])
    /\ forall fresh,
        Material.st_read (Material.state fresh) = false ->
        Material.is_greedy fresh = true ->
        Material.read "win_mod.inp" fresh w2
        = (Ok tt,
           Material.mk "win_mod.inp" (Material.mkState (Some 1%Z) (Some 3%Z) true)
             [("A", [("Elastic", [["1"; "0.3"]])])]%string true,
           Scan.remarked "win_mod.inp" w2).
Proof.
  exact (read_write_round_trip "win.inp" None (Material.init true) Example.read_crlf
           Example.crlf_world Example.crlf_world Example.crlf_text
           [("*Heading" ++ PyStr.nl)%string]
           [("*MATERIAL, NAME=A" ++ PyStr.nl)%string;
            ("*Elastic" ++ PyStr.nl)%string; ("1,0.3" ++ PyStr.nl)%string]
           [("*Step" ++ PyStr.nl)%string]
           eq_refl eq_refl eq_refl eq_refl eq_refl
           (Forall_cons _ (ex_intro _ "*MATERIAL, NAME=A"%string (conj eq_refl eq_refl))
              (Forall_cons _ (ex_intro _ "*Elastic"%string (conj eq_refl eq_refl))
                 (Forall_cons _ (ex_intro _ "1,0.3"%string (conj eq_refl eq_refl))
                    (Forall_nil _))))
           (conj (fun x : False => x)
              (conj (fun x : False => x) I))).
Defined.

(* ================================================================== *)
(** ** Building a database by hand *)

Module AddFacts.
Import PyStr Material.

Section DictMore.
Context {V : Type}.
Implicit Types (d : Dict.t V) (k : string) (v : V).

Lemma get_set_same k v d : Dict.get k (Dict.set k v d) = Some v.
Proof.
  induction d as [|[k' v'] d IH]; simpl.
  - rewrite String.eqb_refl. reflexivity.
  - destruct (String.eqb k' k) eqn:E; simpl.
    + rewrite String.eqb_refl. reflexivity.
    + rewrite E. exact IH.
Qed.

Lemma get_set_other k k' v d :
  k' <> k -> Dict.get k' (Dict.set k v d) = Dict.get k' d.
Proof.
  intros Hne. induction d as [|[k0 v0] d IH]; simpl.
  - apply String.eqb_neq in Hne. rewrite String.eqb_sym, Hne. reflexivity.
  - destruct (String.eqb k0 k) eqn:E; simpl.
    + apply String.eqb_eq in E. subst k0.
      assert (Hk : String.eqb k k' = false) by (apply String.eqb_neq; congruence).
      rewrite Hk. reflexivity.
    + destruct (String.eqb k0 k'); [reflexivity|exact IH].
Qed.

Lemma get_missing k d : Dict.get k d = None -> ~ In k (Dict.keys d).
Proof.
  induction d as [|[k' v'] d IH]; simpl; [tauto|].
  destruct (String.eqb k' k) eqn:E; [discriminate|].
  apply String.eqb_neq in E. intros H [Hk | Hk]; [congruence|]. exact (IH H Hk).
Qed.

(** Assigning the value a key already has changes nothing. *)
Lemma set_same k v d : Dict.get k d = Some v -> Dict.set k v d = d.
Proof.
  induction d as [|[k' v'] d IH]; simpl; [discriminate|].
  destruct (String.eqb k' k) eqn:E.
  - apply String.eqb_eq in E. subst k'. intros H. injection H as ->. reflexivity.
  - intros H. rewrite (IH H). reflexivity.
Qed.

End DictMore.

End AddFacts.

(** X1.  [add_material] never raises.  A name that exists already leaves
    the instance as it is and only prints a remark; a new name is put last,
    with no behavior.  Either way the files are untouched, the name is in
    the hierarchy afterwards, every other entry is what it was, and names
    stay unique. *)
Theorem add_material_soft (material : string) (self : Material.t) (w : World) :
  exists self' w',
    Material.add_material material self w = (Ok tt, self', w')
    /\ files w' = files w
    /\ (Dict.mem material (Material.materials self) = true ->
        self' = self
        /\ w' = More.printed ("Material " ++ material ++ " already exists.") w)
    /\ (Dict.mem material (Material.materials self) = false ->
        self' = Material.mk (Material.inp_file self) (Material.state self)
                  (Material.materials self ++ [(material, [])])
                  (Material.is_greedy self)
        /\ w' = w)
    /\ Dict.mem material (Material.materials self') = true
    /\ (forall other,
           other <> material ->
           Dict.get other (Material.materials self')
           = Dict.get other (Material.materials self))
    /\ (NoDup (Dict.keys (Material.materials self)) ->
        NoDup (Dict.keys (Material.materials self'))).
Proof.
  unfold Material.add_material, bind, get_self.
  destruct (Dict.mem material (Material.materials self)) eqn:Hmem.
  - exists self, (More.printed ("Material " ++ material ++ " already exists.") w).
    repeat split; auto; discriminate.
  - unfold Dict.mem in Hmem.
    destruct (Dict.get material (Material.materials self)) eqn:Hg; [discriminate|].
    apply AddFacts.get_missing in Hg.
    eexists. exists w. unfold Material.set_materials.
    split; [reflexivity|]. cbn [Material.materials].
    split; [reflexivity|]. split; [discriminate|].
    split; [intros _; rewrite (DictFacts.set_new material _ [] Hg); auto|].
    split; [unfold Dict.mem; rewrite AddFacts.get_set_same; reflexivity|].
    split; [intros other Hne; apply AddFacts.get_set_other; exact Hne|].
    apply DictFacts.nodup_set.
Qed.

Lemma add_material_soft_example :
  let self := Material.mk "" (Material.mkState None None false)
                [("A", [])]%string false in
  (Dict.mem "A" (Material.materials self) = true
   /\ Material.add_material "A" self Example.world
      = (Ok tt, self, More.printed "Material A already exists." Example.world))
  /\ (Dict.mem "B" (Material.materials self) = false
      /\ Material.add_material "B" self Example.world
         = (Ok tt,
            Material.mk "" (Material.mkState None None false)
              [("A", []); ("B", [])]%string false,
            Example.world)).
Proof.
  cbv zeta. split; (split; [reflexivity|]).
  - destruct (add_material_soft "A"
                (Material.mk "" (Material.mkState None None false)
                   [("A", [])]%string false) Example.world)
      as (s' & w' & Hrun & _ & Hold & _).
    destruct (Hold eq_refl) as [-> ->]. exact Hrun.
  - destruct (add_material_soft "B"
                (Material.mk "" (Material.mkState None None false)
                   [("A", [])]%string false) Example.world)
      as (s' & w' & Hrun & _ & _ & Hnew & _).
    destruct (Hnew eq_refl) as [-> ->]. exact Hrun.
Defined.

(* ================================================================== *)
(** ** Adding behaviors *)

Module BehaviorFacts.
Import PyStr Material.

Lemma keys_set_present {V : Type} (k : string) (v v' : V) (d : Dict.t V) :
  Dict.get k d = Some v -> Dict.keys (Dict.set k v' d) = Dict.keys d.
Proof.
  intros Hg. destruct (DictFacts.keys_set k v' d) as [H | [Hn _]]; [exact H|].
  exfalso. apply Hn. apply DictFacts.get_in in Hg.
  apply (in_map fst) in Hg. exact Hg.
Qed.

(** What both [add_linearelastic] and [add_plastic] do, for the behavior
    name [bname] and the row [row]. *)
Lemma add_behavior_run (bname material : string) (row : Row) (self : t) (w : World)
      (m : M t unit) :
  (forall s v,
      m s v =
      match Dict.get material (materials s) with
      | Some behaviors =>
          if Dict.mem bname behaviors then
            (Ok tt, s,
             More.printed (bname ++ " behavior already exists for material "
                           ++ material ++ ". Remove it first to add the new one.") v)
          else
            (Ok tt,
             mk (inp_file s) (state s)
               (Dict.set material (Dict.set bname [row] behaviors) (materials s))
               (is_greedy s), v)
      | None =>
          (Ok tt, s,
           More.printed ("Material " ++ material
                         ++ " does not exist. Behavior not added.") v)
      end) ->
  exists self' w',
    m self w = (Ok tt, self', w')
    /\ files w' = files w
    /\ (Dict.get material (materials self) = None -> self' = self)
    /\ (forall bs,
           Dict.get material (materials self) = Some bs ->
           Dict.mem bname bs = true -> self' = self)
    /\ (forall bs,
           Dict.get material (materials self) = Some bs ->
           Dict.mem bname bs = false ->
           w' = w
           /\ Dict.get material (materials self') = Some (bs ++ [(bname, [row])])
           /\ Dict.keys (materials self') = Dict.keys (materials self))
    /\ (forall other,
           other <> material ->
           Dict.get other (materials self') = Dict.get other (materials self)).
Proof.
  intros Hm. rewrite Hm.
  destruct (Dict.get material (materials self)) as [bs|] eqn:Hg.
  - destruct (Dict.mem bname bs) eqn:Hb.
    + eexists. eexists. split; [reflexivity|].
      split; [reflexivity|]. split; [discriminate|].
      split; [reflexivity|]. split; [|reflexivity].
      intros bs' Hbs' Hmem. injection Hbs' as <-. congruence.
    + eexists. eexists. split; [reflexivity|]. cbn [materials].
      split; [reflexivity|]. split; [discriminate|].
      split; [intros bs' Hbs' Hmem; injection Hbs' as <-; congruence|].
      split.
      * intros bs' Hbs' _. injection Hbs' as <-. split; [reflexivity|].
        rewrite AddFacts.get_set_same. split.
        -- f_equal. apply DictFacts.set_new. apply AddFacts.get_missing.
           unfold Dict.mem in Hb. destruct (Dict.get bname bs); [discriminate|reflexivity].
        -- exact (keys_set_present material bs _ _ Hg).
      * intros other Hne. apply AddFacts.get_set_other. exact Hne.
  - eexists. eexists. split; [reflexivity|].
    split; [reflexivity|]. split; [reflexivity|].
    split; [discriminate|]. split; [discriminate|reflexivity].
Qed.

End BehaviorFacts.

(** X2.  [add_linearelastic] never raises and never touches the files.  It
    changes nothing but the printed text when the material does not exist or
    has an elastic behavior already (the first values stay); otherwise it
    puts the behavior [Elastic] last under the material, with the one row
    [str(E)], [' ' + str(nu)], keeping the order of the materials and every
    other material. *)
Theorem add_linearelastic_guarded (Number : Type) (pystr : Number -> string)
        (material : string) (E nu : Number) (self : Material.t) (w : World) :
  exists self' w',
    Material.add_linearelastic Number pystr material E nu self w = (Ok tt, self', w')
    /\ files w' = files w
    /\ (Dict.get material (Material.materials self) = None -> self' = self)
    /\ (forall bs,
           Dict.get material (Material.materials self) = Some bs ->
           Dict.mem "Elastic" bs = true -> self' = self)
    /\ (forall bs,
           Dict.get material (Material.materials self) = Some bs ->
           Dict.mem "Elastic" bs = false ->
           w' = w
           /\ Dict.get material (Material.materials self')
              = Some (bs ++ [("Elastic"%string, [[pystr E; (" " ++ pystr nu)%string]])])
           /\ Dict.keys (Material.materials self') = Dict.keys (Material.materials self))
    /\ (forall other,
           other <> material ->
           Dict.get other (Material.materials self')
           = Dict.get other (Material.materials self)).
Proof.
  apply (BehaviorFacts.add_behavior_run "Elastic" material
           [pystr E; (" " ++ pystr nu)%string] self w).
  intros s v. unfold Material.add_linearelastic, bind, get_self.
  destruct (Dict.get material (Material.materials s)) as [bs|]; [|reflexivity].
  destruct (Dict.mem "Elastic" bs); reflexivity.
Qed.

(** X3.  [add_plastic] behaves as [add_linearelastic] does, for the
    behavior [Plastic] and the row [str(sigma_y)], [' ' + str(epsilon_p)];
    in particular it leaves an elastic behavior of the material as it is. *)
Theorem add_plastic_guarded (Number : Type) (pystr : Number -> string)
        (material : string) (sigma_y epsilon_p : Number) (self : Material.t)
        (w : World) :
  exists self' w',
    Material.add_plastic Number pystr material sigma_y epsilon_p self w
    = (Ok tt, self', w')
    /\ files w' = files w
    /\ (Dict.get material (Material.materials self) = None -> self' = self)
    /\ (forall bs,
           Dict.get material (Material.materials self) = Some bs ->
           Dict.mem "Plastic" bs = true -> self' = self)
    /\ (forall bs,
           Dict.get material (Material.materials self) = Some bs ->
           Dict.mem "Plastic" bs = false ->
           w' = w
           /\ Dict.get material (Material.materials self')
              = Some (bs ++ [("Plastic"%string,
                             [[pystr sigma_y; (" " ++ pystr epsilon_p)%string]])])
           /\ Dict.keys (Material.materials self') = Dict.keys (Material.materials self))
    /\ (forall other,
           other <> material ->
           Dict.get other (Material.materials self')
           = Dict.get other (Material.materials self)).
Proof.
  apply (BehaviorFacts.add_behavior_run "Plastic" material
           [pystr sigma_y; (" " ++ pystr epsilon_p)%string] self w).
  intros s v. unfold Material.add_plastic, bind, get_self.
  destruct (Dict.get material (Material.materials s)) as [bs|]; [|reflexivity].
  destruct (Dict.mem "Plastic" bs); reflexivity.
Qed.

Lemma add_linearelastic_guarded_example :
  let self := Material.mk "" (Material.mkState None None false)
                [("A", [])]%string false in
  Dict.get "A" (Material.materials self) = Some []
  /\ Dict.mem "Elastic" (@nil (string * list Row)) = false
  /\ exists self' w',
      Material.add_linearelastic string (fun t => t) "A" "210000" "0.3" self
        Example.world = (Ok tt, self', w')
      /\ Dict.get "A" (Material.materials self')
         = Some [("Elastic", [["210000"; " 0.3"]])]%string.
Proof.
  cbv zeta. split; [reflexivity|]. split; [reflexivity|].
  destruct (add_linearelastic_guarded string (fun t => t) "A" "210000" "0.3"
              (Material.mk "" (Material.mkState None None false)
                 [("A", [])]%string false) Example.world)
    as (s' & w' & Hrun & _ & _ & _ & Hadd & _).
  destruct (Hadd [] eq_refl eq_refl) as (_ & Hget & _).
  exists s', w'. split; [exact Hrun | exact Hget].
Defined.

Lemma add_plastic_guarded_example :
  let self := Material.mk "" (Material.mkState None None false)
                [("A", [("Elastic", [["210000"; " 0.3"]])])]%string false in
  Dict.get "A" (Material.materials self) = Some [("Elastic", [["210000"; " 0.3"]])]%string
  /\ Dict.mem "Plastic" [("Elastic", [["210000"; " 0.3"]])]%string = false
  /\ exists self' w',
      Material.add_plastic string (fun t => t) "A" "250" "0" self
        Example.world = (Ok tt, self', w')
      /\ Dict.get "A" (Material.materials self')
         = Some [("Elastic", [["210000"; " 0.3"]]); ("Plastic", [["250"; " 0"]])]%string.
Proof.
  cbv zeta. split; [reflexivity|]. split; [reflexivity|].
  destruct (add_plastic_guarded string (fun t => t) "A" "250" "0"
              (Material.mk "" (Material.mkState None None false)
                 [("A", [("Elastic", [["210000"; " 0.3"]])])]%string false)
              Example.world)
    as (s' & w' & Hrun & _ & _ & _ & Hadd & _).
  destruct (Hadd _ eq_refl eq_refl) as (_ & Hget & _).
  exists s', w'. split; [exact Hrun | exact Hget].
Defined.

(* ================================================================== *)
(** ** A database built by hand, written and read *)

Module ManualFacts.
Import PyStr Material.

Lemma split_free (t : string) :
  More.free_of comma t = true -> split comma t = [t].
Proof.
  unfold More.free_of. induction t as [|c t IH]; [reflexivity|].
  simpl. intros H. apply andb_true_iff in H as [Hc Ht].
  apply negb_true_iff in Hc. rewrite Hc, (IH Ht). reflexivity.
Qed.

Lemma split_at (a r : string) :
  More.free_of comma a = true ->
  split comma (a ++ String comma r) = a :: split comma r.
Proof.
  unfold More.free_of. induction a as [|c a IH]; simpl.
  - intros _. reflexivity.
  - intros H. apply andb_true_iff in H as [Hc Ha].
    apply negb_true_iff in Hc. rewrite Hc, (IH Ha). reflexivity.
Qed.

Lemma plain_parts (t : string) :
  More.plain t = true ->
  More.free_of comma t = true /\ Wf.no_nl t = true /\ More.free_of star t = true.
Proof.
  unfold More.plain, More.free_of, Wf.no_nl.
  induction t as [|c t IH]; simpl; [auto|].
  intros H. apply andb_true_iff in H as [Hc Ht].
  apply andb_true_iff in Hc as [Hc Hs]. apply andb_true_iff in Hc as [Hc Hn].
  destruct (IH Ht) as (H1 & H2 & H3). rewrite Hc, Hn, Hs, H1, H2, H3. auto.
Qed.

Lemma name_ok_like (name : string) : More.name_like name -> Wf.name_ok name.
Proof.
  intros [Hne Hall]. split.
  - unfold Re.material.
    change (Re.match_nocase "*material, name=" ("*Material, name=" ++ name ++ nl))
      with (Some (name ++ nl)%string).
    unfold nl. rewrite StrFacts.take_while_stop; [|exact Hall|reflexivity].
    destruct name; [congruence|reflexivity].
  - unfold Wf.no_nl. apply (StrFacts.forallb_str_impl Re.name_char); [|exact Hall].
    intros d Hd. rewrite (StrFacts.name_char_not_newline d Hd). reflexivity.
Qed.

Lemma elastic_ok : Wf.behavior_ok "Elastic".
Proof. repeat split. Qed.

Lemma plastic_ok : Wf.behavior_ok "Plastic".
Proof. repeat split. Qed.

(** The row of a behavior added by hand reads back as it is. *)
Lemma row_ok_pair (a b : string) :
  More.plain a = true -> More.plain b = true ->
  Wf.row_ok [a; (" " ++ b)%string].
Proof.
  intros Ha Hb.
  destruct (plain_parts a Ha) as (Hac & Han & Has).
  destruct (plain_parts b Hb) as (Hbc & Hbn & _).
  exists (a ++ String comma (" " ++ b))%string. split; [|split; [|split]].
  - rewrite (split_at a _ Hac), split_free; [reflexivity|]. exact Hbc.
  - rewrite StrFacts.no_nl_app, Han. simpl. exact Hbn.
  - unfold More.free_of in Has. destruct a as [|c0 a]; [reflexivity|].
    simpl in Has. apply andb_true_iff in Has as [Hc0 _]. apply negb_true_iff in Hc0.
    unfold Re.generalkeyword. simpl. rewrite Hc0.
    match goal with |- match ?x with _ => _ end = _ => destruct x end; reflexivity.
  - unfold More.free_of in Has. destruct a as [|c0 [|c1 a]].
    + reflexivity.
    + simpl in Has. apply andb_true_iff in Has as [Hc0 _]. apply negb_true_iff in Hc0.
      unfold Re.comment. simpl. rewrite Hc0. simpl. apply andb_false_r.
    + simpl in Has. apply andb_true_iff in Has as [Hc0 Has].
      apply andb_true_iff in Has as [Hc1 _].
      apply negb_true_iff in Hc0. apply negb_true_iff in Hc1.
      unfold Re.comment. simpl. rewrite Hc0, Hc1. simpl.
      rewrite andb_false_r. reflexivity.
Qed.

(** [write] on a database that was never read. *)
Lemma write_manual (out : option string) (self : t) (w : World) :
  st_read (state self) = false -> materials self <> [] ->
  write out self w =
  (Ok tt, self,
   Scan.reported (More.manual_target out w)
     (Scan.written (More.manual_target out w)
        (concat_lines (format_materials (materials self)))
        (Scan.announced (More.manual_target out w) w))).
Proof.
  intros Hread Hne. unfold write, bind, get_self.
  destruct (materials self) as [|item h] eqn:Hm; [congruence|].
  rewrite Hread. unfold More.manual_target.
  destruct (not_given out); cbv beta iota delta [os_listdir ret bind __format get_self];
    rewrite ReadFacts.validate_write; cbv beta iota; rewrite Hm; reflexivity.
Qed.

(** A steel with an elastic behavior, as the add operations build it. *)
Lemma steel_ok :
  Wf.hierarchy_ok [("Steel-1", [("Elastic", [["210000"; " 0.3"]])])]%string.
Proof.
  apply (WfFacts.hierarchy_ok_set [] "Steel-1" _ WfFacts.hierarchy_ok_nil).
  - apply name_ok_like. split; [discriminate|reflexivity].
  - apply (WfFacts.behaviors_ok_set [] "Elastic" _ WfFacts.behaviors_ok_nil elastic_ok).
    constructor; [|constructor]. apply row_ok_pair; reflexivity.
Qed.

End ManualFacts.

(** X4.  The add operations keep a hierarchy well formed, that is, such
    that what the serializer writes for it is read back as it is: adding a
    material whose name is made of word characters and hyphens, and adding
    an elastic or a plastic behavior whose two numbers print without comma,
    newline or star. *)
Theorem hand_built_well_formed (Number : Type) (pystr : Number -> string) :
  (forall name self w,
      More.name_like name ->
      Wf.hierarchy_ok (Material.materials self) ->
      Wf.hierarchy_ok
        (Material.materials (More.after (Material.add_material name) self w)))
  /\ (forall material E nu self w,
         More.plain (pystr E) = true -> More.plain (pystr nu) = true ->
         Wf.hierarchy_ok (Material.materials self) ->
         Wf.hierarchy_ok
           (Material.materials
              (More.after (Material.add_linearelastic Number pystr material E nu)
                 self w)))
  /\ (forall material sigma_y epsilon_p self w,
         More.plain (pystr sigma_y) = true -> More.plain (pystr epsilon_p) = true ->
         Wf.hierarchy_ok (Material.materials self) ->
         Wf.hierarchy_ok
           (Material.materials
              (More.after
                 (Material.add_plastic Number pystr material sigma_y epsilon_p)
                 self w))).
Proof.
  assert (Hbehavior : forall bname a b material (self : Material.t),
             Wf.behavior_ok bname ->
             More.plain a = true -> More.plain b = true ->
             Wf.hierarchy_ok (Material.materials self) ->
             forall bs,
               Dict.get material (Material.materials self) = Some bs ->
               Wf.hierarchy_ok
                 (Dict.set material (Dict.set bname [[a; (" " ++ b)%string]] bs)
                    (Material.materials self))).
  { intros bname a b material self Hb Ha Hb' Hok bs Hg.
    destruct (WfFacts.entry_ok _ _ _ _ (proj2 Hok) Hg) as [Hname Hbs].
    apply WfFacts.hierarchy_ok_set; [exact Hok | exact Hname |].
    apply WfFacts.behaviors_ok_set; [exact Hbs | exact Hb |].
    constructor; [|constructor]. apply ManualFacts.row_ok_pair; assumption. }
  split; [|split].
  - intros name self w Hname Hok.
    unfold More.after, Material.add_material, bind, get_self.
    destruct (Dict.mem name (Material.materials self)); [exact Hok|].
    cbn. apply WfFacts.hierarchy_ok_set;
      [exact Hok | apply ManualFacts.name_ok_like; exact Hname
       | apply WfFacts.behaviors_ok_nil].
  - intros material E nu self w HE Hnu Hok.
    unfold More.after, Material.add_linearelastic, bind, get_self.
    destruct (Dict.get material (Material.materials self)) as [bs|] eqn:Hg;
      [|exact Hok].
    destruct (Dict.mem "Elastic" bs); [exact Hok|]. cbn.
    exact (Hbehavior _ _ _ material self ManualFacts.elastic_ok HE Hnu Hok bs Hg).
  - intros material sy ep self w Hsy Hep Hok.
    unfold More.after, Material.add_plastic, bind, get_self.
    destruct (Dict.get material (Material.materials self)) as [bs|] eqn:Hg;
      [|exact Hok].
    destruct (Dict.mem "Plastic" bs); [exact Hok|]. cbn.
    exact (Hbehavior _ _ _ material self ManualFacts.plastic_ok Hsy Hep Hok bs Hg).
Qed.

Lemma hand_built_well_formed_example :
  (More.name_like "Steel-1"
   /\ Wf.hierarchy_ok (Material.materials (Material.init false))
   /\ Wf.hierarchy_ok [("Steel-1"%string, [])])
  /\ (More.plain "210000" = true /\ More.plain "0.3" = true
      /\ Wf.hierarchy_ok [("Steel-1", [("Elastic", [["210000"; " 0.3"]])])]%string).
Proof.
  assert (Hname : More.name_like "Steel-1") by (split; [discriminate|reflexivity]).
  assert (H1 : Wf.hierarchy_ok [("Steel-1"%string, [])]).
  { exact (proj1 (hand_built_well_formed string (fun t => t)) "Steel-1"%string
             (Material.init false) Example.world Hname WfFacts.hierarchy_ok_nil). }
  split; [split; [exact Hname|split; [exact WfFacts.hierarchy_ok_nil|exact H1]]|].
  split; [reflexivity|]. split; [reflexivity|].
  exact (proj1 (proj2 (hand_built_well_formed string (fun t => t)))
           "Steel-1"%string "210000"%string "0.3"%string
           (Material.mk "" (Material.mkState None None false)
              [("Steel-1"%string, [])] false)
           Example.world eq_refl eq_refl H1).
Defined.

(** X5.  A database built by hand, written and read.  For an instance
    that was never read and holds a well-formed hierarchy with some
    material, no name or field of which holds a carriage return, [write]
    stores the serialized hierarchy, and nothing else, in the file it
    names, leaving every other file alone; an instance that then reads
    this file gets the same hierarchy, with the block from line 0 to the
    last line.  (A carriage return in a field would come back from the
    file as a line feed and cut the line in two.) *)
Theorem manual_write_read (output_file : option string) (self : Material.t)
        (w : World) :
  Material.st_read (Material.state self) = false ->
  Material.materials self <> [] ->
  Wf.hierarchy_ok (Material.materials self) ->
  More.cr_free (Material.materials self) ->
  let target := More.manual_target output_file w in
  let h := Material.materials self in
  exists w2,
    Material.write output_file self w = (Ok tt, self, w2)
    /\ files w2 target = Some (PyStr.concat_lines (Spec.serialize h))
    /\ (forall p, p <> target -> files w2 p = files w p)
    /\ forall fresh,
        Material.st_read (Material.state fresh) = false ->
        Material.read target fresh w2
        = (Ok tt,
           Material.mk target
             (Material.mkState (Some 0%Z)
                (Some (Z.of_nat (length (Spec.serialize h)) - 1)%Z) true)
             h (Material.is_greedy fresh),
           Scan.remarked target w2).
Proof.
  intros Hread Hne Hok Hcr. cbv zeta.
  set (target := More.manual_target output_file w).
  set (h := Material.materials self) in *.
  eexists. split; [exact (ManualFacts.write_manual output_file self w Hread Hne)|].
  fold target. fold h. rewrite WriteFacts.format_materials_spec.
  assert (Hfile : files (Scan.reported target
                           (Scan.written target (PyStr.concat_lines (Spec.serialize h))
                              (Scan.announced target w))) target
                  = Some (PyStr.concat_lines (Spec.serialize h))).
  { simpl. rewrite String.eqb_refl. reflexivity. }
  split; [exact Hfile|]. split.
  { intros p Hp. simpl. apply String.eqb_neq in Hp. rewrite Hp.
    rewrite ReadFacts.files_announced. reflexivity. }
  intros fresh Hfresh.
  assert (Hser : Spec.serialize h <> []).
  { destruct h as [|item h']; [congruence|discriminate]. }
  assert (Hlines : PyStr.readlines (PyStr.concat_lines (Spec.serialize h))
                   = Spec.serialize h).
  { apply LineFacts.readlines_concat.
    - apply LineFacts.lines_ok_complete, RoundTrip.serialize_complete. exact Hok.
    - apply CrFacts.serialize_no_cr. exact Hcr. }
  assert (Htext : PyStr.concat_lines (Spec.serialize h) <> EmptyString).
  { intros E. rewrite E in Hlines.
    change (PyStr.readlines EmptyString) with (@nil string) in Hlines. congruence. }
  rewrite (ReadFacts.read_unfold target _ fresh _ Hfresh Hfile Htext), Hlines.
  destruct Hok as [Hnd Hall].
  destruct (RescanFacts.rescan_materials (Material.is_greedy fresh) h 0%Z
              Material.locals0 [] eq_refl Hnd Hall) as (l' & Hs & Hm & Hin).
  destruct (Hin Hne) as [_ Hb]. cbn in Hb.
  pose proof (ScanFacts.scan_next _ _ _ _ _ Hs) as (He & Hln & _).
  rewrite ScanFacts.loop_scan, Hs. unfold Scan.material_end.
  rewrite He, (Hln Hser), Hb, Hm. reflexivity.
Qed.

Lemma manual_write_read_example :
  let self := Material.mk "" (Material.mkState None None false)
                [("Steel-1", [("Elastic", [["210000"; " 0.3"]])])]%string false in
  Material.st_read (Material.state self) = false
  /\ Material.materials self <> []
  /\ Wf.hierarchy_ok (Material.materials self)
  /\ More.cr_free (Material.materials self)
  /\ exists w2,
      Material.write None self Example.world = (Ok tt, self, w2)
      /\ files w2 "materials.inp"
         = Some (PyStr.concat_lines (Spec.serialize (Material.materials self)))
      /\ (forall p, p <> "materials.inp"%string -> files w2 p = files Example.world p)
      /\ forall fresh,
          Material.st_read (Material.state fresh) = false ->
          Material.read "materials.inp" fresh w2
          = (Ok tt,
             Material.mk "materials.inp"
               (Material.mkState (Some 0%Z) (Some 2%Z) true)
               (Material.materials self) (Material.is_greedy fresh),
             Scan.remarked "materials.inp" w2).
Proof.
  cbv zeta. split; [reflexivity|]. split; [discriminate|].
  split; [exact ManualFacts.steel_ok|].
  split; [repeat constructor|].
  exact (manual_write_read None
           (Material.mk "" (Material.mkState None None false)
              [("Steel-1", [("Elastic", [["210000"; " 0.3"]])])]%string false)
           Example.world eq_refl ltac:(discriminate) ManualFacts.steel_ok
           ltac:(repeat constructor)).
Defined.

(* ================================================================== *)
(** ** The default name of a new database *)

Module NameFacts.
Import PyStr Material.

Lemma digit_char (k : nat) :
  (k < 10)%nat ->
  More.is_digit (ascii_of_nat (48 + k)) = true
  /\ nat_of_ascii (ascii_of_nat (48 + k)) = (48 + k)%nat.
Proof.
  intros H.
  do 10 (destruct k as [|k]; [split; reflexivity|]). lia.
Qed.

Lemma digits_value_app (x y : string) :
  forall a,
    PyFloat.digits_value (x ++ y) a =
    match PyFloat.digits_value x a with
    | Some v => PyFloat.digits_value y v
    | None => None
    end.
Proof.
  induction x as [|c x IH]; intros a; simpl; [reflexivity|].
  destruct (in_range 48 57 c); [apply IH|reflexivity].
Qed.

(** The digits of a number: not empty, digits only, and worth the number. *)
Lemma digits_fuel_spec (fuel : nat) :
  forall n acc,
    (n < fuel)%nat ->
    exists ds,
      digits_fuel fuel n acc = (ds ++ acc)%string
      /\ ds <> EmptyString
      /\ forallb_str More.is_digit ds = true
      /\ PyFloat.digits_value ds 0 = Some (Z.of_nat n).
Proof.
  induction fuel as [|fuel IH]; intros n acc Hn; [lia|].
  cbn [digits_fuel]. cbv zeta.
  assert (Hmod : (n mod 10 < 10)%nat) by (apply Nat.mod_upper_bound; lia).
  destruct (digit_char (n mod 10) Hmod) as [Hd Hv].
  destruct (n <? 10)%nat eqn:Hlt.
  - apply Nat.ltb_lt in Hlt.
    exists (String (ascii_of_nat (48 + n mod 10)) EmptyString).
    split; [reflexivity|]. split; [discriminate|].
    split; [cbn [forallb_str]; rewrite Hd; reflexivity|].
    cbn [PyFloat.digits_value]. unfold More.is_digit in Hd. rewrite Hd, Hv.
    f_equal. rewrite Nat.mod_small by exact Hlt. lia.
  - apply Nat.ltb_ge in Hlt.
    assert (Hdiv : (n / 10 < fuel)%nat).
    { assert (n / 10 < n)%nat by (apply Nat.div_lt; lia). lia. }
    destruct (IH (n / 10)%nat (String (ascii_of_nat (48 + n mod 10)) acc) Hdiv)
      as (ds & Heq & Hne & Hall & Hval).
    exists (ds ++ String (ascii_of_nat (48 + n mod 10)) EmptyString)%string.
    split; [rewrite Heq, StrFacts.append_assoc; reflexivity|].
    split; [destruct ds; discriminate|]. split.
    + clear Heq Hval Hne. induction ds as [|c ds IHd].
      * cbn [String.append forallb_str]. rewrite Hd. reflexivity.
      * cbn [String.append forallb_str] in *.
        apply andb_true_iff in Hall as [Hc Hall]. rewrite Hc, (IHd Hall). reflexivity.
    + rewrite digits_value_app, Hval. cbn [PyFloat.digits_value].
      unfold More.is_digit in Hd. rewrite Hd, Hv. f_equal.
      rewrite Nat2Z.inj_div. pose proof (Nat.div_mod_eq n 10) as Hdm.
      assert (Z.of_nat n = 10 * (Z.of_nat n / 10) + Z.of_nat (n mod 10))%Z.
      { rewrite Nat2Z.inj_mod. apply Z.div_mod. lia. }
      lia.
Qed.

Lemma str_of_nat_spec (n : nat) :
  str_of_nat n <> EmptyString
  /\ forallb_str More.is_digit (str_of_nat n) = true
  /\ PyFloat.digits_value (str_of_nat n) 0 = Some (Z.of_nat n).
Proof.
  unfold str_of_nat.
  destruct (digits_fuel_spec (S n) n EmptyString ltac:(lia)) as (ds & -> & H).
  rewrite StrFacts.append_nil_r. exact H.
Qed.

Lemma str_of_nat_inj (i j : nat) : str_of_nat i = str_of_nat j -> i = j.
Proof.
  intros H.
  destruct (str_of_nat_spec i) as (_ & _ & Hi).
  destruct (str_of_nat_spec j) as (_ & _ & Hj).
  rewrite H in Hi. rewrite Hi in Hj. injection Hj as Hj. lia.
Qed.

Lemma candidate_inj (i j : nat) : candidate i = candidate j -> i = j.
Proof.
  intros H. assert (Hdigits : forall k r,
    take_while More.is_digit (str_of_nat k ++ String "." r) = str_of_nat k).
  { intros k r. apply StrFacts.take_while_stop; [|reflexivity].
    exact (proj1 (proj2 (str_of_nat_spec k))). }
  destruct i as [|i], j as [|j]; [reflexivity| | |].
  - exfalso. unfold candidate in H. simpl in H. discriminate.
  - exfalso. unfold candidate in H. simpl in H. discriminate.
  - unfold candidate in H. simpl in H.
    injection H as H.
    apply (f_equal (take_while More.is_digit)) in H.
    rewrite !Hdigits in H. apply str_of_nat_inj. exact H.
Qed.

Lemma nodup_map_inj {A B : Type} (f : A -> B) (l : list A) :
  (forall x y, f x = f y -> x = y) -> NoDup l -> NoDup (map f l).
Proof.
  intros Hinj. induction 1 as [|x l Hx Hl IH]; [constructor|].
  cbn [map]. constructor; [|exact IH].
  intros Hin. apply in_map_iff in Hin as (y & Hy & Hyl).
  apply Hinj in Hy. subst y. contradiction.
Qed.

Lemma first_free_spec (fuel : nat) :
  forall i names,
    ~ In (first_free fuel i names) names
    \/ (forall k, (i <= k < i + fuel)%nat -> In (candidate k) names).
Proof.
  induction fuel as [|fuel IH]; intros i names; [right; intros k Hk; lia|].
  cbn [first_free].
  destruct (existsb (String.eqb (candidate i)) names) eqn:E.
  - destruct (IH (S i) names) as [H | H]; [left; exact H|].
    right. intros k Hk.
    destruct (Nat.eq_dec k i) as [-> | Hne]; [|apply H; lia].
    apply existsb_exists in E as (x & Hx & Heq).
    apply String.eqb_eq in Heq. subst x. exact Hx.
  - left. intros Hin.
    assert (existsb (String.eqb (candidate i)) names = true); [|congruence].
    apply existsb_exists. exists (candidate i). split; [exact Hin|].
    apply String.eqb_refl.
Qed.

(** The search never ends on a listed name, and it needs no more tests
    than there are names, plus one. *)
Lemma first_free_free (names : list string) :
  ~ In (first_free (S (length names)) 0 names) names.
Proof.
  destruct (first_free_spec (S (length names)) 0 names) as [H | H]; [exact H|].
  exfalso.
  assert (Hincl : incl (map candidate (seq 0 (S (length names)))) names).
  { intros x Hx. apply in_map_iff in Hx as (k & <- & Hk).
    apply in_seq in Hk. apply H. lia. }
  assert (Hnd : NoDup (map candidate (seq 0 (S (length names))))).
  { apply nodup_map_inj; [exact candidate_inj|apply seq_NoDup]. }
  pose proof (NoDup_incl_length Hnd Hincl) as Hlen.
  rewrite length_map, length_seq in Hlen. lia.
Qed.

(** Every candidate is [materials.inp] or [materials-<i>.inp]. *)
Lemma first_free_candidate (fuel : nat) :
  forall i names, exists k, first_free fuel i names = candidate k.
Proof.
  induction fuel as [|fuel IH]; intros i names; cbn [first_free]; [eauto|].
  destruct (existsb _ names); eauto.
Qed.

End NameFacts.

(** X6.  The default name of a database built by hand.  When no output
    file is given, [write] stores the serialized hierarchy under
    [materials.inp] or [materials-<i>.inp], a name that is none of the names
    [os.listdir()] returned; no listed name is written to. *)
Theorem default_name_is_free (self : Material.t) (w : World) :
  Material.st_read (Material.state self) = false ->
  Material.materials self <> [] ->
  exists target w2 k,
    Material.write None self w = (Ok tt, self, w2)
    /\ target = Material.candidate k
    /\ ~ In target (listdir w)
    /\ files w2 target
       = Some (PyStr.concat_lines (Spec.serialize (Material.materials self)))
    /\ forall name, In name (listdir w) -> files w2 name = files w name.
Proof.
  intros Hread Hne.
  destruct (NameFacts.first_free_candidate (S (length (listdir w))) 0 (listdir w))
    as (k & Hk).
  pose proof (NameFacts.first_free_free (listdir w)) as Hfree.
  pose proof (ManualFacts.write_manual None self w Hread Hne) as Hw.
  change (Material.first_free (S (length (listdir w))) 0 (listdir w))
    with (More.manual_target None w) in Hk, Hfree.
  set (target := More.manual_target None w) in *.
  exists target. eexists. exists k.
  split; [exact Hw|]. split; [exact Hk|]. split; [exact Hfree|].
  rewrite WriteFacts.format_materials_spec.
  unfold Scan.reported, Scan.written. cbn [files]. split.
  - rewrite String.eqb_refl. reflexivity.
  - intros name Hin.
    destruct (String.eqb name target) eqn:E.
    + apply String.eqb_eq in E. subst name. contradiction.
    + rewrite ReadFacts.files_announced. reflexivity.
Qed.

Lemma default_name_is_free_example :
  let self := Material.mk "" (Material.mkState None None false)
                [("Steel-1", [("Elastic", [["210000"; " 0.3"]])])]%string false in
  let w := mkWorld (files Example.world) ["materials.inp"; "job.inp"]%string [] in
  Material.st_read (Material.state self) = false
  /\ Material.materials self <> []
  /\ exists target w2 k,
      Material.write None self w = (Ok tt, self, w2)
      /\ target = Material.candidate k
      /\ ~ In target (listdir w)
      /\ files w2 target
         = Some (PyStr.concat_lines (Spec.serialize (Material.materials self)))
      /\ forall name, In name (listdir w) -> files w2 name = files w name.
Proof.
  cbv zeta. split; [reflexivity|]. split; [discriminate|].
  exact (default_name_is_free
           (Material.mk "" (Material.mkState None None false)
              [("Steel-1", [("Elastic", [["210000"; " 0.3"]])])]%string false)
           (mkWorld (files Example.world) ["materials.inp"; "job.inp"]%string [])
           eq_refl ltac:(discriminate)).
Defined.

(* ================================================================== *)
(** ** More on [Material.read] *)

Module ReadMore.
Import PyStr Material.

Lemma split_fields_free (sep : ascii) (s : string) :
  Forall (fun f => More.free_of sep f = true) (split sep s).
Proof.
  induction s as [|c s IH]; [repeat constructor|].
  cbn [split]. destruct (Ascii.eqb c sep) eqn:E.
  - constructor; [reflexivity|exact IH].
  - destruct (split sep s) as [|f fs]; cbv iota.
    + constructor; [|constructor]. unfold More.free_of. simpl. rewrite E. reflexivity.
    + inversion IH as [|? ? Hf Hfs]; subst. constructor; [|exact Hfs].
      unfold More.free_of in *. simpl. rewrite E, Hf. reflexivity.
Qed.

Lemma split_fields_no_nl (sep : ascii) (s : string) :
  Wf.no_nl s = true -> Forall (fun f => Wf.no_nl f = true) (split sep s).
Proof.
  induction s as [|c s IH]; [repeat constructor|].
  rewrite LineFacts.no_nl_cons. intros H. apply andb_true_iff in H as [Hc Hs].
  specialize (IH Hs). cbn [split]. destruct (Ascii.eqb c sep).
  - constructor; [reflexivity|exact IH].
  - destruct (split sep s) as [|f fs]; cbv iota.
    + constructor; [|constructor]. rewrite LineFacts.no_nl_cons, Hc. reflexivity.
    + inversion IH as [|? ? Hf Hfs]; subst. constructor; [|exact Hfs].
      rewrite LineFacts.no_nl_cons, Hc, Hf. reflexivity.
Qed.

Lemma row_plain (row : Row) :
  Wf.row_ok row -> row <> [] /\ Forall More.field_ok row.
Proof.
  intros (s & -> & Hnl & _). split; [apply StrFacts.split_not_nil|].
  pose proof (split_fields_free comma s) as Hf.
  pose proof (split_fields_no_nl comma s Hnl) as Hn.
  induction Hf as [|f fs Hf1 Hfs IH]; [constructor|].
  inversion Hn; subst. constructor; [split; assumption|auto].
Qed.

Lemma hierarchy_plain_ok (h : Hierarchy) :
  Wf.hierarchy_ok h -> More.hierarchy_plain h.
Proof.
  intros [Hnd Hall]. split; [exact Hnd|]. clear Hnd.
  induction Hall as [|[name bs] h [_ [Hndb Hbs]] _ IH]; [constructor|].
  constructor; [|exact IH].
  cbn [snd] in *. split; [exact Hndb|]. clear Hndb IH.
  induction Hbs as [|[bname rows] bs [_ Hrows] _ IHb]; [constructor|].
  constructor; [|exact IHb].
  cbn [snd] in *. clear IHb.
  induction Hrows as [|row rows Hrow _ IHr]; [constructor|].
  constructor; [|exact IHr].
  exact (row_plain row Hrow).
Qed.

(** ['begin'] is the index of the first material-start line, in either
    mode. *)
Lemma first_material_begin (g : bool) (lines : list string) (l' : Locals) (b : Z) :
  loop g 0 lines locals0 = Ok l' -> l_begin l' = Some b ->
  exists pre m rest,
    lines = pre ++ m :: rest
    /\ Forall (fun x => Spec.is_material_start x = false) pre
    /\ Spec.is_material_start m = true
    /\ b = Z.of_nat (length pre).
Proof.
  intros H Hb. rewrite ScanFacts.loop_scan in H.
  destruct (ScanFacts.split_first Spec.is_material_start lines)
    as [Hnone | (pre & m & rest & Hlines & Hpre & Hm)].
  { pose proof (ScanFacts.scan_outside g lines 0%Z locals0 eq_refl eq_refl Hnone) as Ho.
    destruct (Scan.materials g 0 lines locals0) as [l1|l1|x];
      [|contradiction|discriminate].
    injection H as <-. destruct Ho as (_ & _ & _ & Hbg & _).
    rewrite Hbg in Hb. discriminate. }
  exists pre, m, rest. split; [exact Hlines|]. split; [exact Hpre|].
  split; [exact Hm|].
  rewrite Hlines, ScanFacts.scan_app in H.
  pose proof (ScanFacts.scan_outside g pre 0%Z locals0 eq_refl eq_refl Hpre) as Ho.
  destruct (Scan.materials g 0 pre locals0) as [l1|l1|x] eqn:Hs1;
    [|contradiction|discriminate].
  destruct Ho as (Hin1 & _).
  unfold Spec.is_material_start in Hm.
  destruct (Re.material m) as [name|] eqn:Hmat; [|discriminate].
  cbn [Scan.materials] in H.
  rewrite (ScanFacts.body_material g _ m name l1 Hmat), Hin1 in H.
  match type of H with
  | context [Scan.materials g ?n rest ?st] =>
      pose proof (RoundTrip.scan_keeps_begin g rest n st eq_refl) as Hkeep
  end.
  destruct (Scan.materials g _ rest _) as [l2|l2|x]; [| |discriminate];
    injection H as <-; cbn [l_begin] in Hkeep; rewrite Hkeep in Hb;
    injection Hb as <-; lia.
Qed.

(** A behavior-start line is no material-start line. *)
Lemma behavior_not_material (line : string) :
  Spec.is_behavior_start line = true -> Re.material line = None.
Proof.
  unfold Spec.is_behavior_start. destruct (Re.behavior line) as [b|] eqn:Hb;
    [|discriminate].
  intros _. destruct (Re.material line) as [name|] eqn:Hm; [|reflexivity].
  exfalso. unfold Re.behavior in Hb. unfold Re.material in Hm.
  destruct line as [|c0 [|c1 rest]]; try discriminate.
  - destruct (Ascii.eqb c0 star); discriminate.
  - destruct (Ascii.eqb c0 star); [|discriminate].
    simpl in Hm, Hb.
    destruct (Ascii.eqb (lower c0) _); [|discriminate].
    destruct (Ascii.eqb (lower c1) (lower "m")) eqn:E1; [|discriminate].
    apply Ascii.eqb_eq in E1. rewrite E1 in Hb. simpl in Hb. discriminate.
Qed.

End ReadMore.

(** X7.  A database is read once.  After a [read] that went through, any
    further [read] on the instance, of whatever file, raises
    ['Material database already exists. ...'] and leaves the instance and
    the world as they are. *)
Theorem read_only_once (inp inp2 : string) (self self1 : Material.t) (w w1 : World) :
  Material.read inp self w = (Ok tt, self1, w1) ->
  Material.read inp2 self1 w1
  = (Raise (Exception ("Material database already exists. Instantiate a "
                       ++ "new Material object for another database.")),
     self1, w1).
Proof.
  intros H.
  apply ReadFacts.read_inv in H as (_ & text & l & b & e & _ & _ & _ & _ & _ & -> & _).
  apply ReadFacts.read_guard. reflexivity.
Qed.

Lemma read_only_once_example :
  Material.read "job.inp" (Material.init true) Example.world
  = (Ok tt, Example.read_strict, Example.world)
  /\ Material.read "step.inp" Example.read_strict Example.world
     = (Raise (Exception ("Material database already exists. Instantiate a "
                          ++ "new Material object for another database.")),
        Example.read_strict, Example.world).
Proof.
  split; [reflexivity|].
  exact (read_only_once "job.inp" "step.inp" (Material.init true) Example.read_strict
           Example.world Example.world eq_refl).
Defined.

(** X8.  What a [read] that went through leaves.  The instance holds the
    path it read, is marked as read and keeps its mode; the files are as
    before; the recorded range lies inside the file, with
    [0 <= begin <= end < number of lines]; the hierarchy holds at least one
    material, material names are unique, behavior names are unique under
    each material, every row has at least one field, and no field holds a
    comma or a newline. *)
Theorem read_result_sound (inp : string) (self self1 : Material.t) (w w1 : World) :
  Material.read inp self w = (Ok tt, self1, w1) ->
  exists text b e,
    files w inp = Some text
    /\ Material.st_begin (Material.state self1) = Some b
    /\ Material.st_end (Material.state self1) = Some e
    /\ (0 <= b <= e)%Z /\ (e < Z.of_nat (length (PyStr.readlines text)))%Z
    /\ Material.inp_file self1 = inp
    /\ Material.st_read (Material.state self1) = true
    /\ Material.is_greedy self1 = Material.is_greedy self
    /\ files w1 = files w
    /\ Material.materials self1 <> []
    /\ More.hierarchy_plain (Material.materials self1).
Proof.
  intros H.
  apply ReadFacts.read_inv in H
    as (_ & text & l & b & e & Hf & Ht & Hl & Hb & He & -> & ->).
  exists text, b, e. cbn.
  pose proof (LineFacts.lines_ok_each _ (LineFacts.lines_ok_readlines text)) as Hnl.
  destruct (RoundTrip.block_shape _ _ _ _ _ Hl Hb He)
    as (pre & m & rest & l1 & Hlines & Hbeq & _ & _ & _ & _ & Htail).
  assert (Hlen : length (PyStr.readlines text) = (length pre + S (length rest))%nat).
  { rewrite Hlines, length_app. reflexivity. }
  split; [exact Hf|]. split; [reflexivity|]. split; [reflexivity|].
  split; [|split].
  - destruct Htail as [-> | (_ & blk & s & post & _ & _ & ->)]; lia.
  - destruct Htail as [-> | (_ & blk & s & post & -> & _ & ->)]; [lia|].
    rewrite Hlen, length_app. simpl. lia.
  - split; [reflexivity|]. split; [reflexivity|]. split; [reflexivity|].
    split; [apply ReadFacts.files_remarked|].
    rewrite ScanFacts.loop_scan in Hl. split.
    + pose proof (RoundTrip.scan_populated (Material.is_greedy self)
                    (PyStr.readlines text) 0%Z Material.locals0
                    ltac:(intros X; exfalso; exact (X eq_refl))) as Hs.
      destruct (Scan.materials _ 0 _ Material.locals0); [| |discriminate];
        injection Hl as <-; apply Hs; congruence.
    + apply ReadMore.hierarchy_plain_ok.
      pose proof (WfFacts.scan_ok (Material.is_greedy self) (PyStr.readlines text)
                    0%Z Material.locals0 Hnl WfFacts.hierarchy_ok_nil) as Hs.
      destruct (Scan.materials _ 0 _ Material.locals0); [| |discriminate];
        injection Hl as <-; exact Hs.
Qed.

Lemma read_result_sound_example :
  Material.read "job.inp" (Material.init true) Example.world
  = (Ok tt, Example.read_strict, Example.world)
  /\ exists text b e,
      files Example.world "job.inp" = Some text
      /\ Some 0%Z = Some b /\ Some 2%Z = Some e
      /\ (0 <= b <= e)%Z /\ (e < Z.of_nat (length (PyStr.readlines text)))%Z
      /\ "job.inp"%string = "job.inp"%string
      /\ true = true /\ true = true
      /\ files Example.world = files Example.world
      /\ Example.hierarchy <> []
      /\ More.hierarchy_plain Example.hierarchy.
Proof.
  split; [reflexivity|].
  exact (read_result_sound "job.inp" (Material.init true) Example.read_strict
           Example.world Example.world eq_refl).
Defined.

(** X9.  Files [read] refuses.  On an instance not read before, a path
    that is no file raises ['File does not exist.'] and a file without any
    text raises ['Input file is empty.']; in both cases the instance and the
    files are as before. *)
Theorem read_refuses_bad_file (inp : string) (self : Material.t) (w : World) :
  Material.st_read (Material.state self) = false ->
  (files w inp = None ->
   Material.read inp self w
   = (Raise (Exception "File does not exist."), self, Scan.remarked inp w))
  /\ (files w inp = Some EmptyString ->
      Material.read inp self w
      = (Raise (Exception "Input file is empty."), self, Scan.remarked inp w))
  /\ files (Scan.remarked inp w) = files w.
Proof.
  intros Hread. unfold Material.read, bind, get_self. rewrite Hread.
  rewrite ReadFacts.validate_read.
  split; [|split].
  - intros ->. reflexivity.
  - intros ->. reflexivity.
  - apply ReadFacts.files_remarked.
Qed.

Lemma read_refuses_bad_file_example :
  Material.st_read (Material.state (Material.init false)) = false
  /\ files Example.world "none.inp" = None
  /\ Material.read "none.inp" (Material.init false) Example.world
     = (Raise (Exception "File does not exist."), Material.init false, Example.world).
Proof.
  split; [reflexivity|]. split; [reflexivity|].
  exact (proj1 (read_refuses_bad_file "none.inp" (Material.init false) Example.world
                  eq_refl) eq_refl).
Defined.

(** X10.  Lines out of order.  In a file whose first lines open neither a
    material nor a behavior, a behavior-start line met before any material
    raises [UnboundLocalError] for [material_name], and a data line that
    follows the first material-start line at once raises [UnboundLocalError]
    for [behavior_name]; either way the instance is as before. *)
Theorem read_lines_out_of_order (inp text : string) (self : Material.t) (w : World)
        (pre : list string) :
  Material.st_read (Material.state self) = false ->
  files w inp = Some text ->
  Forall (fun x => Spec.is_material_start x = false
                   /\ Spec.is_behavior_start x = false) pre ->
  (forall b post,
      PyStr.readlines text = pre ++ b :: post ->
      Spec.is_behavior_start b = true ->
      Material.read inp self w
      = (Raise (UnboundLocalError "material_name"), self, Scan.remarked inp w))
  /\ (forall m d post,
         PyStr.readlines text = pre ++ m :: d :: post ->
         Spec.is_material_start m = true ->
         Re.generalkeyword d = false -> Re.comment d = false ->
         Material.read inp self w
         = (Raise (UnboundLocalError "behavior_name"), self, Scan.remarked inp w)).
Proof.
  intros Hread Hf Hpre.
  assert (Htext : forall tail, PyStr.readlines text = pre ++ tail -> tail <> [] ->
                               text <> EmptyString).
  { intros tail Hl Hne ->. simpl in Hl. symmetry in Hl.
    apply app_eq_nil in Hl. tauto. }
  destruct (ScanFacts.scan_nothing (Material.is_greedy self) pre 0%Z
              Material.locals0 eq_refl eq_refl Hpre) as (l1 & Hs1 & Hm1 & _).
  assert (Hout : Forall (fun x => Spec.is_material_start x = false) pre).
  { apply Forall_impl with (2 := Hpre). tauto. }
  pose proof (ScanFacts.scan_outside (Material.is_greedy self) pre 0%Z
                Material.locals0 eq_refl eq_refl Hout) as Ho.
  rewrite Hs1 in Ho. destruct Ho as (Hin1 & Hname1 & _ & _ & Hbn1).
  split.
  - intros b post Hl Hb.
    rewrite (ReadFacts.read_unfold inp text self w Hread Hf
               (Htext _ Hl ltac:(discriminate))).
    rewrite ScanFacts.loop_scan, Hl, ScanFacts.scan_app, Hs1.
    cbn [Scan.materials].
    rewrite (ScanFacts.body_outside _ _ b l1 Hin1 Hname1
               (ReadMore.behavior_not_material b Hb)).
    unfold Spec.is_behavior_start in Hb.
    destruct (Re.behavior b); [reflexivity|discriminate].
  - intros m d post Hl Hm Hk Hc.
    rewrite (ReadFacts.read_unfold inp text self w Hread Hf
               (Htext _ Hl ltac:(discriminate))).
    rewrite ScanFacts.loop_scan, Hl, ScanFacts.scan_app, Hs1.
    unfold Spec.is_material_start in Hm.
    destruct (Re.material m) as [name|] eqn:Hmat; [|discriminate].
    cbn [Scan.materials]. rewrite (ScanFacts.body_material _ _ m name l1 Hmat).
    unfold Material.body at 1. cbn [Material.in_material Material.material_name
      Material.behavior_name Material.l_materials].
    destruct (Re.material d) as [x|] eqn:Emd.
    { apply ReFacts.material_keyword in Emd. congruence. }
    destruct (Re.behavior d) as [x|] eqn:Ebd.
    { apply ReFacts.behavior_keyword in Ebd. congruence. }
    rewrite Hk, Hc. cbn [negb andb]. unfold Material.local, Material.subscript.
    rewrite AddFacts.get_set_same, Hbn1. reflexivity.
Qed.

Lemma read_lines_out_of_order_example :
  let w := mkWorld (fun p => if String.eqb p "bad.inp"
                             then Some ("*Heading" ++ PyStr.nl ++ "*Elastic" ++ PyStr.nl
                                        ++ "1,0.3" ++ PyStr.nl)%string
                             else None) [] [] in
  Material.st_read (Material.state (Material.init true)) = false
  /\ files w "bad.inp"
     = Some ("*Heading" ++ PyStr.nl ++ "*Elastic" ++ PyStr.nl ++ "1,0.3" ++ PyStr.nl)%string
  /\ Forall (fun x => Spec.is_material_start x = false
                      /\ Spec.is_behavior_start x = false)
       [("*Heading" ++ PyStr.nl)%string]
  /\ Spec.is_behavior_start ("*Elastic" ++ PyStr.nl) = true
  /\ Material.read "bad.inp" (Material.init true) w
     = (Raise (UnboundLocalError "material_name"), Material.init true, w).
Proof.
  cbv zeta.
  assert (Hpre : Forall (fun x => Spec.is_material_start x = false
                                  /\ Spec.is_behavior_start x = false)
                   [("*Heading" ++ PyStr.nl)%string]) by (repeat constructor).
  split; [reflexivity|]. split; [reflexivity|]. split; [exact Hpre|].
  split; [reflexivity|].
  exact (proj1 (read_lines_out_of_order "bad.inp" _ (Material.init true)
                  (mkWorld (fun p => if String.eqb p "bad.inp"
                                     then Some ("*Heading" ++ PyStr.nl ++ "*Elastic"
                                                ++ PyStr.nl ++ "1,0.3" ++ PyStr.nl)%string
                                     else None) [] [])
                  [("*Heading" ++ PyStr.nl)%string] eq_refl eq_refl Hpre)
           ("*Elastic" ++ PyStr.nl)%string [("1,0.3" ++ PyStr.nl)%string]
           eq_refl eq_refl).
Defined.

(* ================================================================== *)
(** ** What permissive mode replaces *)

(** X11.  In permissive mode the block reaches the end of the file, so
    everything from the first material-start line on is replaced.  The
    static [remove], whose own instance is permissive, keeps exactly the
    lines before the first material-start line; [write] after a permissive
    [read] stores these lines followed by the serialized hierarchy, and
    nothing of what came after. *)
Theorem permissive_replaces_to_the_end :
  (forall inp output_file w a w1,
      Material.read inp (Material.init false) w = (Ok tt, a, w1) ->
      exists text pre m rest w',
        files w inp = Some text
        /\ PyStr.readlines text = pre ++ m :: rest
        /\ Forall (fun x => Spec.is_material_start x = false) pre
        /\ Spec.is_material_start m = true
        /\ Material.remove inp output_file w = (Ok tt, w')
        /\ files w' (Material.given_or (Material.mod_name inp) output_file)
           = Some (PyStr.concat_lines pre))
  /\ (forall inp output_file self self1 w w1,
         Material.is_greedy self = false ->
         Material.read inp self w = (Ok tt, self1, w1) ->
         exists text pre m rest w2,
           files w inp = Some text
           /\ PyStr.readlines text = pre ++ m :: rest
           /\ Forall (fun x => Spec.is_material_start x = false) pre
           /\ Spec.is_material_start m = true
           /\ Material.write output_file self1 w1 = (Ok tt, self1, w2)
           /\ files w2 (Material.given_or (Material.mod_name inp) output_file)
              = Some (PyStr.concat_lines
                        (pre ++ Spec.serialize (Material.materials self1)))).
Proof.
  assert (Hslices : forall (pre rest : list string) (m : string),
             lslice_to (pre ++ m :: rest) (Z.of_nat (length pre)) = pre
             /\ lslice_from (pre ++ m :: rest)
                  (Z.of_nat (length (pre ++ m :: rest)) - 1 + 1)%Z = []).
  { intros pre rest m. split.
    - rewrite LineFacts.lslice_to_nonneg by lia.
      rewrite Nat2Z.id, firstn_app, firstn_all, Nat.sub_diag. cbn [firstn].
      apply app_nil_r.
    - rewrite LineFacts.lslice_from_nonneg by lia.
      replace (Z.to_nat (Z.of_nat (length (pre ++ m :: rest)) - 1 + 1))
        with (length (pre ++ m :: rest)) by lia.
      apply skipn_all. }
  split.
  - intros inp out w a w1 H.
    apply ReadFacts.read_inv in H
      as (_ & text & l & b & e & Hf & Ht & Hl & Hb & He & -> & _).
    cbn [Material.is_greedy Material.init] in Hl.
    destruct (ReadMore.first_material_begin false _ l b Hl Hb)
      as (pre & m & rest & Hlines & Hpre & Hm & ->).
    pose proof (ScanFacts.permissive_end _ l
                  (WriteFacts.readlines_not_nil text Ht) Hl) as Hend.
    rewrite He in Hend. injection Hend as ->.
    exists text, pre, m, rest. eexists.
    split; [exact Hf|]. split; [exact Hlines|]. split; [exact Hpre|].
    split; [exact Hm|]. split.
    + exact (WriteFacts.remove_unfold inp out w text l _ _ Hf Ht Hl Hb He).
    + rewrite Hlines. destruct (Hslices pre rest m) as [-> ->].
      rewrite app_nil_r. simpl. rewrite String.eqb_refl. reflexivity.
  - intros inp out self self1 w w1 Hg H.
    apply ReadFacts.read_inv in H
      as (_ & text & l & b & e & Hf & Ht & Hl & Hb & He & -> & ->).
    rewrite Hg in Hl.
    destruct (ReadMore.first_material_begin false _ l b Hl Hb)
      as (pre & m & rest & Hlines & Hpre & Hm & ->).
    pose proof (ScanFacts.permissive_end _ l
                  (WriteFacts.readlines_not_nil text Ht) Hl) as Hend.
    rewrite He in Hend. injection Hend as ->.
    assert (Hne : Material.l_materials l <> []).
    { rewrite ScanFacts.loop_scan in Hl.
      pose proof (RoundTrip.scan_populated false (PyStr.readlines text) 0%Z
                    Material.locals0 ltac:(intros X; exfalso; exact (X eq_refl))) as Hs.
      destruct (Scan.materials false 0 _ Material.locals0); [| |discriminate];
        injection Hl as <-; apply Hs; congruence. }
    exists text, pre, m, rest. eexists.
    split; [exact Hf|]. split; [exact Hlines|]. split; [exact Hpre|].
    split; [exact Hm|]. split.
    + apply (WriteFacts.write_unfold out _ (Scan.remarked inp w) text);
        [exact Hne | reflexivity | reflexivity
         | cbn [Material.inp_file]; rewrite ReadFacts.files_remarked; exact Hf].
    + cbn [Material.inp_file Material.state Material.st_begin Material.materials].
      rewrite WriteFacts.format_materials_spec, Hlines.
      destruct (Hslices pre rest m) as [-> ->].
      rewrite app_nil_r. simpl. rewrite String.eqb_refl. reflexivity.
Qed.

Lemma permissive_replaces_to_the_end_example :
  let w := mkWorld (fun p => if String.eqb p "full.inp"
                             then Some ("*Heading" ++ PyStr.nl ++ Example.text)%string
                             else None) [] [] in
  Material.read "full.inp" (Material.init false) w
  = (Ok tt,
     Material.mk "full.inp" (Material.mkState (Some 1%Z) (Some 5%Z) true)
       [("A", [("Elastic", [["1"; "0.3"]; ["..."]])])]%string false, w)
  /\ exists text pre m rest w',
      files w "full.inp" = Some text
      /\ PyStr.readlines text = pre ++ m :: rest
      /\ Forall (fun x => Spec.is_material_start x = false) pre
      /\ Spec.is_material_start m = true
      /\ Material.remove "full.inp" None w = (Ok tt, w')
      /\ files w' "full_mod.inp" = Some (PyStr.concat_lines pre).
Proof.
  cbv zeta. split; [reflexivity|].
  exact (proj1 permissive_replaces_to_the_end "full.inp"%string None
           (mkWorld (fun p => if String.eqb p "full.inp"
                              then Some ("*Heading" ++ PyStr.nl ++ Example.text)%string
                              else None) [] [])
           (Material.mk "full.inp" (Material.mkState (Some 1%Z) (Some 5%Z) true)
              [("A", [("Elastic", [["1"; "0.3"]; ["..."]])])]%string false)
           _ eq_refl).
Defined.

(* ================================================================== *)
(** ** More on [Geometry.read] and [Geometry.write] *)

Module NodeMore.
Import PyStr Geometry.

Lemma node_keyword (line : string) :
  Re.node line = true -> Re.generalkeyword line = true.
Proof.
  unfold Re.node. destruct (Re.match_nocase "*node" line) eqn:E; [|discriminate].
  intros _. destruct line as [|c0 [|c1 rest]]; simpl in E; try discriminate.
  - destruct (Ascii.eqb (lower c0) _); discriminate.
  - destruct (Ascii.eqb (lower c0) _) eqn:E0; [|discriminate].
    destruct (Ascii.eqb (lower c1) _) eqn:E1; [|discriminate].
    apply StrFacts.lower_star in E0. subst c0.
    apply (StrFacts.nocase_word c1 "n" eq_refl) in E1.
    unfold Re.generalkeyword. rewrite E1. reflexivity.
Qed.

Lemma body_node (n : Z) (line : string) (l : Locals) :
  Re.node line = true ->
  body n line l = Next (mkLocals true (l_nodes l) (Some n) (l_end l) (Some n)).
Proof. intros H. unfold body. rewrite H. reflexivity. Qed.

Lemma body_skip (n : Z) (line : string) (l : Locals) :
  in_node l = false -> Re.node line = false ->
  body n line l = Next (mkLocals false (l_nodes l) (l_begin l) (l_end l) (Some n)).
Proof.
  intros Hin H. unfold body. rewrite H, Hin, !andb_false_r. reflexivity.
Qed.

Lemma body_data (n : Z) (line : string) (l : Locals) :
  in_node l = true -> Re.node line = false -> Spec.closes_nodes line = false ->
  body n line l
  = Next (mkLocals true (l_nodes l ++ [More.row_of_line line]) (l_begin l)
            (l_end l) (Some n)).
Proof.
  intros Hin Hn Hc. unfold Spec.closes_nodes in Hc. rewrite Hn, andb_true_r in Hc.
  apply orb_false_iff in Hc as [Hk Hcm].
  unfold body. rewrite Hn, Hin, Hk, Hcm. reflexivity.
Qed.

(** Before the first node-start line nothing is recorded. *)
Lemma scan_before (pre : list string) :
  forall n l,
    in_node l = false -> Forall (fun x => Re.node x = false) pre ->
    Scan.nodes n pre l
    = Next (mkLocals false (l_nodes l) (l_begin l) (l_end l)
              (match pre with
               | [] => line_number l
               | _ :: _ => Some (n + Z.of_nat (length pre) - 1)%Z
               end)).
Proof.
  induction pre as [|line rest IH]; intros n l Hin Hpre.
  - destruct l; simpl in *. subst. reflexivity.
  - inversion Hpre as [|? ? Hline Hrest]; subst.
    cbn [Scan.nodes]. rewrite (body_skip n line l Hin Hline).
    rewrite (IH (n + 1)%Z
               (mkLocals false (l_nodes l) (l_begin l) (l_end l) (Some n))
               eq_refl Hrest).
    cbn [l_nodes l_begin l_end line_number].
    destruct rest as [|line' rest]; f_equal; f_equal; f_equal; cbn [length]; lia.
Qed.

(** Inside the block: rows pile up, node-start lines move [begin]. *)
Lemma scan_block (blk : list string) :
  forall n l,
    in_node l = true ->
    Forall (fun x => Spec.closes_nodes x = false) blk ->
    Scan.nodes n blk l
    = Next (mkLocals true
              (l_nodes l ++ map More.row_of_line (More.data_lines blk))
              (More.last_begin n blk (l_begin l)) (l_end l)
              (match blk with
               | [] => line_number l
               | _ :: _ => Some (n + Z.of_nat (length blk) - 1)%Z
               end)).
Proof.
  induction blk as [|line rest IH]; intros n l Hin Hblk.
  - destruct l; simpl in *. subst. rewrite app_nil_r. reflexivity.
  - inversion Hblk as [|? ? Hline Hrest]; subst.
    cbn [Scan.nodes More.last_begin]. unfold More.data_lines. cbn [filter].
    fold (More.data_lines rest).
    destruct (Re.node line) eqn:Hn.
    + rewrite (body_node n line l Hn),
        (IH (n + 1)%Z (mkLocals true (l_nodes l) (Some n) (l_end l) (Some n))
            eq_refl Hrest).
      cbn [l_nodes l_begin l_end line_number negb].
      destruct rest as [|line' rest]; f_equal; f_equal; f_equal; cbn [length]; lia.
    + rewrite (body_data n line l Hin Hn Hline),
        (IH (n + 1)%Z
            (mkLocals true (l_nodes l ++ [More.row_of_line line]) (l_begin l)
               (l_end l) (Some n))
            eq_refl Hrest).
      cbn [l_nodes l_begin l_end line_number negb map].
      rewrite <- app_assoc.
      destruct rest as [|line' rest]; f_equal; f_equal; f_equal; cbn [length]; lia.
Qed.

Lemma last_begin_app (a b : list string) :
  forall n cur,
    More.last_begin n (a ++ b) cur
    = More.last_begin (n + Z.of_nat (length a))%Z b (More.last_begin n a cur).
Proof.
  induction a as [|x a IH]; intros n cur.
  - simpl. rewrite Z.add_0_r. reflexivity.
  - cbn [app More.last_begin length]. rewrite IH. f_equal. lia.
Qed.

Lemma last_begin_none (a : list string) :
  forall n cur,
    Forall (fun x => Re.node x = false) a -> More.last_begin n a cur = cur.
Proof.
  induction a as [|x a IH]; intros n cur Ha; [reflexivity|].
  inversion Ha as [|? ? Hx Hrest]; subst. cbn [More.last_begin]. rewrite Hx.
  apply IH. exact Hrest.
Qed.

(** Splitting a list at the last element that passes a test. *)
Lemma split_last {A : Type} (p : A -> bool) (xs : list A) :
  (exists x, In x xs /\ p x = true) ->
  exists before x after,
    xs = before ++ x :: after /\ p x = true /\ Forall (fun y => p y = false) after.
Proof.
  induction xs as [|x xs IH]; intros (y & Hy & Hp); [contradiction|].
  destruct (ScanFacts.split_first p xs) as [Hnone | (pre & z & rest & Hxs & _ & Hz)].
  - exists [], x, xs. split; [reflexivity|]. split; [|exact Hnone].
    destruct Hy as [-> | Hy]; [exact Hp|].
    rewrite Forall_forall in Hnone. rewrite (Hnone y Hy) in Hp. discriminate.
  - destruct IH as (before & u & after & -> & Hu & Hafter).
    { exists z. split; [rewrite Hxs; apply in_or_app; right; left; reflexivity|exact Hz]. }
    exists (x :: before), u, after. auto.
Qed.

(** The loop as a whole on a file with a node block. *)
Lemma loop_block (pre blk tail : list string) (m : string) :
  Forall (fun x => Re.node x = false) pre -> Re.node m = true ->
  Forall (fun x => Spec.closes_nodes x = false) blk ->
  (tail = [] \/ exists s post, tail = s :: post /\ Spec.closes_nodes s = true) ->
  let l := loop 0 (pre ++ m :: blk ++ tail) locals0 in
  l_nodes l = map More.row_of_line (More.data_lines blk)
  /\ l_begin l
     = More.last_begin (Z.of_nat (length pre) + 1) blk (Some (Z.of_nat (length pre)))
  /\ Scan.node_end l = Some (Z.of_nat (length pre + length blk)).
Proof.
  intros Hpre Hm Hblk Htail. cbv zeta.
  rewrite NodeFacts.node_loop_scan, NodeFacts.node_scan_app.
  rewrite (scan_before pre 0%Z locals0 eq_refl Hpre).
  cbn [Scan.nodes]. rewrite (body_node _ m _ Hm).
  rewrite NodeFacts.node_scan_app.
  rewrite (scan_block blk _
             (mkLocals true [] (Some (0 + Z.of_nat (length pre))%Z) None
                (Some (0 + Z.of_nat (length pre))%Z))
             eq_refl Hblk).
  cbn [l_nodes l_begin l_end line_number locals0 app].
  destruct Htail as [-> | (s & post & -> & Hs)].
  - cbn [Scan.nodes]. unfold Scan.node_end. cbn [l_nodes l_begin l_end line_number].
    split; [reflexivity|]. split; [reflexivity|].
    destruct blk; f_equal; cbn [length]; lia.
  - cbn [Scan.nodes].
    match goal with
    | |- context [body ?n s ?st] =>
        rewrite (NodeFacts.node_body_closes n s st eq_refl Hs)
    end.
    unfold Scan.node_end. cbn [l_nodes l_begin l_end line_number in_node].
    split; [reflexivity|]. split; [reflexivity|]. f_equal. lia.
Qed.

(** Without any node-start line nothing is found. *)
Lemma loop_without_node (lines : list string) :
  lines <> [] -> Forall (fun x => Re.node x = false) lines ->
  let l := loop 0 lines locals0 in
  l_nodes l = [] /\ l_begin l = None
  /\ Scan.node_end l = Some (Z.of_nat (length lines) - 1)%Z.
Proof.
  intros Hne Hlines. cbv zeta.
  rewrite NodeFacts.node_loop_scan, (scan_before lines 0%Z locals0 eq_refl Hlines).
  unfold Scan.node_end. cbn [l_nodes l_begin l_end line_number locals0].
  destruct lines; [congruence|]. repeat split.
Qed.

Lemma format_nodes_spec (nodes : list Row) :
  format_nodes nodes = More.serialize_nodes nodes.
Proof.
  unfold format_nodes, More.serialize_nodes.
  assert (H : forall acc,
             fold_left (fun acc node => acc ++ [(join "," node ++ nl)%string]) nodes acc
             = acc ++ map Spec.serialize_row nodes).
  { induction nodes as [|node nodes IH]; intros acc; simpl.
    - rewrite app_nil_r. reflexivity.
    - rewrite IH, <- app_assoc. reflexivity. }
  apply (H [("*NODE" ++ nl)%string]).
Qed.

(** [write] on an instance that holds nodes. *)
Lemma node_write_unfold (out : option string) (self : t) (w : World) (text : string) (e : Z) :
  nodes self <> [] ->
  st_end (state self) = Some e -> files w (inp_file self) = Some text ->
  let old := readlines text in
  let before := match st_begin (state self) with
                | Some b => lslice_to old b
                | None => old
                end in
  let target := Material.given_or (Material.mod_name (inp_file self)) out in
  write out self w =
  (Ok tt, self,
   Scan.reported target
     (Scan.written target
        (concat_lines (before ++ More.serialize_nodes (nodes self)
                       ++ lslice_from old (e + 1)))
        (Scan.announced target w))).
Proof.
  intros Hne Hend Hfile. cbv zeta.
  unfold write, bind, get_self.
  destruct (nodes self) as [|node ns] eqn:Hn; [congruence|].
  unfold read_text. rewrite Hfile, Hend.
  cbv beta iota delta [ret __format bind get_self].
  rewrite ReadFacts.validate_write. cbv beta iota.
  rewrite Hn, format_nodes_spec. reflexivity.
Qed.

End NodeMore.

Module NodeTrip.
Import PyStr Geometry.

Lemma last_begin_some (blk : list string) :
  forall n c, exists b, More.last_begin n blk (Some c) = Some b.
Proof.
  induction blk as [|x blk IH]; intros n c; cbn [More.last_begin]; [eauto|].
  destruct (Re.node x); apply IH.
Qed.

Lemma data_lines_all (blk : list string) :
  Forall (fun x => Re.node x = false) blk -> More.data_lines blk = blk.
Proof.
  unfold More.data_lines. induction 1 as [|x blk Hx _ IH]; [reflexivity|].
  cbn [filter]. rewrite Hx, IH. reflexivity.
Qed.

(** A data line of the block, written back from its row, is a data line
    with the same row. *)
Lemma rewritten_line (line : string) :
  Spec.closes_nodes line = false -> Re.node line = false ->
  let line' := Spec.serialize_row (More.row_of_line line) in
  line' = (drop_last line ++ nl)%string
  /\ Spec.closes_nodes line' = false /\ Re.node line' = false
  /\ More.row_of_line line' = More.row_of_line line.
Proof.
  intros Hc Hn. cbv zeta. unfold Spec.closes_nodes in Hc.
  rewrite Hn, andb_true_r in Hc. apply orb_false_iff in Hc as [Hk Hcm].
  assert (Heq : Spec.serialize_row (More.row_of_line line)
                = (drop_last line ++ nl)%string).
  { unfold Spec.serialize_row, More.row_of_line. rewrite StrFacts.join_split.
    reflexivity. }
  rewrite Heq.
  assert (Hk' : Re.generalkeyword (drop_last line ++ nl) = false).
  { destruct (Re.generalkeyword (drop_last line ++ nl)) eqn:E; [|reflexivity].
    apply ReFacts.keyword_rewritten in E. congruence. }
  assert (Hc' : Re.comment (drop_last line ++ nl) = false).
  { destruct (Re.comment (drop_last line ++ nl)) eqn:E; [|reflexivity].
    apply ReFacts.comment_rewritten in E. congruence. }
  assert (Hn' : Re.node (drop_last line ++ nl) = false).
  { destruct (Re.node (drop_last line ++ nl)) eqn:E; [|reflexivity].
    apply NodeMore.node_keyword in E. congruence. }
  split; [reflexivity|]. split; [|split; [exact Hn'|]].
  - unfold Spec.closes_nodes. rewrite Hk', Hc'. reflexivity.
  - unfold More.row_of_line. rewrite StrFacts.drop_last_nl. reflexivity.
Qed.

Lemma rewritten_block (blk : list string) :
  Forall (fun x => Spec.closes_nodes x = false /\ Re.node x = false) blk ->
  Forall (fun x => Wf.no_nl (drop_last x) = true) blk ->
  let blk' := map Spec.serialize_row (map More.row_of_line blk) in
  Forall (fun x => Spec.closes_nodes x = false) blk'
  /\ Forall (fun x => Re.node x = false) blk'
  /\ map More.row_of_line blk' = map More.row_of_line blk
  /\ Forall Wf.complete blk'.
Proof.
  intros Hblk Hnl. cbv zeta.
  induction Hblk as [|x blk [Hc Hn] _ IH]; [repeat split; constructor|].
  inversion Hnl as [|? ? Hx Hrest]; subst.
  destruct (IH Hrest) as (H1 & H2 & H3 & H4).
  destruct (rewritten_line x Hc Hn) as (Heq & Hc' & Hn' & Hrow).
  cbn [map]. repeat split; try (constructor; assumption).
  - rewrite Hrow, H3. reflexivity.
  - constructor; [|exact H4]. rewrite Heq. exists (drop_last x). auto.
Qed.

Lemma rewritten_no_cr (blk : list string) :
  Forall (fun x => Wf.no_cr x = true) blk ->
  Forall (fun x => Wf.no_cr x = true)
         (map Spec.serialize_row (map More.row_of_line blk)).
Proof.
  induction 1 as [|x blk Hx _ IH]; [constructor|].
  cbn [map]. constructor; [|exact IH].
  unfold Spec.serialize_row, More.row_of_line.
  rewrite StrFacts.join_split, LineFacts.no_cr_app, (CrFacts.no_cr_drop_last x Hx).
  reflexivity.
Qed.

(** [read] on a file cut into the lines before the block, the block and
    the lines from its closing line on. *)
Lemma read_block (inp text : string) (self : t) (w : World)
        (pre blk tail before after : list string) (m mm : string) :
  st_read (state self) = false ->
  files w inp = Some text ->
  PyStr.readlines text = pre ++ m :: blk ++ tail ->
  Forall (fun x => Re.node x = false) pre -> Re.node m = true ->
  Forall (fun x => Spec.closes_nodes x = false) blk ->
  (tail = [] \/ exists s post, tail = s :: post /\ Spec.closes_nodes s = true) ->
  m :: blk = before ++ mm :: after ->
  Re.node mm = true -> Forall (fun x => Re.node x = false) after ->
  read inp self w
  = (Ok tt,
     mk inp
       (mkState (Some (Z.of_nat (length pre + length before)))
          (Some (Z.of_nat (length pre + length blk))) true)
       (map More.row_of_line (More.data_lines blk)),
     Scan.remarked inp w).
Proof.
  intros Hread Hf Hlines Hpre Hm Hblk Htail Hsplit Hmm Hafter.
  assert (Ht : text <> EmptyString).
  { intros ->. simpl in Hlines. destruct pre; discriminate. }
  rewrite (NodeFacts.node_read_unfold inp text self w Hread Hf Ht). cbv zeta.
  rewrite Hlines.
  destruct (NodeMore.loop_block pre blk tail m Hpre Hm Hblk Htail) as (Hn & Hb & He).
  assert (Hlast : More.last_begin (Z.of_nat (length pre) + 1) blk
                    (Some (Z.of_nat (length pre)))
                  = Some (Z.of_nat (length pre + length before))).
  { change (More.last_begin (Z.of_nat (length pre) + 1) blk
              (Some (Z.of_nat (length pre))))
      with (More.last_begin (Z.of_nat (length pre) + 1) blk
              (if true then Some (Z.of_nat (length pre)) else None)).
    rewrite <- Hm.
    change (More.last_begin (Z.of_nat (length pre) + 1) blk
              (if Re.node m then Some (Z.of_nat (length pre)) else None))
      with (More.last_begin (Z.of_nat (length pre)) (m :: blk) None).
    rewrite Hsplit, NodeMore.last_begin_app. cbn [More.last_begin]. rewrite Hmm.
    rewrite (NodeMore.last_begin_none after _ _ Hafter). f_equal. lia. }
  rewrite He, Hb, Hlast, Hn. reflexivity.
Qed.

End NodeTrip.

(** X12.  [Geometry.read] never fails while it scans.  On an instance not
    read before and a file with some text, it goes through as soon as one
    line matches the node-start pattern; when no line does, it raises
    [UnboundLocalError] for [begin], after it has stored the path and put
    the empty list of nodes in place. *)
Theorem node_read_needs_a_node_line (inp text : string) (self : Geometry.t)
        (w : World) :
  Geometry.st_read (Geometry.state self) = false ->
  files w inp = Some text -> text <> EmptyString ->
  ((exists line, In line (PyStr.readlines text) /\ Re.node line = true) ->
   exists self', Geometry.read inp self w = (Ok tt, self', Scan.remarked inp w))
  /\ (Forall (fun x => Re.node x = false) (PyStr.readlines text) ->
      Geometry.read inp self w
      = (Raise (UnboundLocalError "begin"),
         Geometry.mk inp (Geometry.state self) [], Scan.remarked inp w)).
Proof.
  intros Hread Hf Ht.
  rewrite (NodeFacts.node_read_unfold inp text self w Hread Hf Ht). cbv zeta.
  split.
  - intros (line & Hin & Hnode).
    destruct (ScanFacts.split_first Re.node (PyStr.readlines text))
      as [Hnone | (pre & m & rest & Hlines & Hpre & Hm)].
    { rewrite Forall_forall in Hnone. rewrite (Hnone line Hin) in Hnode. discriminate. }
    assert (Hsplit : exists blk tail,
               rest = blk ++ tail
               /\ Forall (fun x => Spec.closes_nodes x = false) blk
               /\ (tail = [] \/ exists s post,
                      tail = s :: post /\ Spec.closes_nodes s = true)).
    { destruct (ScanFacts.split_first Spec.closes_nodes rest)
        as [Hopen | (blk & s & post & -> & Hblk & Hs)].
      - exists rest, []. rewrite app_nil_r. auto.
      - exists blk, (s :: post). split; [reflexivity|]. split; [exact Hblk|].
        right. eauto. }
    destruct Hsplit as (blk & tail & -> & Hblk & Htail).
    rewrite Hlines.
    destruct (NodeMore.loop_block pre blk tail m Hpre Hm Hblk Htail)
      as (_ & Hb & He).
    destruct (NodeTrip.last_begin_some blk (Z.of_nat (length pre) + 1)%Z
                (Z.of_nat (length pre))) as (b & Hb').
    rewrite He, Hb, Hb'. eexists. reflexivity.
  - intros Hnone.
    destruct (NodeMore.loop_without_node (PyStr.readlines text)
                (WriteFacts.readlines_not_nil text Ht) Hnone) as (Hn & Hb & He).
    rewrite He, Hb, Hn. reflexivity.
Qed.

Lemma node_read_needs_a_node_line_example :
  Geometry.st_read (Geometry.state Geometry.init) = false
  /\ files Example.world "step.inp" = Some Example.step_text
  /\ Example.step_text <> EmptyString
  /\ Forall (fun x => Re.node x = false) (PyStr.readlines Example.step_text)
  /\ Geometry.read "step.inp" Geometry.init Example.world
     = (Raise (UnboundLocalError "begin"),
        Geometry.mk "step.inp" (Geometry.mkState None None false) [],
        Example.world).
Proof.
  assert (Hl : Forall (fun x => Re.node x = false)
                 (PyStr.readlines Example.step_text)) by (repeat constructor).
  split; [reflexivity|]. split; [reflexivity|]. split; [discriminate|].
  split; [exact Hl|].
  exact (proj2 (node_read_needs_a_node_line "step.inp" Example.step_text
                  Geometry.init Example.world eq_refl eq_refl ltac:(discriminate)) Hl).
Defined.

(** X13.  What [Geometry.read] extracts.  For a file whose node block
    starts with the line [m], goes on with the lines [blk], none of which
    closes it, and ends with the file or at a keyword or comment line:
    the nodes are the rows of the data lines of [blk], each line without its
    last character split at the commas, in order; ['end'] is the index of
    the last line of [blk]; and ['begin'] is the index of the last
    node-start line of the block ([mm], after which the block has no other),
    not of the first. *)
Theorem node_block_extraction (inp text : string) (self : Geometry.t) (w : World)
        (pre blk tail before after : list string) (m mm : string) :
  Geometry.st_read (Geometry.state self) = false ->
  files w inp = Some text ->
  PyStr.readlines text = pre ++ m :: blk ++ tail ->
  Forall (fun x => Re.node x = false) pre -> Re.node m = true ->
  Forall (fun x => Spec.closes_nodes x = false) blk ->
  (tail = [] \/ exists s post, tail = s :: post /\ Spec.closes_nodes s = true) ->
  m :: blk = before ++ mm :: after ->
  Re.node mm = true -> Forall (fun x => Re.node x = false) after ->
  Geometry.read inp self w
  = (Ok tt,
     Geometry.mk inp
       (Geometry.mkState (Some (Z.of_nat (length pre + length before)))
          (Some (Z.of_nat (length pre + length blk))) true)
       (map More.row_of_line (More.data_lines blk)),
     Scan.remarked inp w).
Proof.
  exact (NodeTrip.read_block inp text self w pre blk tail before after m mm).
Qed.

Lemma node_block_extraction_example :
  Geometry.read "two.inp" Geometry.init More.two_world
  = (Ok tt,
     Geometry.mk "two.inp" (Geometry.mkState (Some 2%Z) (Some 3%Z) true)
       [["1"; "0."; "0."]; ["2"; "1."; "0."]]%string,
     More.two_world).
Proof.
  exact (node_block_extraction "two.inp" More.two_text Geometry.init
           More.two_world []
           [More.two_row1; More.two_second; More.two_row2]
           [More.two_close] [More.two_first; More.two_row1] [More.two_row2]
           More.two_first More.two_second
           eq_refl eq_refl eq_refl (Forall_nil _) eq_refl
           ltac:(repeat constructor)
           (or_intror (ex_intro _ More.two_close
              (ex_intro _ [] (conj eq_refl eq_refl))))
           eq_refl eq_refl ltac:(repeat constructor)).
Defined.

Module NodeWrite.
Import PyStr Geometry.

Lemma firstn_block {A : Type} (pre before rest : list A) :
  firstn (length pre + length before) (pre ++ before ++ rest) = pre ++ before.
Proof.
  rewrite app_assoc, <- length_app, firstn_app, firstn_all, Nat.sub_diag.
  cbn [firstn]. apply app_nil_r.
Qed.

Lemma skipn_block {A : Type} (pre blk tail : list A) (m : A) :
  skipn (length pre + length blk + 1) (pre ++ m :: blk ++ tail) = tail.
Proof.
  replace (pre ++ m :: blk ++ tail) with ((pre ++ m :: blk) ++ tail)
    by (rewrite <- app_assoc; reflexivity).
  replace (length pre + length blk + 1)%nat with (length (pre ++ m :: blk))
    by (rewrite length_app; cbn [length]; lia).
  rewrite skipn_app, skipn_all, Nat.sub_diag. reflexivity.
Qed.

(** [write] after [read] went through on the file of [NodeTrip.read_block]. *)
Lemma write_block (inp text : string) (out : option string) (w : World)
      (pre blk tail before after : list string) (m mm : string) :
  files w inp = Some text ->
  readlines text = pre ++ m :: blk ++ tail ->
  m :: blk = before ++ mm :: after ->
  More.data_lines blk <> [] ->
  let self' := mk inp (mkState (Some (Z.of_nat (length pre + length before)))
                         (Some (Z.of_nat (length pre + length blk))) true)
                  (map More.row_of_line (More.data_lines blk)) in
  let target := Material.given_or (Material.mod_name inp) out in
  write out self' w
  = (Ok tt, self',
     Scan.reported target
       (Scan.written target
          (concat_lines (pre ++ before
                         ++ More.serialize_nodes
                              (map More.row_of_line (More.data_lines blk))
                         ++ tail))
          (Scan.announced target w))).
Proof.
  intros Hf Hlines Hsplit Hdata. cbv zeta.
  rewrite (NodeMore.node_write_unfold out _ w text
             (Z.of_nat (length pre + length blk)));
    [|cbn [nodes]; destruct (More.data_lines blk); [congruence|discriminate]
     |reflexivity|exact Hf].
  cbv zeta. cbn [state st_begin nodes inp_file].
  rewrite LineFacts.lslice_to_nonneg, LineFacts.lslice_from_nonneg by lia.
  rewrite Hlines.
  replace (Z.to_nat (Z.of_nat (length pre + length blk) + 1))
    with (length pre + length blk + 1)%nat by lia.
  rewrite Nat2Z.id, skipn_block.
  change (m :: blk ++ tail) with ((m :: blk) ++ tail).
  rewrite Hsplit, <- app_assoc.
  change ((mm :: after) ++ tail) with (mm :: after ++ tail).
  replace (pre ++ before ++ mm :: after ++ tail)
    with (pre ++ before ++ (mm :: after ++ tail)) by reflexivity.
  rewrite firstn_block, <- app_assoc. reflexivity.
Qed.

End NodeWrite.

(** [read] and then [write] on a block with a single node-start line. *)
Lemma node_read_then_write_block (inp text : string) (out : option string)
      (self : Geometry.t) (w : World) (pre blk tail : list string) (m : string) :
  Geometry.st_read (Geometry.state self) = false ->
  files w inp = Some text ->
  PyStr.readlines text = pre ++ m :: blk ++ tail ->
  Forall (fun x => Re.node x = false) pre -> Re.node m = true ->
  Forall (fun x => Spec.closes_nodes x = false) blk ->
  (tail = [] \/ exists s post, tail = s :: post /\ Spec.closes_nodes s = true) ->
  Forall (fun x => Re.node x = false) blk -> blk <> [] ->
  let rows := map More.row_of_line blk in
  let target := Material.given_or (Material.mod_name inp) out in
  (Geometry.read inp ;; Geometry.write out) self w
  = (Ok tt,
     Geometry.mk inp
       (Geometry.mkState (Some (Z.of_nat (length pre)))
          (Some (Z.of_nat (length pre + length blk))) true) rows,
     Scan.reported target
       (Scan.written target
          (PyStr.concat_lines
             (pre ++ ("*NODE" ++ PyStr.nl)%string
                  :: map Spec.serialize_row rows ++ tail))
          (Scan.announced target (Scan.remarked inp w)))).
Proof.
  intros Hread Hf Hlines Hpre Hm Hblk Htail Hdata Hne. cbv zeta.
  assert (Hall : More.data_lines blk = blk) by exact (NodeTrip.data_lines_all blk Hdata).
  unfold bind.
  rewrite (NodeTrip.read_block inp text self w pre blk tail [] blk m m
             Hread Hf Hlines Hpre Hm Hblk Htail eq_refl Hm Hdata).
  cbv iota.
  assert (Hf' : files (Scan.remarked inp w) inp = Some text)
    by (rewrite ReadFacts.files_remarked; exact Hf).
  assert (Hd : More.data_lines blk <> []) by (rewrite Hall; exact Hne).
  pose proof (NodeWrite.write_block inp text out (Scan.remarked inp w)
                pre blk tail [] blk m m Hf' Hlines eq_refl Hd) as H.
  cbv zeta in H. rewrite Hall in *. cbn [length app] in *.
  rewrite Nat.add_0_r in *. exact H.
Qed.

(** X14.  [Geometry.read] followed by [Geometry.write].  The file written
    holds the lines of the source up to the last node-start line of the
    block, then [*NODE] and one line per node, the fields joined with
    commas, then the lines from the closing line on.  So when the block has
    a second node-start line, the lines in front of it stay and their nodes
    are written a second time.  The instance is left as [read] made it. *)
Theorem node_read_then_write (inp text : string) (out : option string)
        (self : Geometry.t) (w : World)
        (pre blk tail before after : list string) (m mm : string) :
  Geometry.st_read (Geometry.state self) = false ->
  files w inp = Some text ->
  PyStr.readlines text = pre ++ m :: blk ++ tail ->
  Forall (fun x => Re.node x = false) pre -> Re.node m = true ->
  Forall (fun x => Spec.closes_nodes x = false) blk ->
  (tail = [] \/ exists s post, tail = s :: post /\ Spec.closes_nodes s = true) ->
  m :: blk = before ++ mm :: after ->
  Re.node mm = true -> Forall (fun x => Re.node x = false) after ->
  More.data_lines blk <> [] ->
  let rows := map More.row_of_line (More.data_lines blk) in
  let target := Material.given_or (Material.mod_name inp) out in
  (Geometry.read inp ;; Geometry.write out) self w
  = (Ok tt,
     Geometry.mk inp
       (Geometry.mkState (Some (Z.of_nat (length pre + length before)))
          (Some (Z.of_nat (length pre + length blk))) true) rows,
     Scan.reported target
       (Scan.written target
          (PyStr.concat_lines
             (pre ++ before ++ More.serialize_nodes rows ++ tail))
          (Scan.announced target (Scan.remarked inp w)))).
Proof.
  intros Hread Hf Hlines Hpre Hm Hblk Htail Hsplit Hmm Hafter Hdata. cbv zeta.
  unfold bind.
  rewrite (NodeTrip.read_block inp text self w pre blk tail before after m mm
             Hread Hf Hlines Hpre Hm Hblk Htail Hsplit Hmm Hafter).
  cbv iota.
  assert (Hf' : files (Scan.remarked inp w) inp = Some text)
    by (rewrite ReadFacts.files_remarked; exact Hf).
  exact (NodeWrite.write_block inp text out (Scan.remarked inp w)
           pre blk tail before after m mm Hf' Hlines Hsplit Hdata).
Qed.

Lemma node_read_then_write_example :
  (Geometry.read "two.inp" ;; Geometry.write None) Geometry.init More.two_world
  = (Ok tt,
     Geometry.mk "two.inp" (Geometry.mkState (Some 2%Z) (Some 3%Z) true)
       [["1"; "0."; "0."]; ["2"; "1."; "0."]]%string,
     Scan.reported "two_mod.inp"
       (Scan.written "two_mod.inp"
          (PyStr.concat_lines
             [More.two_first; More.two_row1;
              ("*NODE" ++ PyStr.nl)%string; More.two_row1; More.two_row2;
              More.two_close])
          More.two_world)).
Proof.
  exact (node_read_then_write "two.inp" More.two_text None Geometry.init
           More.two_world []
           [More.two_row1; More.two_second; More.two_row2]
           [More.two_close] [More.two_first; More.two_row1] [More.two_row2]
           More.two_first More.two_second
           eq_refl eq_refl eq_refl (Forall_nil _) eq_refl
           ltac:(repeat constructor)
           (or_intror (ex_intro _ More.two_close
              (ex_intro _ [] (conj eq_refl eq_refl))))
           eq_refl eq_refl ltac:(repeat constructor) ltac:(discriminate)).
Defined.

(* ================================================================== *)
(** ** The node locator *)

Module NodeClose.
Import PyStr Geometry.


End NodeClose.




(** X15.  Round trip of the node block.  Take a file whose node block has
    one node-start line, followed by at least one data line and closed by
    the end of the file or by a keyword or comment line.  [read] and then
    [write] store a file that a new instance reads back to the same nodes,
    the same ['begin'] and the same ['end']. *)
Theorem node_round_trip (inp text : string) (out : option string)
        (self fresh : Geometry.t) (w : World)
        (pre blk tail : list string) (m : string) :
  Geometry.st_read (Geometry.state self) = false ->
  Geometry.st_read (Geometry.state fresh) = false ->
  files w inp = Some text ->
  PyStr.readlines text = pre ++ m :: blk ++ tail ->
  Forall (fun x => Re.node x = false) pre -> Re.node m = true ->
  Forall (fun x => Spec.closes_nodes x = false /\ Re.node x = false) blk ->
  blk <> [] ->
  (tail = [] \/ exists s post, tail = s :: post /\ Spec.closes_nodes s = true) ->
  let target := Material.given_or (Material.mod_name inp) out in
  let st := Geometry.mkState (Some (Z.of_nat (length pre)))
              (Some (Z.of_nat (length pre + length blk))) true in
  let rows := map More.row_of_line blk in
  exists w',
    (Geometry.read inp ;; Geometry.write out) self w
    = (Ok tt, Geometry.mk inp st rows, w')
    /\ Geometry.read target fresh w'
       = (Ok tt, Geometry.mk target st rows, Scan.remarked target w').
Proof.
  intros Hread Hfresh Hf Hlines Hpre Hm Hblk Hne Htail. cbv zeta.
  assert (Hclose : Forall (fun x => Spec.closes_nodes x = false) blk)
    by (eapply Forall_impl; [|exact Hblk]; intros x [H _]; exact H).
  assert (Hdata : Forall (fun x => Re.node x = false) blk)
    by (eapply Forall_impl; [|exact Hblk]; intros x [_ H]; exact H).
  assert (Hall : More.data_lines blk = blk) by exact (NodeTrip.data_lines_all blk Hdata).
  assert (Ht : text <> EmptyString).
  { intros ->. simpl in Hlines. destruct pre; discriminate. }
  (* the lines of the source *)
  pose proof (LineFacts.lines_ok_readlines text) as Hok. rewrite Hlines in Hok.
  assert (Hpre_c : Forall Wf.complete pre).
  { apply (LineFacts.lines_ok_split pre (m :: blk ++ tail)); [discriminate|exact Hok]. }
  assert (Htail_ok : Wf.lines_ok tail).
  { pose proof (LineFacts.lines_ok_skipn (length pre + length blk + 1) _ Hok) as H.
    rewrite NodeWrite.skipn_block in H. exact H. }
  assert (Hblk_nl : Forall (fun x => Wf.no_nl (PyStr.drop_last x) = true) blk).
  { pose proof (LineFacts.lines_ok_each _ Hok) as H.
    apply Forall_app in H as [_ H]. inversion H as [|? ? _ H']; subst.
    apply Forall_app in H' as [H' _]. exact H'. }
  destruct (NodeTrip.rewritten_block blk Hblk Hblk_nl) as (Hc' & Hn' & Hrows & Hcomp).
  pose proof (LineFacts.readlines_no_cr text) as Hcr. rewrite Hlines in Hcr.
  apply Forall_app in Hcr as [Hcr_pre Hcr].
  inversion Hcr as [|? ? _ Hcr']; subst. clear Hcr.
  apply Forall_app in Hcr' as [Hcr_blk Hcr_tail].
  pose proof (NodeTrip.rewritten_no_cr blk Hcr_blk) as Hcr_new.
  set (rows := map More.row_of_line blk) in *.
  set (blk' := map Spec.serialize_row rows) in *.
  set (target := Material.given_or (Material.mod_name inp) out).
  (* the first read and the write *)
  pose proof (node_read_then_write_block inp text out self w pre blk tail m
                Hread Hf Hlines Hpre Hm Hclose Htail Hdata Hne) as Hrun.
  cbv zeta in Hrun. fold rows target in Hrun.
  eexists. split; [exact Hrun|].
  (* the second read *)
  set (new := pre ++ ("*NODE" ++ PyStr.nl)%string :: blk' ++ tail).
  assert (Hnew_ok : Wf.lines_ok new).
  { unfold new. apply LineFacts.lines_ok_app; [exact Hpre_c|].
    change (Wf.lines_ok ((("*NODE" ++ PyStr.nl)%string :: blk') ++ tail)).
    apply LineFacts.lines_ok_app; [|exact Htail_ok].
    constructor; [|exact Hcomp]. exists "*NODE". split; reflexivity. }
  assert (Hlen : length blk' = length blk)
    by (unfold blk', rows; rewrite !length_map; reflexivity).
  pose proof (NodeTrip.read_block target (PyStr.concat_lines new) fresh
                (Scan.reported target
                   (Scan.written target (PyStr.concat_lines new)
                      (Scan.announced target (Scan.remarked inp w))))
                pre blk' tail [] blk' ("*NODE" ++ PyStr.nl)%string
                ("*NODE" ++ PyStr.nl)%string Hfresh) as Hagain.
  rewrite (NodeTrip.data_lines_all blk' Hn'), Hrows, Hlen, Nat.add_0_r in Hagain.
  apply Hagain; try assumption; try reflexivity.
  - unfold Scan.reported, Scan.written. cbn [files]. rewrite String.eqb_refl.
    reflexivity.
  - apply (LineFacts.readlines_concat new Hnew_ok). unfold new.
    apply Forall_app. split; [exact Hcr_pre|]. constructor; [reflexivity|].
    apply Forall_app. split; [exact Hcr_new|exact Hcr_tail].
Qed.

Lemma node_round_trip_example :
  exists w',
    (Geometry.read "mesh.inp" ;; Geometry.write None) Geometry.init Example.world
    = (Ok tt,
       Geometry.mk "mesh.inp" (Geometry.mkState (Some 1%Z) (Some 3%Z) true)
         [["1"; "1.0"; "2.0"]; ["2"; "3.0"; "4.0"]]%string, w')
    /\ Geometry.read "mesh_mod.inp" Geometry.init w'
       = (Ok tt,
          Geometry.mk "mesh_mod.inp" (Geometry.mkState (Some 1%Z) (Some 3%Z) true)
            [["1"; "1.0"; "2.0"]; ["2"; "3.0"; "4.0"]]%string,
          Scan.remarked "mesh_mod.inp" w').
Proof.
  exact (node_round_trip "mesh.inp" Example.node_text None Geometry.init
           Geometry.init Example.world
           [("*Heading" ++ PyStr.nl)%string]
           [("1,1.0,2.0" ++ PyStr.nl)%string; ("2,3.0,4.0" ++ PyStr.nl)%string]
           [("*Element, type=CPS4" ++ PyStr.nl)%string;
            ("1,1,2,3,4" ++ PyStr.nl)%string]
           ("*Node" ++ PyStr.nl)%string
           eq_refl eq_refl eq_refl eq_refl
           ltac:(repeat constructor) eq_refl
           ltac:(repeat constructor) ltac:(discriminate)
           (or_intror (ex_intro _ ("*Element, type=CPS4" ++ PyStr.nl)%string
              (ex_intro _ [("1,1,2,3,4" ++ PyStr.nl)%string]
                 (conj eq_refl eq_refl))))).
Defined.

(** X16.  [Geometry] has no way around [read].  On an instance whose state
    holds no ['end'], as the constructor makes it, [write] always raises and
    touches neither the instance nor any file: with no nodes the [Exception]
    ['Material does not exist. Nothing to write.'], with nodes set by hand
    [FileNotFoundError] when [inp_file] names no file and [TypeError]
    otherwise.  A [read] that raises leaves the state as it was, so [write]
    still raises after it. *)
Theorem node_write_needs_read (inp : string) (out : option string)
        (self self' : Geometry.t) (w w' : World) (e : exn) :
  Geometry.st_end (Geometry.state self) = None ->
  Geometry.read inp self w = (Raise e, self', w') ->
  Geometry.state self' = Geometry.state self
  /\ forall (ns : list Row) (w2 : World),
       let hand := Geometry.mk (Geometry.inp_file self') (Geometry.state self') ns in
       Geometry.write out hand w2
       = (Raise (match ns with
                 | [] => Exception "Material does not exist. Nothing to write."
                 | _ :: _ =>
                     match files w2 (Geometry.inp_file self') with
                     | None => FileNotFoundError (Geometry.inp_file self')
                     | Some _ => TypeError "unsupported operand type(s) for +"
                     end
                 end), hand, w2).
Proof.
  intros Hend Hrun.
  assert (Hstate : Geometry.state self' = Geometry.state self).
  { destruct (Geometry.st_read (Geometry.state self)) eqn:Hread.
    - unfold Geometry.read, bind, get_self in Hrun. rewrite Hread in Hrun.
      inversion Hrun. reflexivity.
    - destruct (files w inp) as [text|] eqn:Hf.
      + destruct (String.eqb text EmptyString) eqn:Ht.
        * unfold Geometry.read, bind, get_self in Hrun.
          rewrite Hread, ReadFacts.validate_read, Hf, Ht in Hrun.
          inversion Hrun. reflexivity.
        * apply String.eqb_neq in Ht.
          rewrite (NodeFacts.node_read_unfold inp text self w Hread Hf Ht) in Hrun.
          cbv zeta in Hrun.
          destruct (Scan.node_end _); [|inversion Hrun; reflexivity].
          destruct (Geometry.l_begin _); [discriminate|].
          inversion Hrun. reflexivity.
      + unfold Geometry.read, bind, get_self in Hrun.
        rewrite Hread, ReadFacts.validate_read, Hf in Hrun.
        inversion Hrun. reflexivity. }
  split; [exact Hstate|]. intros ns w2. cbv zeta.
  unfold Geometry.write, bind, get_self. cbn [Geometry.nodes Geometry.inp_file Geometry.state].
  destruct ns as [|n ns]; [reflexivity|].
  unfold read_text. destruct (files w2 (Geometry.inp_file self')); [|reflexivity].
  rewrite Hstate, Hend. reflexivity.
Qed.

Lemma node_write_needs_read_example :
  Geometry.write None
    (Geometry.mk "step.inp" (Geometry.mkState None None false)
       [["1"; "0."; "0."]]%string) Example.world
  = (Raise (TypeError "unsupported operand type(s) for +"),
     Geometry.mk "step.inp" (Geometry.mkState None None false)
       [["1"; "0."; "0."]]%string, Example.world).
Proof.
  exact (proj2 (node_write_needs_read "step.inp" None Geometry.init
                  (Geometry.mk "step.inp" (Geometry.mkState None None false) [])
                  Example.world Example.world (UnboundLocalError "begin")
                  eq_refl eq_refl)
           [["1"; "0."; "0."]]%string Example.world).
Defined.

(** X17.  A [Geometry] reads one file in its life.  Once [read] went
    through, a second [read], whatever the file, raises the [Exception]
    ['Material database already exists. ...'] (the message of [Material]),
    prints nothing and leaves the nodes and the state alone. *)
Theorem node_read_only_once (inp inp2 : string) (self self1 : Geometry.t)
        (w w1 w2 : World) :
  Geometry.read inp self w = (Ok tt, self1, w1) ->
  Geometry.read inp2 self1 w2
  = (Raise (Exception ("Material database already exists. Instantiate a "
                       ++ "new Material object for another database.")),
     self1, w2).
Proof.
  intros Hrun.
  assert (Hdone : Geometry.st_read (Geometry.state self1) = true).
  { destruct (Geometry.st_read (Geometry.state self)) eqn:Hread.
    - unfold Geometry.read, bind, get_self in Hrun. rewrite Hread in Hrun.
      discriminate.
    - destruct (files w inp) as [text|] eqn:Hf.
      + destruct (String.eqb text EmptyString) eqn:Ht.
        * unfold Geometry.read, bind, get_self in Hrun.
          rewrite Hread, ReadFacts.validate_read, Hf, Ht in Hrun. discriminate.
        * apply String.eqb_neq in Ht.
          rewrite (NodeFacts.node_read_unfold inp text self w Hread Hf Ht) in Hrun.
          cbv zeta in Hrun.
          destruct (Scan.node_end _); [|discriminate].
          destruct (Geometry.l_begin _); [|discriminate].
          inversion Hrun. reflexivity.
      + unfold Geometry.read, bind, get_self in Hrun.
        rewrite Hread, ReadFacts.validate_read, Hf in Hrun. discriminate. }
  unfold Geometry.read, bind, get_self. rewrite Hdone. reflexivity.
Qed.

Lemma node_read_only_once_example :
  Geometry.read "step.inp"
    (Geometry.mk "two.inp" (Geometry.mkState (Some 2%Z) (Some 3%Z) true)
       [["1"; "0."; "0."]; ["2"; "1."; "0."]]%string) Example.world
  = (Raise (Exception ("Material database already exists. Instantiate a "
                       ++ "new Material object for another database.")),
     Geometry.mk "two.inp" (Geometry.mkState (Some 2%Z) (Some 3%Z) true)
       [["1"; "0."; "0."]; ["2"; "1."; "0."]]%string, Example.world).
Proof.
  exact (node_read_only_once "two.inp" "step.inp" Geometry.init _
           More.two_world More.two_world Example.world eq_refl).
Defined.

(* ================================================================== *)
(** ** More on node scaling *)

Module ScaleMore.
Import Geometry.

Section WithPython.
Variable pyfloat : string -> option float.
Variable pystr : float -> string.
Variable factor : float.

Lemma scale_coordinates_stop (good rest : list string) (bad : string) :
  Forall (fun c => pyfloat c <> None) good -> pyfloat bad = None ->
  scale_coordinates pyfloat pystr factor (good ++ bad :: rest)
  = (map (Spec.scaled_field pyfloat pystr factor) good ++ bad :: rest,
     Some (ValueError bad)).
Proof.
  intros Hgood Hbad. induction Hgood as [|c cs Hc _ IH].
  - cbn [app map scale_coordinates]. rewrite Hbad. reflexivity.
  - destruct (pyfloat c) as [x|] eqn:E; [|congruence].
    cbn [app map scale_coordinates]. rewrite E, IH.
    rewrite (ScaleFacts.scaled_field_numeric pyfloat pystr factor c x E).
    reflexivity.
Qed.

Lemma scale_nodes_stop (done later : list Row) (row row' : Row) (e : exn) :
  Forall (Spec.numeric pyfloat) done ->
  scale_node pyfloat pystr factor row = (row', Some e) ->
  scale_nodes pyfloat pystr factor (done ++ row :: later)
  = (map (Spec.scaled_row pyfloat pystr factor) done ++ row' :: later, Some e).
Proof.
  intros Hdone Hrow. induction Hdone as [|n ns Hn _ IH].
  - cbn [app map scale_nodes]. rewrite Hrow. reflexivity.
  - cbn [app map scale_nodes].
    rewrite (ScaleFacts.scale_node_numeric pyfloat pystr factor n Hn), IH.
    reflexivity.
Qed.

(** [scale] when the loops stop at an error. *)
Lemma scale_raise (self : t) (w : World) (ns' : list Row) (e : exn) :
  nodes self <> [] ->
  scale_nodes pyfloat pystr factor (nodes self) = (ns', Some e) ->
  scale pyfloat pystr factor self w
  = (Raise e, mk (inp_file self) (state self) ns', w).
Proof.
  intros Hne Hrun. unfold scale, bind, get_self.
  destruct (nodes self) as [|n ns] eqn:E; [congruence|].
  rewrite Hrun. reflexivity.
Qed.

End WithPython.

Lemma twice_field_spec (pyfloat : string -> option float) (pystr : float -> string)
      (f g : float) (c : string) (x : float) :
  pyfloat c = Some x ->
  pyfloat (" " ++ pystr (PrimFloat.mul x f))%string = Some (PrimFloat.mul x f) ->
  pyfloat (Spec.scaled_field pyfloat pystr f c) <> None
  /\ Spec.scaled_field pyfloat pystr g (Spec.scaled_field pyfloat pystr f c)
     = More.twice_field pyfloat pystr f g c.
Proof.
  intros Hx Hback. unfold Spec.scaled_field, More.twice_field.
  rewrite Hx. cbv iota. rewrite Hback. split; [discriminate|reflexivity].
Qed.

Lemma twice_row_spec (pyfloat : string -> option float) (pystr : float -> string)
      (f g : float) (row : Row) :
  More.reads_back pyfloat pystr f row ->
  Spec.numeric pyfloat row
  /\ Spec.numeric pyfloat (Spec.scaled_row pyfloat pystr f row)
  /\ Spec.scaled_row pyfloat pystr g (Spec.scaled_row pyfloat pystr f row)
     = More.twice_row pyfloat pystr f g row.
Proof.
  unfold More.reads_back, Spec.numeric.
  destruct row as [|ident cs]; [repeat split; constructor|].
  cbn [tl Spec.scaled_row More.twice_row]. intros H.
  induction H as [|c cs (x & Hx & Hback) _ (IH1 & IH2 & IH3)];
    [repeat split; constructor|].
  destruct (twice_field_spec pyfloat pystr f g c x Hx Hback) as [Hnum Heq].
  cbn [map].
  split; [constructor; [congruence|exact IH1]|].
  split; [constructor; [exact Hnum|exact IH2]|].
  injection IH3 as IH3. rewrite Heq, IH3. reflexivity.
Qed.

End ScaleMore.

(** X18.  [scale] stops half way at a coordinate that is no number.  When
    the rows [done] are numeric and the next row holds, after the numeric
    coordinates [good], the text [bad] that [float] refuses, [scale] raises
    the [ValueError] of [bad] and leaves the nodes partly scaled: the rows
    of [done] and the coordinates [good] are replaced, [bad], the rest of
    its row and the later rows are as before. *)
Theorem scale_stops_half_way (pyfloat : string -> option float)
        (pystr : float -> string) (factor : float) (self : Geometry.t) (w : World)
        (done later : list Row) (ident bad : string) (good rest : list string) :
  Geometry.nodes self = done ++ (ident :: good ++ bad :: rest) :: later ->
  Forall (Spec.numeric pyfloat) done ->
  Forall (fun c => pyfloat c <> None) good -> pyfloat bad = None ->
  Geometry.scale pyfloat pystr factor self w
  = (Raise (ValueError bad),
     Geometry.mk (Geometry.inp_file self) (Geometry.state self)
       (map (Spec.scaled_row pyfloat pystr factor) done
        ++ (ident :: map (Spec.scaled_field pyfloat pystr factor) good
                  ++ bad :: rest) :: later),
     w).
Proof.
  intros Hn Hdone Hgood Hbad.
  apply ScaleMore.scale_raise.
  - rewrite Hn. destruct done; discriminate.
  - rewrite Hn. apply ScaleMore.scale_nodes_stop; [exact Hdone|].
    cbn [Geometry.scale_node].
    rewrite (ScaleMore.scale_coordinates_stop pyfloat pystr factor good rest bad
               Hgood Hbad).
    reflexivity.
Qed.

Lemma scale_stops_half_way_example :
  Geometry.scale PyFloat.float_of_decimal PyFloat.str_of_whole 2%float
    (Geometry.mk "mesh.inp" (Geometry.mkState (Some 1%Z) (Some 3%Z) true)
       [["1"; "1.0"; "2.0"]; ["2"; "3.0"; "x"; "5.0"]; ["3"; "1.0"]]%string)
    Example.world
  = (Raise (ValueError "x"),
     Geometry.mk "mesh.inp" (Geometry.mkState (Some 1%Z) (Some 3%Z) true)
       [["1"; " 2.0"; " 4.0"]; ["2"; " 6.0"; "x"; "5.0"]; ["3"; "1.0"]]%string,
     Example.world).
Proof.
  exact (scale_stops_half_way PyFloat.float_of_decimal PyFloat.str_of_whole
           2%float
           (Geometry.mk "mesh.inp" (Geometry.mkState (Some 1%Z) (Some 3%Z) true)
              [["1"; "1.0"; "2.0"]; ["2"; "3.0"; "x"; "5.0"]; ["3"; "1.0"]]%string)
           Example.world
           [["1"; "1.0"; "2.0"]]%string [["3"; "1.0"]]%string
           "2"%string "x"%string ["3.0"]%string ["5.0"]%string
           eq_refl
           ltac:(repeat constructor; discriminate)
           ltac:(repeat constructor; discriminate)
           eq_refl).
Defined.

(** X19.  [scale] twice.  Each call reads the coordinates anew from the
    texts the nodes hold.  When [float] reads the text the first call
    stored back as the product it printed, scaling by [f] and then by [g]
    leaves, for a coordinate of value [x], a blank and the text of
    [(x * f) * g], the two products rounded one after the other; the
    identifiers stay. *)
Theorem scale_twice (pyfloat : string -> option float) (pystr : float -> string)
        (f g : float) (self : Geometry.t) (w : World) :
  Geometry.nodes self <> [] ->
  Forall (More.reads_back pyfloat pystr f) (Geometry.nodes self) ->
  (Geometry.scale pyfloat pystr f ;; Geometry.scale pyfloat pystr g) self w
  = (Ok tt,
     Geometry.mk (Geometry.inp_file self) (Geometry.state self)
       (map (More.twice_row pyfloat pystr f g) (Geometry.nodes self)),
     w).
Proof.
  intros Hne Hback.
  assert (H1 : Forall (Spec.numeric pyfloat) (Geometry.nodes self)).
  { eapply Forall_impl; [|exact Hback]. intros row H.
    exact (proj1 (ScaleMore.twice_row_spec pyfloat pystr f g row H)). }
  assert (H2 : Forall (Spec.numeric pyfloat)
                 (map (Spec.scaled_row pyfloat pystr f) (Geometry.nodes self))).
  { apply Forall_map. eapply Forall_impl; [|exact Hback]. intros row H.
    exact (proj1 (proj2 (ScaleMore.twice_row_spec pyfloat pystr f g row H))). }
  assert (H3 : map (Spec.scaled_row pyfloat pystr g)
                 (map (Spec.scaled_row pyfloat pystr f) (Geometry.nodes self))
               = map (More.twice_row pyfloat pystr f g) (Geometry.nodes self)).
  { rewrite map_map. apply map_ext_in. intros row Hin.
    rewrite Forall_forall in Hback.
    exact (proj2 (proj2 (ScaleMore.twice_row_spec pyfloat pystr f g row
                           (Hback row Hin)))). }
  unfold bind at 1.
  unfold Geometry.scale at 1, bind, get_self.
  destruct (Geometry.nodes self) as [|n ns] eqn:E; [congruence|].
  rewrite (ScaleFacts.scale_nodes_numeric pyfloat pystr f _ H1).
  unfold Geometry.set_nodes, ret. cbv iota.
  unfold Geometry.scale, bind, get_self. cbn [Geometry.nodes].
  destruct (map (Spec.scaled_row pyfloat pystr f) (n :: ns)) as [|n' ns'] eqn:E';
    [discriminate|].
  rewrite (ScaleFacts.scale_nodes_numeric pyfloat pystr g _ H2), H3.
  reflexivity.
Qed.

Lemma scale_twice_example :
  (Geometry.scale More.float_of_text PyFloat.str_of_whole 2%float ;;
   Geometry.scale More.float_of_text PyFloat.str_of_whole 3%float)
    (Geometry.mk "mesh.inp" (Geometry.mkState (Some 1%Z) (Some 3%Z) true)
       [["1"; "1.0"; "2.0"]; ["2"; "3.0"; "4.0"]]%string)
    Example.world
  = (Ok tt,
     Geometry.mk "mesh.inp" (Geometry.mkState (Some 1%Z) (Some 3%Z) true)
       [["1"; " 6.0"; " 12.0"]; ["2"; " 18.0"; " 24.0"]]%string,
     Example.world).
Proof.
  exact (scale_twice More.float_of_text PyFloat.str_of_whole 2%float 3%float
           (Geometry.mk "mesh.inp" (Geometry.mkState (Some 1%Z) (Some 3%Z) true)
              [["1"; "1.0"; "2.0"]; ["2"; "3.0"; "4.0"]]%string)
           Example.world
           ltac:(discriminate)
           ltac:(repeat constructor;
                 [exists 1%float|exists 2%float|exists 3%float|exists 4%float];
                 split; reflexivity)).
Defined.

(* ================================================================== *)
(** ** [validate_file] and [extract] *)

Module KeywordFacts.
Import PyStr Keyword.

Lemma free_of_app (sep : ascii) (a b : string) :
  More.free_of sep (a ++ b) = More.free_of sep a && More.free_of sep b.
Proof.
  unfold More.free_of. induction a as [|c a IH]; [reflexivity|].
  cbn [String.append forallb_str]. rewrite IH. apply andb_assoc.
Qed.

Lemma split_whole (sep : ascii) (t : string) :
  More.free_of sep t = true -> split sep t = [t].
Proof.
  unfold More.free_of. induction t as [|c t IH]; [reflexivity|].
  cbn [forallb_str split]. intros H. apply andb_true_iff in H as [Hc Ht].
  apply negb_true_iff in Hc. rewrite Hc, (IH Ht). reflexivity.
Qed.

Lemma split_head (sep : ascii) (a r : string) :
  More.free_of sep a = true ->
  split sep (a ++ String sep r) = a :: split sep r.
Proof.
  unfold More.free_of. induction a as [|c a IH].
  - intros _. cbn [String.append split]. rewrite Ascii.eqb_refl. reflexivity.
  - cbn [forallb_str String.append split]. intros H.
    apply andb_true_iff in H as [Hc Ha].
    apply negb_true_iff in Hc. rewrite Hc, (IH Ha). reflexivity.
Qed.

Lemma join_more (sep f : string) (fs : list string) :
  fs <> [] -> join sep (f :: fs) = (f ++ sep ++ join sep fs)%string.
Proof. destruct fs; [congruence|reflexivity]. Qed.

(** [split] undoes [join] on parts that do not hold the separator. *)
Lemma split_join (item : list string) :
  item <> [] -> Forall (fun t => More.free_of More.equals t = true) item ->
  split More.equals (join "=" item) = item.
Proof.
  intros Hne H. induction H as [|t ts Ht Hts IH]; [congruence|].
  destruct ts as [|u ts].
  - exact (split_whole More.equals t Ht).
  - rewrite join_more by discriminate.
    change ("=" ++ join "=" (u :: ts))%string
      with (String More.equals (join "=" (u :: ts))).
    rewrite (split_head More.equals t _ Ht), IH by discriminate. reflexivity.
Qed.

(** The items of a keyword line come apart at the commas, each but the
    first with the blank in front. *)
Lemma split_items (texts : list string) :
  texts <> [] -> Forall (fun t => More.free_of comma t = true) texts ->
  map strip (split comma (join ", " texts)) = map strip texts.
Proof.
  intros Hne H. induction H as [|t ts Ht Hts IH]; [congruence|].
  destruct ts as [|u ts].
  - cbn [join]. rewrite (split_whole comma t Ht). reflexivity.
  - rewrite join_more by discriminate.
    change (", " ++ join ", " (u :: ts))%string
      with (String comma (String " " (join ", " (u :: ts)))).
    rewrite (split_head comma t _ Ht). cbn [map]. f_equal.
    specialize (IH ltac:(discriminate)).
    destruct (split comma (join ", " (u :: ts))) as [|x xs] eqn:E.
    + exfalso. exact (StrFacts.split_not_nil _ _ E).
    + assert (Hs : split comma (String " " (join ", " (u :: ts)))
                   = String " " x :: xs).
      { cbn [split]. rewrite E. reflexivity. }
      rewrite Hs. cbn [map] in *. rewrite <- IH. reflexivity.
Qed.

Lemma free_of_join (item : list string) :
  Forall (fun t => More.free_of comma t = true) item ->
  More.free_of comma (join "=" item) = true.
Proof.
  induction 1 as [|t ts Ht Hts IH]; [reflexivity|].
  destruct ts as [|u ts]; [exact Ht|].
  rewrite join_more by discriminate.
  rewrite !free_of_app, Ht, IH. reflexivity.
Qed.

End KeywordFacts.

(** X20.  [extract] undoes the writing of a keyword line.  For a line made
    of any first character and of items joined with a comma and a blank,
    each item being parts joined with [=], [extract] gives the items back,
    part by part, provided no part holds a comma or an equals sign and no
    item starts or ends with a blank.  The first character is dropped
    unseen: it need not be a star. *)
Theorem extract_reads_keyword (c : ascii) (items : list (list string)) :
  items <> [] -> Forall More.item_ok items ->
  Keyword.extract (More.keyword_text c items) = items.
Proof.
  intros Hne Hok. unfold Keyword.extract, More.keyword_text. cbn [Keyword.tail].
  rewrite KeywordFacts.split_items.
  - rewrite !map_map. rewrite <- (map_id items) at 2. apply map_ext_in.
    intros item Hin. rewrite Forall_forall in Hok.
    destruct (Hok item Hin) as (Hi & Hparts & Hstrip). rewrite Hstrip.
    apply KeywordFacts.split_join; [exact Hi|].
    eapply Forall_impl; [|exact Hparts]. intros t [_ H]. exact H.
  - destruct items; [congruence|discriminate].
  - apply Forall_map. eapply Forall_impl; [|exact Hok].
    intros item (_ & Hparts & _). apply KeywordFacts.free_of_join.
    eapply Forall_impl; [|exact Hparts]. intros t [H _]. exact H.
Qed.

Lemma extract_reads_keyword_example :
  Keyword.extract "*Nset, nset=Set-1, generate"
  = [["Nset"]; ["nset"; "Set-1"]; ["generate"]]%string.
Proof.
  exact (extract_reads_keyword "*"%char
           [["Nset"]; ["nset"; "Set-1"]; ["generate"]]%string
           ltac:(discriminate)
           ltac:(repeat constructor; discriminate)).
Defined.

(** X21.  [validate_file] only looks and prints.  Whatever the file and the
    caller, it leaves the instance, the files and the directory alone and
    only adds to what was printed.  It returns without an error exactly
    when the caller is ['write'] or ['create'], or the caller is ['read']
    and the file exists with some text in it; an existing file never makes
    a ['write'] fail. *)
Theorem validate_file_only_looks (S : Type) (file caller : string) (self : S)
        (w : World) :
  exists r w' extra,
    validate_file file caller self w = (r, self, w')
    /\ files w' = files w /\ listdir w' = listdir w
    /\ stdout w' = stdout w ++ extra
    /\ (r = Ok tt <->
        caller = "write"%string \/ caller = "create"%string
        \/ (caller = "read"%string
            /\ exists text, files w file = Some text /\ text <> EmptyString)).
Proof.
  destruct (String.eqb caller "read") eqn:Eread.
  - apply String.eqb_eq in Eread. subst caller.
    rewrite ReadFacts.validate_read.
    assert (Hout : exists extra, stdout (Scan.remarked file w) = stdout w ++ extra).
    { unfold Scan.remarked. destruct (String.eqb (snd (splitext file)) ".inp"); cbn [stdout];
        [exists []; symmetry; apply app_nil_r|eexists; reflexivity]. }
    destruct Hout as [extra Hout].
    assert (Hl : listdir (Scan.remarked file w) = listdir w)
      by (unfold Scan.remarked; destruct (String.eqb (snd (splitext file)) ".inp"); reflexivity).
    destruct (files w file) as [text|] eqn:Hf.
    + destruct (String.eqb text EmptyString) eqn:Ht.
      * apply String.eqb_eq in Ht. subst text.
        eexists _, _, extra. split; [reflexivity|].
        split; [apply ReadFacts.files_remarked|]. split; [exact Hl|].
        split; [exact Hout|]. split; [discriminate|].
        intros [H|[H|(_ & t & Ht & Hne)]]; try discriminate. congruence.
      * apply String.eqb_neq in Ht.
        eexists _, _, extra. split; [reflexivity|].
        split; [apply ReadFacts.files_remarked|]. split; [exact Hl|].
        split; [exact Hout|]. split; [|reflexivity].
        intros _. right. right. split; [reflexivity|]. exists text. auto.
    + eexists _, _, extra. split; [reflexivity|].
      split; [apply ReadFacts.files_remarked|]. split; [exact Hl|].
      split; [exact Hout|]. split; [discriminate|].
      intros [H|[H|(_ & t & Ht & Hne)]]; discriminate.
  - destruct (String.eqb caller "write" || String.eqb caller "create") eqn:Ew.
    + assert (Hrun : validate_file file caller self w
                     = (Ok tt, self, Scan.announced file w)).
      { unfold validate_file, bind, isfile, Scan.announced, Scan.remarked, ret,
          print, raise.
        rewrite Eread, Ew.
        destruct (String.eqb (snd (splitext file)) ".inp"); cbn;
          destruct (files w file); reflexivity. }
      rewrite Hrun.
      assert (Hout : exists extra, stdout (Scan.announced file w) = stdout w ++ extra).
      { unfold Scan.announced, Scan.remarked.
        destruct (String.eqb (snd (splitext file)) ".inp"), (files w file); cbn [stdout files listdir];
          rewrite <- ?app_assoc; eexists; try reflexivity.
        symmetry. apply app_nil_r. }
      destruct Hout as [extra Hout].
      eexists _, _, extra. split; [reflexivity|].
      split; [apply ReadFacts.files_announced|].
      split; [unfold Scan.announced, Scan.remarked;
              destruct (String.eqb (snd (splitext file)) ".inp"), (files w file); reflexivity|].
      split; [exact Hout|]. split; [|reflexivity].
      intros _. apply orb_true_iff in Ew as [E|E]; apply String.eqb_eq in E; auto.
    + apply orb_false_iff in Ew as [Ew Ec].
      assert (Hrun : exists e, validate_file file caller self w
                               = (Raise e, self, Scan.remarked file w)).
      { unfold validate_file, bind, isfile, Scan.remarked, ret, print, raise.
        rewrite Eread, Ew, Ec.
        destruct (String.eqb (snd (splitext file)) ".inp"); cbn;
          eexists; reflexivity. }
      destruct Hrun as [e Hrun]. rewrite Hrun.
      assert (Hout : exists extra, stdout (Scan.remarked file w) = stdout w ++ extra).
      { unfold Scan.remarked. destruct (String.eqb (snd (splitext file)) ".inp"); cbn [stdout];
          [exists []; symmetry; apply app_nil_r|eexists; reflexivity]. }
      destruct Hout as [extra Hout].
      eexists _, _, extra. split; [reflexivity|].
      split; [apply ReadFacts.files_remarked|].
      split; [unfold Scan.remarked; destruct (String.eqb (snd (splitext file)) ".inp"); reflexivity|].
      split; [exact Hout|]. split; [discriminate|].
      apply String.eqb_neq in Eread, Ew, Ec.
      intros [H|[H|(H & _)]]; congruence.
Qed.

(** X22.  [show] prints what [write] stores.  For a database built by hand
    (never read, at least one material), [show] prints one text and leaves
    the instance and the files alone, and that text is, character for
    character, the content of the file [write] creates. *)
Theorem show_prints_what_write_stores (out : option string) (self : Material.t)
        (w : World) :
  Material.st_read (Material.state self) = false ->
  Material.materials self <> [] ->
  exists text w',
    Material.show self w = (Ok tt, self, More.printed text w)
    /\ Material.write out self w = (Ok tt, self, w')
    /\ files w' (More.manual_target out w) = Some text.
Proof.
  intros Hread Hne.
  exists (PyStr.concat_lines (Material.format_materials (Material.materials self))).
  eexists. split; [reflexivity|].
  split; [exact (ManualFacts.write_manual out self w Hread Hne)|].
  unfold Scan.reported, Scan.written. cbn [files].
  rewrite String.eqb_refl. reflexivity.
Qed.

Lemma show_prints_what_write_stores_example :
  exists text w',
    Material.show
      (Material.mk "" (Material.mkState None None false)
         [("Steel-1", [("Elastic", [["210000"; " 0.3"]])])]%string false)
      Example.world
    = (Ok tt,
       Material.mk "" (Material.mkState None None false)
         [("Steel-1", [("Elastic", [["210000"; " 0.3"]])])]%string false,
       More.printed text Example.world)
    /\ Material.write None
         (Material.mk "" (Material.mkState None None false)
            [("Steel-1", [("Elastic", [["210000"; " 0.3"]])])]%string false)
         Example.world
       = (Ok tt,
          Material.mk "" (Material.mkState None None false)
            [("Steel-1", [("Elastic", [["210000"; " 0.3"]])])]%string false, w')
    /\ files w' (More.manual_target None Example.world) = Some text.
Proof.
  exact (show_prints_what_write_stores None
           (Material.mk "" (Material.mkState None None false)
              [("Steel-1", [("Elastic", [["210000"; " 0.3"]])])]%string false)
           Example.world eq_refl ltac:(discriminate)).
Defined.
